(** * Transwarp: routing and middleware composition

  A shallow embedding of the Go package [transwarp] and of its adapters
  (the mock router, the native [net/http] adapter, the Fiber adapter and
  the Gin adapter), with the properties of its specification. *)

From Stdlib Require Import Ascii String.
From stdpp Require Import base option list gmap strings countable.


(** ** The [net/http] vocabulary the package is written against *)

Module Http.

(** Keys of [context.WithValue]: a key is compared by its dynamic type and
    its value, so each private key type of the adapters is a constructor. *)
Inductive CtxKey : Type :=
| MockKey (s : string)        (* adapter.MockKey *)
| fiberCtxKey (s : string)    (* fiberadapter.fiberCtxKey *)
| ginCtxKey (s : string)      (* ginadapter.ginCtxKey *)
| OtherKey (s : string).      (* a key of any other package *)

#[global] Instance CtxKey_eq_dec : EqDecision CtxKey.
Proof. solve_decision. Defined.

(** Values of type [any] stored in a context. *)
Inductive Any : Type :=
| AString (s : string)
| AParams (m : gmap string string)     (* map[string]string *)
| APointer (p : nat)                   (* a pointer, e.g. a *gin.Context *)
| AOther (tag : string).

(** A [context.Context]: [WithValue] pushes a binding, [Value] finds the
    innermost one. *)
Definition Context := list (CtxKey * Any).

Definition Background : Context := [].

Definition WithValue (ctx : Context) (k : CtxKey) (v : Any) : Context :=
  (k, v) :: ctx.

Fixpoint Value (ctx : Context) (k : CtxKey) : option Any :=
  match ctx with
  | [] => None
  | (k', v) :: parent => if decide (k' = k) then Some v else Value parent k
  end.

Record Request : Type := mkRequest {
  Method : string;
  Path : string;            (* r.URL.Path *)
  RawQuery : string;        (* r.URL.RawQuery *)
  ReqHeader : gmap string string;
  Ctx : Context             (* r.Context() *)
}.

Definition WithContext (r : Request) (ctx : Context) : Request :=
  {| Method := Method r; Path := Path r; RawQuery := RawQuery r;
     ReqHeader := ReqHeader r; Ctx := ctx |}.

Definition NewRequest (method path : string) : Request :=
  {| Method := method; Path := path; RawQuery := "";
     ReqHeader := ∅; Ctx := Background |}.

(** How a call ends: it returns, or it panics with a value.  The state a
    call has reached when it panics is kept: writes made before a panic
    stay made. *)
Inductive outcome (A : Type) : Type :=
| Returned (a : A)
| Panicked (v : string).
Arguments Returned {A} a.
Arguments Panicked {A} v.

Definition obind {A B} (o : outcome A) (k : A → outcome B) : outcome B :=
  match o with
  | Returned a => k a
  | Panicked v => Panicked v
  end.

(** [http.ResponseWriter] is an interface; a handler only reaches the
    response through it. *)
Class ResponseWriter (W : Type) : Type := {
  HeaderSet : string → string → W → W;     (* w.Header().Set(k, v) *)
  HeaderGet : string → W → string;         (* w.Header().Get(k) *)
  Write : string → W → W;                  (* w.Write(b) *)
  WriteHeader : nat → W → W                (* w.WriteHeader(code) *)
}.

(** [http.Handler] / [http.HandlerFunc], over the state [W] it acts on. *)
Definition Handler (W : Type) : Type := Request → W → outcome unit * W.

(** [HandlerFunc.ServeHTTP] calls the function, [final.ServeHTTP] as a
    method value is the handler again. *)
Definition ServeHTTP {W} (h : Handler W) : Handler W := λ r w, h r w.

(** [transwarp.Middleware = func(http.Handler) http.Handler]; a value of a
    func type may be nil. *)
Definition MiddlewareFn (W : Type) : Type := Handler W → Handler W.
Abbreviation Middleware W := (option (MiddlewareFn W)) (only parsing).

(** Calling a middleware value: calling nil panics. *)
Definition callMw {W} (mw : Middleware W) (next : Handler W)
  : outcome (Handler W) :=
  match mw with
  | Some f => Returned (f next)
  | None => Panicked "invalid memory address or nil pointer dereference"
  end.

(** The loop all adapters and [Chain] share:
    [for i := len(mws) - 1; i >= 0; i-- { final = mws[i](final) }].
    [wrapDown mws n final] runs the iterations [i = n-1, ..., 0]. *)
Fixpoint wrapDown {W} (mws : list (Middleware W)) (n : nat)
    (final : Handler W) : outcome (Handler W) :=
  match n with
  | 0 => Returned final
  | S i =>
      match mws !! i with
      | None => Panicked "index out of range"
      | Some mw => obind (callMw mw final) (wrapDown mws i)
      end
  end.

(** [httptest.ResponseRecorder]: the first [WriteHeader] wins and [Write]
    implies [WriteHeader(200)]. *)
Record ResponseRecorder : Type := mkRecorder {
  Code : nat;
  HeaderMap : gmap string string;
  Body : string;
  wroteHeader : bool
}.

Definition NewRecorder : ResponseRecorder :=
  {| Code := 200; HeaderMap := ∅; Body := ""; wroteHeader := false |}.

Definition recWriteHeader (code : nat) (w : ResponseRecorder)
  : ResponseRecorder :=
  if wroteHeader w then w
  else {| Code := code; HeaderMap := HeaderMap w; Body := Body w;
          wroteHeader := true |}.

Definition recWrite (b : string) (w : ResponseRecorder) : ResponseRecorder :=
  let w := recWriteHeader 200 w in
  {| Code := Code w; HeaderMap := HeaderMap w; Body := Body w +:+ b;
     wroteHeader := wroteHeader w |}.

#[global] Instance recorder_writer : ResponseWriter ResponseRecorder := {
  HeaderSet k v w :=
    {| Code := Code w; HeaderMap := <[k := v]> (HeaderMap w);
       Body := Body w; wroteHeader := wroteHeader w |};
  HeaderGet k w := default "" (HeaderMap w !! k);
  Write := recWrite;
  WriteHeader := recWriteHeader
}.

(** [http.NotFound(w, r)] is [http.Error(w, "404 page not found", 404)]. *)
Definition NotFound {W} `{ResponseWriter W} : Handler W := λ _ w,
  let w := HeaderSet "Content-Type" "text/plain; charset=utf-8" w in
  let w := HeaderSet "X-Content-Type-Options" "nosniff" w in
  let w := WriteHeader 404 w in
  (Returned (), Write ("404 page not found" +:+ String (Ascii.ascii_of_nat 10) "") w).

End Http.
Export Http.

(** ** transwarp.go and registry.go *)

Module Transwarp.

(** [type Driver string]. *)
Abbreviation Driver := string (only parsing).
Definition DriverGin : Driver := "gin".
Definition DriverEcho : Driver := "echo".
Definition DriverFiber : Driver := "fiber".
Definition DriverChi : Driver := "chi".
Definition DriverMock : Driver := "mock".
Definition DriverNative : Driver := "native".

Record Config : Type := { cfgDriver : Driver }.

(** [func Chain(h http.HandlerFunc, mws ...Middleware) http.HandlerFunc]. *)
Definition Chain {W} (h : Handler W) (mws : list (Middleware W))
  : outcome (Handler W) :=
  if decide (length mws = 0) then Returned h
  else obind (wrapDown mws (length mws) h)
             (λ final, Returned (ServeHTTP final)).

(** [type routerConstructor func() Transwarp]; [T] stands for the interface
    type [Transwarp].  A constructor is a Go function: it may panic. *)
Abbreviation routerConstructor T := (unit → outcome T) (only parsing).

(** [var registry = make(map[Driver]routerConstructor)]: package state,
    passed explicitly. *)
Definition emptyRegistry {T} : gmap Driver (routerConstructor T) := ∅.

(** [func Register(d Driver, c routerConstructor)]. *)
Definition Register {T} (d : Driver) (c : routerConstructor T)
    (registry : gmap Driver (routerConstructor T))
  : gmap Driver (routerConstructor T) :=
  <[d := c]> registry.

(** The message of [fmt.Sprintf] in [New]. *)
Definition driverNotAvailable (d : Driver) : string :=
  "Transwarp Error: Driver '" +:+ d +:+
  "' is not available. Did you forget to compile with '-tags " +:+ d +:+ "'?".

(** [func New(cfg Config) Transwarp]. *)
Definition New {T} (cfg : Config)
    (registry : gmap Driver (routerConstructor T)) : outcome T :=
  match registry !! cfgDriver cfg with
  | None => Panicked (driverNotAvailable (cfgDriver cfg))
  | Some constructor => constructor ()
  end.

End Transwarp.

(** ** The package [strings], as far as the adapters use it *)

Module Strings.

(** [strings.HasPrefix(s, prefix)]. *)
Definition HasPrefix (s prefix : string) : bool := String.prefix prefix s.

(** [strings.HasSuffix(s, suffix)]. *)
Definition HasSuffix (s suffix : string) : bool :=
  bool_decide (String.length suffix ≤ String.length s)%nat &&
  String.eqb
    (String.substring (String.length s - String.length suffix)
                      (String.length suffix) s)
    suffix.

(** [strings.TrimSuffix(s, suffix)]. *)
Definition TrimSuffix (s suffix : string) : string :=
  if HasSuffix s suffix
  then String.substring 0 (String.length s - String.length suffix) s
  else s.

(** [strings.TrimPrefix(s, prefix)]. *)
Definition TrimPrefix (s prefix : string) : string :=
  if HasPrefix s prefix
  then String.substring (String.length prefix)
                        (String.length s - String.length prefix) s
  else s.

(** [strings.Contains(s, substr)]. *)
Fixpoint Contains (s substr : string) : bool :=
  String.prefix substr s ||
  match s with
  | EmptyString => false
  | String _ t => Contains t substr
  end.

(** [strings.SplitN(s, sep, 2)] for a one-byte separator: the text before
    the first separator and the text after it, or [s] alone. *)
Fixpoint SplitN2 (s : string) (sep : ascii) : list string :=
  match s with
  | EmptyString => [EmptyString]
  | String c t =>
      if Ascii.eqb c sep then [EmptyString; t]
      else match SplitN2 t sep with
           | x :: rest => String c x :: rest
           | [] => [String c EmptyString]
           end
  end.

(** [strings.Split(s, sep)[0]] for a one-byte separator: the text before
    the first separator. *)
Fixpoint SplitHead (s : string) (sep : ascii) : string :=
  match s with
  | EmptyString => EmptyString
  | String c t => if Ascii.eqb c sep then EmptyString
                  else String c (SplitHead t sep)
  end.

End Strings.

(** ** The package [regexp], as far as the native adapter uses it *)

Module Regexp.

(** A compiled expression, seen from [ReplaceAllString]: at a position of
    the text, the match that starts there, if one does, as the text of its
    first group and the length of the whole match. *)
Definition Matcher : Type := string → option (string * nat).

(** The longest prefix of [s] whose bytes satisfy [p]: a greedy [c+]. *)
Fixpoint spanWhile (p : ascii → bool) (s : string) : string :=
  match s with
  | EmptyString => EmptyString
  | String c t => if p c then String c (spanWhile p t) else EmptyString
  end.

(** The character class [[a-zA-Z0-9_]]. *)
Definition isWordChar (c : ascii) : bool :=
  let n := nat_of_ascii c in
  (((97 <=? n) && (n <=? 122)) || ((65 <=? n) && (n <=? 90)) ||
   ((48 <=? n) && (n <=? 57)) || (n =? 95))%nat.

(** The character class [[^/]]. *)
Definition notSlash (c : ascii) : bool := negb (Ascii.eqb c "/").

(** [c1 (class+)]: one literal byte, then a greedy non-empty run of the
    class, which is the first group. *)
Definition literalThenRun (c1 : ascii) (class : ascii → bool) : Matcher :=
  λ s, match s with
       | String c t =>
           if Ascii.eqb c c1
           then match spanWhile class t with
                | EmptyString => None
                | run => Some (run, S (String.length run))
                end
           else None
       | EmptyString => None
       end.

(** [ReplaceAllString]: the text is scanned from the left, each match is
    replaced and the scan goes on behind it.  [skip] counts the bytes of the
    current match still to pass. *)
Fixpoint replaceAllFrom (m : Matcher) (repl : string → string)
    (skip : nat) (s : string) : string :=
  match s with
  | EmptyString => EmptyString
  | String c t =>
      match skip with
      | S k => replaceAllFrom m repl k t
      | 0 =>
          match m s with
          | Some (group, len) => repl group +:+ replaceAllFrom m repl (len - 1) t
          | None => String c (replaceAllFrom m repl 0 t)
          end
      end
  end.

Definition ReplaceAllString (m : Matcher) (repl : string → string)
    (s : string) : string :=
  replaceAllFrom m repl 0 s.

End Regexp.

(** ** Go's calling convention: state passing with panics *)

(** A Go function over a mutable state [S]: it ends by returning or by
    panicking, and leaves a state either way. *)
Definition Go (S A : Type) : Type := S → outcome A * S.

Definition ret {S A} (a : A) : Go S A := λ σ, (Returned a, σ).

Definition panic {S A} (v : string) : Go S A := λ σ, (Panicked v, σ).

Definition bind {S A B} (m : Go S A) (k : A → Go S B) : Go S B :=
  λ σ, match m σ with
       | (Returned a, σ') => k a σ'
       | (Panicked v, σ') => (Panicked v, σ')
       end.

Definition liftOutcome {S A} (o : outcome A) : Go S A := λ σ, (o, σ).

Definition gets {S A} (f : S → A) : Go S A := λ σ, (Returned (f σ), σ).

Definition modify {S} (f : S → S) : Go S unit := λ σ, (Returned (), f σ).

Notation "'let*' x ':=' m 'in' k" := (bind m (λ x, k))
  (at level 10, x pattern, m at level 100, k at level 200, only parsing).
Notation "m ';;' k" := (bind m (λ _, k))
  (at level 100, k at level 200, right associativity, only parsing).

(** ** Slices and their backing arrays *)

Module Slices.

(** A slice header.  The adapters never re-slice, so a slice starts at the
    first cell of its array. *)
Record Slice : Type := mkSlice { arr : nat; len : nat; cap : nat }.

(** The arrays of the heap, by address. *)
Abbreviation Arrays A := (list (list A)) (only parsing).

(** The elements of a slice. *)
Definition view {A} (s : Slice) (H : Arrays A) : list A :=
  take (len s) (default [] (H !! arr s)).

(** [make([]T, n)]: a new array of [n] zero values. *)
Definition make {A} (zero : A) (n : nat) (H : Arrays A) : Slice * Arrays A :=
  ({| arr := length H; len := n; cap := n |}, H ++ [replicate n zero]).

(** [copy(dst, src)]: the first [min(len(dst), len(src))] elements. *)
Definition copy {A} (dst src : Slice) (H : Arrays A) : Arrays A :=
  let n := Nat.min (len dst) (len src) in
  let elems := take n (view src H) in
  alter (λ cells, elems ++ drop (length elems) cells) (arr dst) H.

(** The capacity [append] gives a slice that has to grow. *)
Definition growCap (old needed : nat) : nat := Nat.max needed (2 * old).

(** [append(s, x)]: in place when the capacity allows it, else into a new,
    larger array. *)
Definition append {A} (zero : A) (s : Slice) (x : A) (H : Arrays A)
  : Slice * Arrays A :=
  if decide (len s < cap s)
  then ({| arr := arr s; len := S (len s); cap := cap s |},
        alter (λ cells, <[len s := x]> cells) (arr s) H)
  else
    let c := growCap (cap s) (S (len s)) in
    ({| arr := length H; len := S (len s); cap := c |},
     H ++ [view s H ++ x :: replicate (c - S (len s)) zero]).

End Slices.

(** ** The native adapter (package [nativeadapter]) *)

Module Native.
Import Strings Regexp.

(** [regexp.MustCompile(`:([a-zA-Z0-9_]+)`)]. *)
Definition paramRegex : Matcher := literalThenRun ":" isWordChar.

(** [regexp.MustCompile(`\}[^/]+`)]. *)
Definition suffixCleaner : Matcher := literalThenRun "}" notSlash.

(** [func (a *NativeAdapter) transformPattern(p string) string]. *)
Definition transformPattern (p : string) : string :=
  let converted :=
    ReplaceAllString paramRegex (λ g, "{" +:+ g +:+ "}") p in
  if Contains converted "}"
  then ReplaceAllString suffixCleaner (λ _, "}") converted
  else converted.

(** [func (a *NativeAdapter) joinPath(prefix, path string) string]. *)
Definition joinPath (prefix path : string) : string :=
  if decide (prefix = "") then path
  else if decide (path = "" ∨ path = "/") then prefix
  else
    let cleanPrefix := TrimSuffix prefix "/" in
    let cleanPath := if HasPrefix path "/" then path else "/" +:+ path in
    cleanPrefix +:+ cleanPath.

(** [type NativeAdapter struct]; the mux is the [net/http] one. *)
Record NativeAdapter : Type := mkNativeAdapter {
  prefix : string;
  middlewares : Slices.Slice
}.

(** [func (a *NativeAdapter) Group(prefix string) internal.Router]. *)
Definition Group {W} (a : NativeAdapter) (p : string)
    (H : Slices.Arrays (Middleware W))
  : NativeAdapter * Slices.Arrays (Middleware W) :=
  let '(newMws, H) := Slices.make None (Slices.len (middlewares a)) H in
  let H := Slices.copy newMws (middlewares a) H in
  ({| prefix := joinPath (prefix a) p; middlewares := newMws |}, H).

(** The pattern [func (a *NativeAdapter) register(method, pattern, h)] hands
    to [registerToMux]. *)
Definition registeredPattern (a : NativeAdapter) (method pattern : string)
  : string :=
  let cleanPath := transformPattern pattern in
  let fullPath := joinPath (prefix a) cleanPath in
  method +:+ " " +:+ fullPath.

(** The loop of [registerToMux]:
    [finalHandler = a.middlewares[i](finalHandler).ServeHTTP]. *)
Fixpoint wrapDownFunc {W} (mws : list (Middleware W)) (n : nat)
    (finalHandler : Handler W) : outcome (Handler W) :=
  match n with
  | 0 => Returned finalHandler
  | S i =>
      match mws !! i with
      | None => Panicked "index out of range"
      | Some mw =>
          obind (callMw mw finalHandler)
                (λ wrapped, wrapDownFunc mws i (ServeHTTP wrapped))
      end
  end.

(** The handler [func (a *NativeAdapter) registerToMux(finalPattern, h)]
    hands to the mux, for the middlewares [mws] of the adapter. *)
Definition registerToMux {W} (mws : list (Middleware W)) (h : Handler W)
  : outcome (Handler W) :=
  wrapDownFunc mws (length mws) h.

End Native.


(** ** Onion composition *)

(** The right fold [m1(m2(...mn(h)...))], innermost call first. *)
Definition onion {W} (mws : list (Middleware W)) (h : Handler W)
  : outcome (Handler W) :=
  foldr (λ mw acc, obind acc (callMw mw)) (Returned h) mws.

(** ** The joining of prefixes the specification asks of [Group] *)

(** The words of the specification: the parent's prefix joined to the
    sub-prefix with exactly one separating slash, whether or not the parent's
    prefix ends with a slash and the sub-prefix begins with one. *)
Definition joinWithOneSlash (parent subPrefix : string) : string :=
  Strings.TrimSuffix parent "/" +:+ "/" +:+ Strings.TrimPrefix subPrefix "/".

(** ** Handlers and middlewares written by the application *)

Module Script.

(** What the body of a handler does with its [ResponseWriter] and, for a
    middleware, with the handler [next] it was given. *)
Inductive Code : Type :=
| Done                                        (* return *)
| Raise (v : string)                          (* panic(v) *)
| SetHeader (k v : string) (rest : Code)      (* w.Header().Set(k, v) *)
| GetHeader (k : string) (rest : string → Code)
| WriteBody (b : string) (rest : Code)        (* w.Write(b) *)
| WriteStatus (code : nat) (rest : Code)      (* w.WriteHeader(code) *)
| CallNext (r : Request) (rest : Code).       (* next.ServeHTTP(w, r) *)

(** Running a body against a writer and a continuation. *)
Fixpoint exec {W} `{ResponseWriter W} (next : Handler W) (c : Code)
  : Go W unit :=
  match c with
  | Done => ret ()
  | Raise v => panic v
  | SetHeader k v rest => λ w, exec next rest (HeaderSet k v w)
  | GetHeader k rest => λ w, exec next (rest (HeaderGet k w)) w
  | WriteBody b rest => λ w, exec next rest (Write b w)
  | WriteStatus code rest => λ w, exec next rest (WriteHeader code w)
  | CallNext r rest => bind (next r) (λ _, exec next rest)
  end.

(** The same run, counting how often the continuation is invoked. *)
Fixpoint invocations {W} `{ResponseWriter W} (next : Handler W) (c : Code)
    (w : W) : nat :=
  match c with
  | Done | Raise _ => 0
  | SetHeader k v rest => invocations next rest (HeaderSet k v w)
  | GetHeader k rest => invocations next (rest (HeaderGet k w)) w
  | WriteBody b rest => invocations next rest (Write b w)
  | WriteStatus code rest => invocations next rest (WriteHeader code w)
  | CallNext r rest =>
      match next r w with
      | (Returned _, w') => S (invocations next rest w')
      | (Panicked _, _) => 1
      end
  end.

(** A middleware [func(next http.Handler) http.Handler] whose handler has
    the body [body r] on the request [r]. *)
Definition middlewareOf {W} `{ResponseWriter W} (body : Request → Code)
  : MiddlewareFn W :=
  λ next r, exec next (body r).

(** A handler [func(w, r)] with the body [body r]: it has no continuation
    to call, so [CallNext] does nothing. *)
Definition handlerOf {W} `{ResponseWriter W} (body : Request → Code)
  : Handler W :=
  λ r, exec (λ _, ret ()) (body r).

End Script.

(** ** The mock router (package [adapter]) *)

Module Mock.
Import Strings Slices.

Definition MockParamsKey : CtxKey := MockKey "mock_params".

(** [type MockRouter struct]: the map of handlers is a reference shared by
    the groups, the slice of middlewares is a header over an array. *)
Record MockRouter : Type := mkMockRouter {
  Handlers : nat;           (* the map, by address *)
  prefix : string;
  middlewares : Slice
}.

(** The heap the routers live in: [*MockRouter] values are addresses into
    [routers]. *)
Record Store (W : Type) : Type := mkStore {
  arrays : Arrays (Middleware W);
  tables : list (gmap string (Handler W));
  routers : list MockRouter
}.
Arguments mkStore {W} _ _ _.
Arguments arrays {W} _.
Arguments tables {W} _.
Arguments routers {W} _.

Definition emptyStore {W} : Store W :=
  {| arrays := []; tables := []; routers := [] |}.

Section ops.
Context {W : Type}.

(** Dereferencing a [*MockRouter]. *)
Definition load (m : nat) : Go (Store W) MockRouter :=
  λ σ, match routers σ !! m with
       | Some r => (Returned r, σ)
       | None => (Panicked "invalid memory address or nil pointer dereference", σ)
       end.

Definition withArrays {A} (f : Arrays (Middleware W) → A * Arrays (Middleware W))
  : Go (Store W) A :=
  λ σ, let '(a, H) := f (arrays σ) in
       (Returned a, {| arrays := H; tables := tables σ; routers := routers σ |}).

(** [&MockRouter{...}]. *)
Definition new (r : MockRouter) : Go (Store W) nat :=
  λ σ, (Returned (length (routers σ)),
        {| arrays := arrays σ; tables := tables σ;
           routers := routers σ ++ [r] |}).

(** [func NewMockRouter() *MockRouter]. *)
Definition NewMockRouter : Go (Store W) nat :=
  let* handlers := (λ σ, (Returned (length (tables σ)),
                         {| arrays := arrays σ; tables := tables σ ++ [∅];
                            routers := routers σ |})) in
  let* mws := withArrays (make None 0) in
  new {| Handlers := handlers; prefix := ""; middlewares := mws |}.

(** [func (m *MockRouter) Group(path string) internal.Router]. *)
Definition Group (m : nat) (path : string) : Go (Store W) nat :=
  let* r := load m in
  let* newMws := withArrays (make None (len (middlewares r))) in
  withArrays (λ H, ((), copy newMws (middlewares r) H)) ;;
  new {| Handlers := Handlers r;
         prefix := prefix r +:+ path;
         middlewares := newMws |}.

(** [func (m *MockRouter) Use(mw internal.Middleware)]. *)
Definition Use (m : nat) (mw : Middleware W) : Go (Store W) unit :=
  let* r := load m in
  let* s := withArrays (append None (middlewares r) mw) in
  modify (λ σ, {| arrays := arrays σ; tables := tables σ;
                  routers := <[m := {| Handlers := Handlers r;
                                       prefix := prefix r;
                                       middlewares := s |}]> (routers σ) |}).

(** [func (m *MockRouter) register(method, path string, h http.HandlerFunc)]. *)
Definition register (m : nat) (method path : string) (h : Handler W)
  : Go (Store W) unit :=
  let* r := load m in
  let fullPath := prefix r +:+ path in
  let key := method +:+ " " +:+ fullPath in
  let* mws := gets (λ σ, view (middlewares r) (arrays σ)) in
  let* finalHandler := liftOutcome (wrapDown mws (len (middlewares r)) h) in
  λ σ, match tables σ !! Handlers r with
       | Some _ =>
           (Returned (),
            {| arrays := arrays σ;
               tables := alter (λ t, <[key := ServeHTTP finalHandler]> t)
                               (Handlers r) (tables σ);
               routers := routers σ |})
       | None => (Panicked "assignment to entry in nil map", σ)
       end.

Definition GET m path h := register m "GET" path h.
Definition POST m path h := register m "POST" path h.
Definition PUT m path h := register m "PUT" path h.
Definition DELETE m path h := register m "DELETE" path h.
Definition PATCH m path h := register m "PATCH" path h.
Definition HEAD m path h := register m "HEAD" path h.

(** [var mockMethods]. *)
Definition mockMethods : list string :=
  ["GET"; "POST"; "PUT"; "DELETE"; "PATCH"; "HEAD"; "OPTIONS"].

(** [func (m *MockRouter) HandleFunc(pattern string, h http.HandlerFunc)]. *)
Definition HandleFunc (m : nat) (pattern : string) (h : Handler W)
  : Go (Store W) unit :=
  foldr (λ method rest, register m method pattern h ;; rest) (ret ())
        mockMethods.

(** [func (m *MockRouter) Param(r *http.Request, key string) string]. *)
Definition Param (r : Request) (key : string) : string :=
  match Value (Ctx r) MockParamsKey with
  | Some (AParams params) => default "" (params !! key)
  | _ => ""
  end.

(** The test of the fallback loop of [ServeHTTP] on one entry of the map:
    the key splits into the request's method and a pattern with a [":"]
    whose text before the first [":"] is a prefix of the path. *)
Definition candidate (r : Request) (routeKey : string) : bool :=
  match SplitN2 routeKey " " with
  | [method; pattern] =>
      if decide (method = Method r)
      then Contains pattern ":" &&
           HasPrefix (Path r) (SplitHead pattern ":")
      else false
  | _ => false
  end.

(** What [ServeHTTP] settles on. *)
Inductive Resolution : Type :=
| Exact (key : string) (h : Handler W)       (* step 2: the key is in the map *)
| Fallback (routeKey : string) (h : Handler W) (* step 3: the loop found one *)
| Missing.                                    (* step 4: 404 *)

(** The key of the entry a resolution settles on. *)
Definition routeKey (res : Resolution) : option string :=
  match res with
  | Exact key _ | Fallback key _ => Some key
  | Missing => None
  end.

(** The loop [for routeKey, h := range m.Handlers]: [order] is the order in
    which this run of the loop meets the entries.  Go leaves it
    unspecified; it is some permutation of the entries of the map. *)
Fixpoint scan (r : Request) (order : list (string * Handler W))
  : Resolution :=
  match order with
  | [] => Missing
  | (routeKey, h) :: rest =>
      if candidate r routeKey then Fallback routeKey h else scan r rest
  end.

Definition resolve (handlers : gmap string (Handler W))
    (order : list (string * Handler W)) (r : Request) : Resolution :=
  let key := Method r +:+ " " +:+ Path r in
  match handlers !! key with
  | Some handler => Exact key handler
  | None => scan r order
  end.

(** [func (m *MockRouter) ServeHTTP(w http.ResponseWriter, r *http.Request)],
    on the map [m.Handlers]. *)
Definition ServeHTTP `{ResponseWriter W} (handlers : gmap string (Handler W))
    (order : list (string * Handler W)) : Handler W :=
  λ r, match resolve handlers order r with
       | Exact _ handler => handler r
       | Fallback _ h => h r
       | Missing => NotFound r
       end.

(** The orders a range over the map can take. *)
Definition rangeOrder (handlers : gmap string (Handler W))
    (order : list (string * Handler W)) : Prop :=
  order ≡ₚ map_to_list handlers.

(** The map a router dispatches on. *)
Definition handlersOf (σ : Store W) (m : nat) : gmap string (Handler W) :=
  default ∅ (r ← routers σ !! m; tables σ !! Handlers r).

(** The middlewares of a router, first to last. *)
Definition middlewaresOf (σ : Store W) (m : nat) : list (Middleware W) :=
  match routers σ !! m with
  | Some r => view (middlewares r) (arrays σ)
  | None => []
  end.

Definition prefixOf (σ : Store W) (m : nat) : string :=
  match routers σ !! m with
  | Some r => prefix r
  | None => ""
  end.

(** Set-up code: a sequence of calls on routers. *)
Inductive Call : Type :=
| CallGroup (m : nat) (path : string)
| CallUse (m : nat) (mw : Middleware W)
| CallRegister (m : nat) (method path : string) (h : Handler W)
| CallHandleFunc (m : nat) (pattern : string) (h : Handler W).

Definition call (c : Call) : Go (Store W) unit :=
  match c with
  | CallGroup m path => Group m path ;; ret ()
  | CallUse m mw => Use m mw
  | CallRegister m method path h => register m method path h
  | CallHandleFunc m pattern h => HandleFunc m pattern h
  end.

Definition setup (cs : list Call) : Go (Store W) unit :=
  foldr (λ c rest, call c ;; rest) (ret ()) cs.

End ops.
End Mock.

(** ** The Fiber adapter (package [fiberadapter]) *)

Module Fiber.
Import Slices.

(** What the adapter uses of Fiber: a router [R] that makes groups, and a
    request context [C].  [HTTPHandlerFunc h c] is
    [adaptor.HTTPHandlerFunc(h)(c)], which runs a [net/http] handler against
    the Fiber context; [W] is the [ResponseWriter] it hands to it. *)
Class Engine (W R C : Type) : Type := {
  RouterGroup : string → R → R;                  (* a.Router.Group(prefix) *)
  Status : nat → C → C;                          (* c.Status(code) *)
  SendString : string → C → option string * C;   (* c.SendString(s) *)
  RouteParams : C → option (list string);        (* c.Route().Params *)
  Params : string → C → string;                  (* c.Params(name) *)
  HTTPHandlerFunc : Handler W → C → outcome (option string) * C
}.

(** [fiber.Handler]: [func(c fiber.Ctx) error]. *)
Definition FiberHandler (C : Type) : Type := C → outcome (option string) * C.

(** [type FiberAdapter struct]; [App] plays no part in what follows. *)
Record FiberAdapter (R : Type) : Type := mkFiberAdapter {
  Router : R;
  Middlewares : Slice
}.
Arguments mkFiberAdapter {R} _ _.
Arguments Router {R} _.
Arguments Middlewares {R} _.

Record Store (W R C : Type) : Type := mkStore {
  arrays : Arrays (Middleware W);
  adapters : list (FiberAdapter R);
  (* the calls [a.Router.Add([]string{method}, path, handler)] made so far *)
  added : list (R * string * string * FiberHandler C)
}.
Arguments mkStore {W R C} _ _ _.
Arguments arrays {W R C} _.
Arguments adapters {W R C} _.
Arguments added {W R C} _.

Section ops.
Context {W R C : Type} `{Engine W R C}.

Definition load (a : nat) : Go (Store W R C) (FiberAdapter R) :=
  λ σ, match adapters σ !! a with
       | Some x => (Returned x, σ)
       | None => (Panicked "invalid memory address or nil pointer dereference", σ)
       end.

Definition withArrays {A} (f : Arrays (Middleware W) → A * Arrays (Middleware W))
  : Go (Store W R C) A :=
  λ σ, let '(a, H) := f (arrays σ) in
       (Returned a, {| arrays := H; adapters := adapters σ; added := added σ |}).

(** [&FiberAdapter{...}]. *)
Definition new (x : FiberAdapter R) : Go (Store W R C) nat :=
  λ σ, (Returned (length (adapters σ)),
        {| arrays := arrays σ; adapters := adapters σ ++ [x];
           added := added σ |}).

(** [func (a *FiberAdapter) Group(prefix string) internal.Router]. *)
Definition Group (a : nat) (prefix : string) : Go (Store W R C) nat :=
  let* x := load a in
  let* newMws := withArrays (make None (len (Middlewares x))) in
  withArrays (λ H, ((), copy newMws (Middlewares x) H)) ;;
  new {| Router := RouterGroup prefix (Router x); Middlewares := newMws |}.

(** [func (a *FiberAdapter) Use(mw internal.Middleware)]. *)
Definition Use (a : nat) (mw : Middleware W) : Go (Store W R C) unit :=
  match mw with
  | Some _ =>
      let* x := load a in
      let* s := withArrays (append None (Middlewares x) mw) in
      modify (λ σ, {| arrays := arrays σ;
                      adapters := <[a := {| Router := Router x;
                                            Middlewares := s |}]> (adapters σ);
                      added := added σ |})
  | None => ret ()
  end.

(** The parameters [handle] collects from the Fiber context:
    [for _, name := range r.Params { params[name] = c.Params(name) }]. *)
Definition collectParams (c : C) : gmap string string :=
  match RouteParams c with
  | Some names =>
      foldl (λ params name, <[name := Params name c]> params) ∅ names
  | None => ∅
  end.

(** [for k, v := range params { ctx = context.WithValue(ctx, fiberCtxKey(k), v) }],
    over the entries in the order the range takes. *)
Definition inject (entries : list (string * string)) (ctx : Context)
  : Context :=
  foldl (λ ctx kv, WithValue ctx (fiberCtxKey kv.1) (AString kv.2)) ctx entries.

(** The handler [handle] registers with Fiber.  [order] gives the order in
    which a range over a map of parameters meets its entries. *)
Definition fiberHandler
    (order : gmap string string → list (string * string))
    (composedHandler : Handler W) : FiberHandler C :=
  λ c,
    let params := collectParams c in
    let body :=
      HTTPHandlerFunc
        (λ r, ServeHTTP composedHandler
                (WithContext r (inject (order params) (Ctx r)))) c in
    (* the deferred function: [recover()] is non-nil after a panic only *)
    match body with
    | (Returned err, c') => (Returned err, c')
    | (Panicked _, c') =>
        let '(_, c'') := SendString "Panic Detected" (Status 500 c') in
        (Returned None, c'')
    end.

(** [func (a *FiberAdapter) handle(method string, path string, h http.HandlerFunc)]. *)
Definition handle (order : gmap string string → list (string * string))
    (a : nat) (method path : string) (h : Handler W)
  : Go (Store W R C) unit :=
  let* x := load a in
  let* mws := gets (λ σ, view (Middlewares x) (arrays σ)) in
  let* composedHandler :=
    liftOutcome (wrapDown mws (len (Middlewares x)) h) in
  modify (λ σ, {| arrays := arrays σ; adapters := adapters σ;
                  added := added σ ++
                    [(Router x, method, path,
                      fiberHandler order composedHandler)] |}).

(** [func (a *FiberAdapter) Param(r *http.Request, key string) string]. *)
Definition Param (r : option Request) (key : string) : string :=
  match r with
  | None => ""
  | Some r =>
      match Value (Ctx r) (fiberCtxKey key) with
      | Some (AString val) => val
      | _ => ""
      end
  end.

Definition middlewaresOf (σ : Store W R C) (a : nat) : list (Middleware W) :=
  match adapters σ !! a with
  | Some x => view (Middlewares x) (arrays σ)
  | None => []
  end.

End ops.
End Fiber.

(** ** The Gin adapter (package [ginadapter]) *)

Module Gin.

Definition ginParamsKey : CtxKey := ginCtxKey "gin_params".

(** What the adapter uses of a [*gin.Context]. *)
Class Context (C : Type) : Type := {
  Writer :: ResponseWriter C;       (* c.Writer *)
  GetRequest : C → Request;         (* c.Request *)
  SetRequest : Request → C → C;     (* c.Request = r *)
  Next : Go C unit;                 (* c.Next() *)
  Abort : C → C;                    (* c.Abort() *)
  Self : C → nat                    (* the pointer c *)
}.
#[global] Existing Instance Writer.

Section ops.
Context {C : Type} `{Context C}.

(** Inside the function that [Use] registers, a standard handler acts on
    the local variable [called] and on the Gin context. *)
#[global] Instance frame_writer : ResponseWriter (bool * C) := {
  HeaderSet k v s := (s.1, HeaderSet k v s.2);
  HeaderGet k s := HeaderGet k s.2;
  Write b s := (s.1, Write b s.2);
  WriteHeader code s := (s.1, WriteHeader code s.2)
}.

(** [finalHandler] of [Use]. *)
Definition finalHandler : Handler (bool * C) :=
  λ r s,
    let called := true in
    let c := SetRequest r s.2 in
    match Next c with
    | (o, c') => (o, (called, c'))
    end.

(** The [gin.HandlerFunc] that
    [func (a *GinAdapter) Use(mw internal.Middleware)] registers. *)
Definition Use (mw : Middleware (bool * C)) : Go C unit :=
  λ c,
    let called := false in
    let ctx := WithValue (Ctx (GetRequest c)) ginParamsKey (APointer (Self c)) in
    match callMw mw finalHandler with
    | Panicked v => (Panicked v, c)
    | Returned h =>
        match h (WithContext (GetRequest c) ctx) (called, c) with
        | (Panicked v, (_, c')) => (Panicked v, c')
        | (Returned _, (called, c')) =>
            if negb called then (Returned (), Abort c')
            else (Returned (), c')
        end
    end.

End ops.
End Gin.

(** ** The routes of the test suite *)

Module Example.
Import Script.

(** The global middleware of [setupUniversalRoutes]. *)
Definition poweredBy : Request → Code := λ req,
  SetHeader "X-Powered-By" "Transwarp"
    (CallNext (WithContext req
                 (WithValue (Ctx req) (OtherKey "Trace") (AString "root")))
       Done).

(** The firewall of [setupUniversalRoutes]: it answers 403 itself unless the
    query is [admin=true]. *)
Definition firewall : Request → Code := λ req,
  if decide (RawQuery req = "admin=true")
  then CallNext req Done
  else WriteStatus 403 (WriteBody "bloqueado" Done).

Definition say (status : nat) (body : string) : Request → Code := λ _,
  WriteStatus status (WriteBody body Done).

Definition boom : Request → Code := λ _, Raise "boom".

(** [setupUniversalRoutes], on a new mock router: the root is at address 0,
    the groups follow in the order they are made. *)
Definition routes : list (Mock.Call (W := ResponseRecorder)) :=
  [ Mock.CallUse 0 (Some (middlewareOf poweredBy));
    Mock.CallGroup 0 "/api";                                   (* 1 *)
    Mock.CallRegister 1 "GET" "/echo/:data"
      (handlerOf (λ req, WriteBody (Mock.Param req "data") Done));
    Mock.CallGroup 1 "/admin";                                 (* 2 *)
    Mock.CallRegister 2 "GET" "/settings" (handlerOf (say 200 "static_settings"));
    Mock.CallRegister 2 "GET" "/:any" (handlerOf (say 200 "dynamic_any"));
    Mock.CallGroup 0 "/protected";                             (* 3 *)
    Mock.CallUse 3 (Some (middlewareOf firewall));
    Mock.CallRegister 3 "GET" "/dashboard" (handlerOf (say 200 "dashboard_data"));
    Mock.CallGroup 0 "/files";                                 (* 4 *)
    Mock.CallRegister 4 "GET" "/config" (handlerOf (say 200 "file_config"));
    Mock.CallRegister 4 "GET" "/:name"
      (handlerOf (λ req, WriteStatus 201
                           (WriteBody ("created_" +:+ Mock.Param req "name") Done)));
    Mock.CallHandleFunc 0 "/universal"
      (handlerOf (λ req, WriteStatus 200
                           (WriteBody ("universal_" +:+ Method req) Done))) ].

Definition universal : Mock.Store ResponseRecorder :=
  (bind Mock.NewMockRouter (λ _, Mock.setup routes) Mock.emptyStore).2.

(** Two dynamic patterns that both pass the test of the fallback loop for
    the path "/a/b/c", and a handler that panics. *)
Definition overlapping : Mock.Store ResponseRecorder :=
  (bind Mock.NewMockRouter
     (λ _, Mock.setup
             [ Mock.CallRegister 0 "GET" "/a/:x" (handlerOf (say 200 "first"));
               Mock.CallRegister 0 "GET" "/a/b/:y" (handlerOf (say 200 "second"));
               Mock.CallRegister 0 "GET" "/boom" (handlerOf boom) ])
     Mock.emptyStore).2.

(** A stand-in for Fiber, to run the adapter against: a context holds the
    request line, the parameters the router captured and the response;
    [adaptor.HTTPHandlerFunc] runs the handler on a new recorder and copies
    the response into the context when the handler returns. *)
Record SimpleCtx : Type := mkSimpleCtx {
  scMethod : string;
  scPath : string;
  scRoute : option (list string);
  scCaptured : gmap string string;
  scStatus : nat;
  scBody : string
}.

#[global] Instance simple_fiber : Fiber.Engine ResponseRecorder string SimpleCtx := {
  Fiber.RouterGroup prefix r := r +:+ prefix;
  Fiber.Status code c :=
    {| scMethod := scMethod c; scPath := scPath c; scRoute := scRoute c;
       scCaptured := scCaptured c; scStatus := code; scBody := scBody c |};
  Fiber.SendString s c :=
    (None,
     {| scMethod := scMethod c; scPath := scPath c; scRoute := scRoute c;
        scCaptured := scCaptured c; scStatus := scStatus c; scBody := s |});
  Fiber.RouteParams c := scRoute c;
  Fiber.Params name c := default "" (scCaptured c !! name);
  Fiber.HTTPHandlerFunc h c :=
    match h (NewRequest (scMethod c) (scPath c)) NewRecorder with
    | (Returned _, w) =>
        (Returned None,
         {| scMethod := scMethod c; scPath := scPath c; scRoute := scRoute c;
            scCaptured := scCaptured c; scStatus := Http.Code w;
          scBody := Body w |})
    | (Panicked v, _) => (Panicked v, c)
    end
}.

(** A stand-in for a [*gin.Context]: [Next] runs the rest of Gin's chain,
    here one handler, unless the context was aborted. *)
Record SimpleGin : Type := mkSimpleGin {
  sgRequest : Request;
  sgWriter : ResponseRecorder;
  sgAborted : bool;
  sgRest : Handler ResponseRecorder
}.

Definition sgWith (f : ResponseRecorder → ResponseRecorder) (c : SimpleGin)
  : SimpleGin :=
  {| sgRequest := sgRequest c; sgWriter := f (sgWriter c);
     sgAborted := sgAborted c; sgRest := sgRest c |}.

#[global] Instance simple_gin : Gin.Context SimpleGin := {
  Gin.Writer := {|
    HeaderSet k v := sgWith (HeaderSet k v);
    HeaderGet k c := HeaderGet k (sgWriter c);
    Write b := sgWith (Write b);
    WriteHeader code := sgWith (WriteHeader code) |};
  Gin.GetRequest := sgRequest;
  Gin.SetRequest r c :=
    {| sgRequest := r; sgWriter := sgWriter c; sgAborted := sgAborted c;
       sgRest := sgRest c |};
  Gin.Next c :=
    if sgAborted c then (Returned (), c)
    else match sgRest c (sgRequest c) (sgWriter c) with
         | (o, w) => (o, sgWith (λ _, w) c)
         end;
  Gin.Abort c :=
    {| sgRequest := sgRequest c; sgWriter := sgWriter c; sgAborted := true;
       sgRest := sgRest c |};
  Gin.Self _ := 0
}.

End Example.

(** ** Notions the properties are stated with *)

(** A middleware that does [before] on the way in and [after] on the way
    out of its continuation. *)
Definition around {W} (before after : W → W) : MiddlewareFn W :=
  λ next r w,
    match next r (before w) with
    | (Returned _, w') => (Returned (), after w')
    | (Panicked v, w') => (Panicked v, w')
    end.

(** Every byte of [s] satisfies [p]. *)
Fixpoint every (p : ascii → bool) (s : string) : bool :=
  match s with
  | EmptyString => true
  | String c t => p c && every p t
  end.

(** [s] is empty or begins with a byte outside the class [p]. *)
Definition stopsRun (p : ascii → bool) (s : string) : Prop :=
  match s with
  | EmptyString => True
  | String c _ => p c = false
  end.

(** The two passes of [transformPattern]. *)
Definition braces (g : string) : string := "{" +:+ g +:+ "}".

Definition convert (p : string) : string :=
  Regexp.ReplaceAllString Native.paramRegex braces p.

Definition clean (p : string) : string :=
  Regexp.ReplaceAllString Native.suffixCleaner (λ _, "}") p.

(** The handler [fiberHandler] hands to the adaptor: the composed handler
    on the request with the parameters injected. *)
Definition injected {W R C} `{Fiber.Engine W R C}
    (order : gmap string string → list (string * string))
    (composedHandler : Handler W) (c : C) : Handler W :=
  λ r, ServeHTTP composedHandler
         (WithContext r
            (Fiber.inject (order (Fiber.collectParams c)) (Ctx r))).

(** The stack of the owner [b], for the slices [ss] of the owners. *)
Definition stackOf {A} (H : Slices.Arrays A) (ss : list Slices.Slice)
    (b : nat) : list A :=
  match ss !! b with
  | Some s => Slices.view s H
  | None => []
  end.

(** A slice lies inside its array. *)
Definition sliceOk {A} (H : Slices.Arrays A) (s : Slices.Slice) : Prop :=
  ∃ cells, H !! Slices.arr s = Some cells
           ∧ Slices.len s ≤ Slices.cap s ∧ Slices.cap s ≤ length cells.

(** No two owners share an array. *)
Definition wfOwners {A} (H : Slices.Arrays A) (ss : list Slices.Slice) : Prop :=
  (∀ i s, ss !! i = Some s → sliceOk H s)
  ∧ (∀ i j si sj, ss !! i = Some si → ss !! j = Some sj →
       Slices.arr si = Slices.arr sj → i = j).

(** The routers own their arrays of middlewares, one each.  This holds of
    the empty store and is kept by every operation of the router. *)
Definition wf {W} (σ : Mock.Store W) : Prop :=
  wfOwners (Mock.arrays σ) (Mock.middlewares <$> Mock.routers σ).

Definition wfFiber {W R C} (σ : Fiber.Store W R C) : Prop :=
  wfOwners (Fiber.arrays σ) (Fiber.Middlewares <$> Fiber.adapters σ).

(** The middlewares a set-up code adds to the router [b] with [Use]. *)
Fixpoint usesOn {W} (b : nat) (cs : list (Mock.Call (W := W)))
  : list (Middleware W) :=
  match cs with
  | [] => []
  | Mock.CallUse m mw :: cs =>
      if decide (m = b) then mw :: usesOn b cs else usesOn b cs
  | _ :: cs => usesOn b cs
  end.

(** The run of the body of a middleware on [r] from [w] returns or panics
    without reaching a call of its continuation.  The continuation plays no
    part in that. *)
Definition aborts {W} `{ResponseWriter W} (body : Request → Script.Code)
    (r : Request) (w : W) : Prop :=
  Script.invocations (λ _, ret ()) (body r) w = 0.

(** What an aborting middleware answers by itself. *)
Definition ownResponse {W} `{ResponseWriter W} (body : Request → Script.Code)
  : Handler W :=
  λ r, Script.exec (λ _, ret ()) (body r).

(** The continuation the Gin adapter gives a middleware, without the
    variable [called]: [c.Request = r; c.Next()]. *)
Definition ginNext {C} `{Gin.Context C} : Handler C :=
  λ r c, Gin.Next (Gin.SetRequest r c).

(** ** The Chi adapter (package [chiadapter]) *)

Module Chi.

(** [regexp.MustCompile(`:([a-zA-Z0-9_]+)`)]. *)
Definition paramRegex : Regexp.Matcher :=
  Regexp.literalThenRun ":" Regexp.isWordChar.

(** [func adaptPath(path string) string]. *)
Definition adaptPath (path : string) : string :=
  Regexp.ReplaceAllString paramRegex (λ g, "{" +:+ g +:+ "}") path.

End Chi.

(** ** Path templates *)

(** A segment of a universal path template: literal text, or a named
    parameter. *)
Inductive PathSegment : Type :=
| StaticSeg (text : string)
| ParamSeg (name : string).

(** The template in the universal syntax, [/text] and [/:name]. *)
Fixpoint colonPattern (segs : list PathSegment) : string :=
  match segs with
  | [] => ""
  | StaticSeg text :: rest => "/" +:+ text +:+ colonPattern rest
  | ParamSeg name :: rest => "/:" +:+ name +:+ colonPattern rest
  end.

(** The template in the syntax of Go 1.22 and Chi, [/text] and [/{name}]. *)
Fixpoint bracePattern (segs : list PathSegment) : string :=
  match segs with
  | [] => ""
  | StaticSeg text :: rest => "/" +:+ text +:+ bracePattern rest
  | ParamSeg name :: rest => "/{" +:+ name +:+ "}" +:+ bracePattern rest
  end.

(** A byte of literal text: not a slash, a colon or a closing brace. *)
Definition plainChar (c : ascii) : bool :=
  Regexp.notSlash c && negb (Ascii.eqb c ":") && negb (Ascii.eqb c "}").

(** Literal text is made of plain bytes; a parameter name is a non-empty
    word. *)
Definition wellFormedSeg (seg : PathSegment) : Prop :=
  match seg with
  | StaticSeg text => every plainChar text = true
  | ParamSeg name => name ≠ "" ∧ every Regexp.isWordChar name = true
  end.

(** No adapter holds a nil middleware. *)
Definition nilFree {W R C} (σ : Fiber.Store W R C) : Prop :=
  ∀ a, None ∉ Fiber.middlewaresOf σ a.

(** The [init] functions of the driver files that were compiled in, each
    calling [Register], run one after the other before [main]. *)
Definition registerAll {T}
    (inits : list (Transwarp.Driver * (unit → outcome T)))
    (registry : gmap Transwarp.Driver (unit → outcome T))
  : gmap Transwarp.Driver (unit → outcome T) :=
  foldl (λ registry dc, Transwarp.Register dc.1 dc.2 registry) registry inits.

(** ** The Echo adapter (package [echoadapter]) *)

Module Echo.

(** [const paramsKey ctxKey = "params"], of the key type private to the
    package. *)
Definition paramsKey : CtxKey := OtherKey "echoadapter.ctxKey(params)".

(** What the adapter uses of a [*echo.Context]. *)
Class Context (E : Type) : Type := {
  Response :: ResponseWriter E;     (* c.Response() *)
  GetRequest : E → Request;         (* c.Request() *)
  SetRequest : Request → E → E;     (* c.SetRequest(r) *)
  Self : E → nat                    (* the pointer c *)
}.
#[global] Existing Instance Response.

(** [echo.HandlerFunc]: [func(c *echo.Context) error]; a nil error is
    [None]. *)
Definition HandlerFunc (E : Type) : Type := E → outcome (option string) * E.

Section ops.
Context {E : Type} `{Context E}.

(** Inside the function that [Use] builds, a standard handler acts on the
    local variable [nextErr] and on the Echo context. *)
#[global] Instance errFrameWriter : ResponseWriter (option string * E) := {
  HeaderSet k v s := (s.1, HeaderSet k v s.2);
  HeaderGet k s := HeaderGet k s.2;
  Write b s := (s.1, Write b s.2);
  WriteHeader code s := (s.1, WriteHeader code s.2)
}.

(** The [handler] that
    [func (a *EchoAdapter) handle(method, path string, h http.HandlerFunc)]
    adds to the router. *)
Definition handler (h : Handler E) : HandlerFunc E :=
  λ c,
    let ctx := WithValue (Ctx (GetRequest c)) paramsKey (APointer (Self c)) in
    match h (WithContext (GetRequest c) ctx) c with
    | (Returned _, c') => (Returned None, c')
    | (Panicked v, c') => (Panicked v, c')
    end.

(** [finalHandler] of [Use]: [c.SetRequest(r); nextErr = next(c)]. *)
Definition finalHandler (next : HandlerFunc E) : Handler (option string * E) :=
  λ r s,
    let c := SetRequest r s.2 in
    match next c with
    | (Returned err, c') => (Returned (), (err, c'))
    | (Panicked v, c') => (Panicked v, (s.1, c'))
    end.

(** [mwFunc] of [func (a *EchoAdapter) Use(mw internal.Middleware)]: the
    Echo middleware handed to [a.group.Use] or [a.Instance.Use]. *)
Definition mwFunc (mw : Middleware (option string * E))
    (next : HandlerFunc E) : HandlerFunc E :=
  λ c,
    let nextErr : option string := None in
    let ctx := WithValue (Ctx (GetRequest c)) paramsKey (APointer (Self c)) in
    match callMw mw (finalHandler next) with
    | Panicked v => (Panicked v, c)
    | Returned h =>
        match ServeHTTP h (WithContext (GetRequest c) ctx) (nextErr, c) with
        | (Panicked v, (_, c')) => (Panicked v, c')
        | (Returned _, (nextErr, c')) => (Returned nextErr, c')
        end
    end.

End ops.
End Echo.

(** The continuation the Echo adapter gives a middleware, without the
    variable [nextErr]: [c.SetRequest(r); next(c)]. *)
Definition echoNext {E} `{Echo.Context E} (next : Echo.HandlerFunc E)
  : Handler E :=
  λ r c, match next (Echo.SetRequest r c) with
         | (Returned _, c') => (Returned (), c')
         | (Panicked v, c') => (Panicked v, c')
         end.

(** The error the last call of [next] returned in the run of a body from
    the context [c], or [err] when the run does not come to call it. *)
Fixpoint lastError {E} `{Echo.Context E} (next : Echo.HandlerFunc E)
    (code : Script.Code) (err : option string) (c : E) : option string :=
  match code with
  | Script.Done | Script.Raise _ => err
  | Script.SetHeader k v rest => lastError next rest err (HeaderSet k v c)
  | Script.GetHeader k rest => lastError next (rest (HeaderGet k c)) err c
  | Script.WriteBody b rest => lastError next rest err (Write b c)
  | Script.WriteStatus code rest => lastError next rest err (WriteHeader code c)
  | Script.CallNext r rest =>
      match next (Echo.SetRequest r c) with
      | (Returned e, c') => lastError next rest e c'
      | (Panicked _, _) => err
      end
  end.

(** An Echo handler that returns no error: it returns nil or panics. *)
Definition neverErrs {E} (f : Echo.HandlerFunc E) : Prop :=
  ∀ c e c', f c = (Returned e, c') → e = None.

(** ** Stand-ins to run the further adapters against *)

Module Fixtures.

(** A stand-in for a [*echo.Context]: the request and the response. *)
Record SimpleEcho : Type := mkSimpleEcho {
  seRequest : Request;
  seWriter : ResponseRecorder
}.

Definition seWith (f : ResponseRecorder → ResponseRecorder) (c : SimpleEcho)
  : SimpleEcho :=
  {| seRequest := seRequest c; seWriter := f (seWriter c) |}.

#[global] Instance simple_echo : Echo.Context SimpleEcho := {
  Echo.Response := {|
    HeaderSet k v := seWith (HeaderSet k v);
    HeaderGet k c := HeaderGet k (seWriter c);
    Write b := seWith (Write b);
    WriteHeader code := seWith (WriteHeader code) |};
  Echo.GetRequest := seRequest;
  Echo.SetRequest r c := {| seRequest := r; seWriter := seWriter c |};
  Echo.Self _ := 0
}.

(** A Fiber adapter on an application without middlewares. *)
Definition fiberRoot : Fiber.Store ResponseRecorder string Example.SimpleCtx :=
  {| Fiber.arrays := [[]];
     Fiber.adapters :=
       [{| Fiber.Router := "";
           Fiber.Middlewares := {| Slices.arr := 0; Slices.len := 0;
                                   Slices.cap := 0 |} |}];
     Fiber.added := [] |}.

(** A new mock router, at address 0. *)
Definition mockRoot : Mock.Store ResponseRecorder :=
  (Mock.NewMockRouter Mock.emptyStore).2.

End Fixtures.

(** * Properties *)

(** ** The wrapping loop is the right fold *)

Section onion.
Context {W : Type}.

Lemma wrapDown_app (pre suf : list (Middleware W)) (final : Handler W) :
  wrapDown (pre ++ suf) (length pre) final = wrapDown pre (length pre) final.
Proof.
  revert suf final.
  induction pre as [|m pre IH] using rev_ind; intros suf final; [done|].
  rewrite length_app, Nat.add_1_r. simpl.
  rewrite <- (assoc_L (++) pre [m] suf).
  rewrite !(lookup_app_r pre), Nat.sub_diag by lia. simpl.
  destruct (callMw m final) as [g|v]; simpl; [|done].
  by rewrite (IH (m :: suf)), <- (IH [m]).
Qed.

Lemma wrapDown_snoc (pre : list (Middleware W)) m (final : Handler W) :
  wrapDown (pre ++ [m]) (S (length pre)) final
  = obind (callMw m final) (wrapDown pre (length pre)).
Proof.
  simpl. rewrite lookup_app_r, Nat.sub_diag by lia. simpl.
  destruct (callMw m final); simpl; [|done]. apply wrapDown_app.
Qed.

Lemma onion_snoc (pre : list (Middleware W)) m (h : Handler W) :
  onion (pre ++ [m]) h
  = obind (callMw m h) (onion pre).
Proof.
  unfold onion. rewrite foldr_app. simpl.
  destruct (callMw m h) as [g|v]; simpl; [done|].
  induction pre as [|m' pre IH]; simpl; [done|]. by rewrite IH.
Qed.

Lemma wrapDown_onion (mws : list (Middleware W)) (h : Handler W) :
  wrapDown mws (length mws) h = onion mws h.
Proof.
  revert h. induction mws as [|m pre IH] using rev_ind; intros h; [done|].
  rewrite length_app, Nat.add_1_r, wrapDown_snoc, onion_snoc.
  destruct (callMw m h); simpl; [apply IH|done].
Qed.

Lemma onion_Some (fs : list (MiddlewareFn W)) (h : Handler W) :
  onion (Some <$> fs) h = Returned (foldr (λ f acc, f acc) h fs).
Proof.
  induction fs as [|f fs IH]; [done|].
  rewrite fmap_cons. unfold onion in *. cbn [foldr]. by rewrite IH.
Qed.

Lemma onion_app (outer inner : list (Middleware W)) (h : Handler W) :
  onion (outer ++ inner) h = obind (onion inner h) (onion outer).
Proof.
  unfold onion. rewrite foldr_app.
  destruct (foldr _ (Returned h) inner) as [g|v]; simpl; [done|].
  induction outer as [|m outer IH]; simpl; [done|]. by rewrite IH.
Qed.

End onion.

(** ** Chain *)

Section chain.
Context {W : Type} `{ResponseWriter W}.

Lemma wrapDownFunc_wrapDown (mws : list (Middleware W)) n (h : Handler W) :
  Native.wrapDownFunc mws n h = wrapDown mws n h.
Proof.
  revert h. induction n as [|n IH]; intros h; [done|]. simpl.
  destruct (mws !! n) as [mw|]; [|done].
  destruct (callMw mw h) as [g|v]; simpl; [|done]. apply IH.
Qed.

Lemma Chain_onion (h : Handler W) (mws : list (Middleware W)) :
  Transwarp.Chain h mws = onion mws h.
Proof.
  unfold Transwarp.Chain. case_decide as Hlen.
  - by destruct mws.
  - rewrite wrapDown_onion. by destruct (onion mws h).
Qed.

(** C4: Chain(h, m1, ..., mn) is the right fold m1(m2(...mn(h)...)), so the
    first middleware is the outermost layer: it receives the rest of the
    chain as its continuation, its code before the continuation runs first
    and its code after it runs last; with no middleware Chain returns h
    itself.  The loops of MockRouter.register and of
    NativeAdapter.registerToMux build the same fold. *)
Theorem Chain_is_right_fold (h : Handler W) (mws : list (Middleware W)) :
  Transwarp.Chain h mws = onion mws h
  ∧ Transwarp.Chain h [] = Returned h
  ∧ (∀ fs : list (MiddlewareFn W),
       Transwarp.Chain h (Some <$> fs) = Returned (foldr (λ f acc, f acc) h fs))
  ∧ (∀ (m1 : MiddlewareFn W) rest,
       Transwarp.Chain h (Some m1 :: rest)
       = obind (Transwarp.Chain h rest) (λ inner, Returned (m1 inner)))
  ∧ (∀ before after rest inner r w,
       Transwarp.Chain h rest = Returned inner →
       ∃ g, Transwarp.Chain h (Some (around before after) :: rest) = Returned g
            ∧ g r w = match inner r (before w) with
                      | (Returned _, w') => (Returned (), after w')
                      | (Panicked v, w') => (Panicked v, w')
                      end)
  ∧ Native.registerToMux mws h = onion mws h
  ∧ wrapDown mws (length mws) h = onion mws h.
Proof.
  split_and!.
  - apply Chain_onion.
  - done.
  - intros fs. rewrite Chain_onion. apply onion_Some.
  - intros m1 rest. by rewrite !Chain_onion.
  - intros before after rest inner r w Hrest.
    exists (around before after inner). split; [|done].
    rewrite Chain_onion in *. unfold onion in *. simpl. by rewrite Hrest.
  - unfold Native.registerToMux.
    rewrite wrapDownFunc_wrapDown. apply wrapDown_onion.
  - apply wrapDown_onion.
Qed.

End chain.

(** On the recorder: the layers open in the order of the list and close in
    the reverse order, around the handler. *)
Example Chain_trace :
  match Transwarp.Chain
          (Script.handlerOf (λ _, Script.WriteBody "h" Script.Done))
          [Some (around (Write "<a") (Write "a>"));
           Some (around (Write "<b") (Write "b>"));
           Some (around (Write "<c") (Write "c>"))] with
  | Returned g => Body (g (NewRequest "GET" "/") NewRecorder).2
  | Panicked _ => ""
  end = "<a<b<chc>b>a>".
Proof. reflexivity. Qed.

Lemma Chain_is_right_fold_witness :
  ∃ g, Transwarp.Chain
         (Script.handlerOf (λ _, Script.WriteBody "h" Script.Done))
         [Some (around (Write "<a") (Write "a>"))] = Returned g
       ∧ Body (g (NewRequest "GET" "/") NewRecorder).2 = "<aha>".
Proof.
  destruct (Chain_is_right_fold
              (Script.handlerOf (λ _, Script.WriteBody "h" Script.Done)) [])
    as (_ & _ & _ & _ & Haround & _).
  destruct (Haround (Write "<a") (Write "a>") []
              (Script.handlerOf (λ _, Script.WriteBody "h" Script.Done))
              (NewRequest "GET" "/") NewRecorder eq_refl) as (g & Hg & Hrun).
  exists g. split; [exact Hg|]. rewrite Hrun. reflexivity.
Defined.

(** ** The registry of drivers *)

Section registry.
Context {T : Type}.
Import Transwarp.

(** C9: New panics with a message that names the driver when the driver was
    not registered, and never falls back to another constructor; for a
    registered driver it returns what the registered constructor returns. *)
Theorem New_fails_loudly_or_constructs
    (registry : gmap Driver (routerConstructor T)) (d : Driver) :
  (registry !! d = None →
     New {| cfgDriver := d |} registry = Panicked (driverNotAvailable d)
     ∧ driverNotAvailable d
       = "Transwarp Error: Driver '" +:+ d +:+
         "' is not available. Did you forget to compile with '-tags " +:+
         d +:+ "'?")
  ∧ (∀ c, registry !! d = Some c → New {| cfgDriver := d |} registry = c ())
  ∧ (∀ c, New {| cfgDriver := d |} (Register d c registry) = c ())
  ∧ (∀ d' c, d' ≠ d →
       New {| cfgDriver := d |} (Register d' c registry)
       = New {| cfgDriver := d |} registry).
Proof.
  unfold New, Register. cbn [cfgDriver]. split_and!.
  - intros Hnone. by rewrite Hnone.
  - intros c Hsome. by rewrite Hsome.
  - intros c. by rewrite lookup_insert_eq.
  - intros d' c Hne. by rewrite lookup_insert_ne.
Qed.

End registry.

Lemma New_fails_loudly_or_constructs_witness :
  Transwarp.New (T := nat) {| Transwarp.cfgDriver := Transwarp.DriverFiber |}
    (Transwarp.Register Transwarp.DriverGin (λ _, Returned 1)
       Transwarp.emptyRegistry)
  = Panicked (Transwarp.driverNotAvailable "fiber")
  ∧ Transwarp.New (T := nat) {| Transwarp.cfgDriver := Transwarp.DriverGin |}
      (Transwarp.Register Transwarp.DriverGin (λ _, Returned 1)
         Transwarp.emptyRegistry)
    = Returned 1.
Proof.
  destruct (New_fails_loudly_or_constructs (T := nat)
              (Transwarp.Register Transwarp.DriverGin (λ _, Returned 1)
                 Transwarp.emptyRegistry) Transwarp.DriverFiber)
    as (Hmissing & _).
  destruct (New_fails_loudly_or_constructs (T := nat)
              (Transwarp.Register Transwarp.DriverGin (λ _, Returned 1)
                 Transwarp.emptyRegistry) Transwarp.DriverGin)
    as (_ & Hfound & _).
  split.
  - apply Hmissing. reflexivity.
  - apply (Hfound (λ _, Returned 1)). reflexivity.
Defined.

(** ** Strings *)

Section strings.
Import Strings.

Lemma app_cons c (s t : string) : String c s +:+ t = String c (s +:+ t).
Proof. reflexivity. Qed.

Lemma app_empty_l (s : string) : "" +:+ s = s.
Proof. reflexivity. Qed.

Lemma app_empty_r (s : string) : s +:+ "" = s.
Proof. induction s as [|c s IH]; [done|]. by rewrite app_cons, IH. Qed.

Lemma app_assoc' (s t u : string) : (s +:+ t) +:+ u = s +:+ t +:+ u.
Proof. induction s as [|c s IH]; [done|]. by rewrite !app_cons, IH. Qed.

Lemma length_app' (s t : string) :
  String.length (s +:+ t) = String.length s + String.length t.
Proof. induction s as [|c s IH]; [done|]. rewrite app_cons. simpl. by rewrite IH. Qed.

Lemma substring_all (s : string) : substring 0 (String.length s) s = s.
Proof. induction s as [|c s IH]; [done|]. simpl. by rewrite IH. Qed.

Lemma substring_app_l (s t : string) :
  substring 0 (String.length s) (s +:+ t) = s.
Proof.
  induction s as [|c s IH]; [by destruct t|]. rewrite app_cons. simpl.
  by rewrite IH.
Qed.

Lemma substring_app_r (s t : string) :
  substring (String.length s) (String.length t) (s +:+ t) = t.
Proof.
  induction s as [|c s IH]; [apply substring_all|]. by rewrite app_cons.
Qed.

Lemma HasSuffix_app (s suffix : string) : HasSuffix (s +:+ suffix) suffix = true.
Proof.
  unfold HasSuffix. rewrite length_app'.
  replace (String.length s + String.length suffix - String.length suffix)
    with (String.length s) by lia.
  rewrite substring_app_r, String.eqb_refl, andb_true_r.
  apply bool_decide_eq_true. lia.
Qed.

Lemma TrimSuffix_app (s suffix : string) : TrimSuffix (s +:+ suffix) suffix = s.
Proof.
  unfold TrimSuffix. rewrite HasSuffix_app, length_app'.
  replace (String.length s + String.length suffix - String.length suffix)
    with (String.length s) by lia.
  apply substring_app_l.
Qed.

Lemma TrimSuffix_id (s suffix : string) :
  HasSuffix s suffix = false → TrimSuffix s suffix = s.
Proof. unfold TrimSuffix. by intros ->. Qed.

Lemma HasPrefix_slash_inv (s : string) :
  HasPrefix s "/" = true → s = "/" +:+ TrimPrefix s "/".
Proof.
  unfold TrimPrefix. intros Hp. rewrite Hp.
  apply prefix_correct in Hp.
  destruct s as [|c s]; [done|]. simpl in Hp.
  assert (c = "/"%char) as -> by (destruct s; congruence).
  rewrite app_cons, app_empty_l. f_equal.
  change (substring 0 (String.length s - 0) s = s) || simpl.
  rewrite ?Nat.sub_0_r. by rewrite substring_all.
Qed.

Lemma TrimPrefix_id (s pre : string) :
  HasPrefix s pre = false → TrimPrefix s pre = s.
Proof. unfold TrimPrefix. by intros ->. Qed.

Lemma HasPrefix_slash_cons (s : string) : HasPrefix ("/" +:+ s) "/" = true.
Proof. apply prefix_correct. by destruct s. Qed.

End strings.

(** ** Groups and their prefixes *)

Section prefixes.
Context {W : Type}.
Import Strings Slices.

Lemma Mock_Group_run (σ : Mock.Store W) m path r :
  Mock.routers σ !! m = Some r →
  Mock.Group m path σ
  = (Returned (length (Mock.routers σ)),
     {| Mock.arrays :=
          copy {| arr := length (Mock.arrays σ);
                  len := len (Mock.middlewares r);
                  cap := len (Mock.middlewares r) |}
               (Mock.middlewares r)
               (Mock.arrays σ ++ [replicate (len (Mock.middlewares r)) None]);
        Mock.tables := Mock.tables σ;
        Mock.routers :=
          Mock.routers σ ++
          [{| Mock.Handlers := Mock.Handlers r;
              Mock.prefix := Mock.prefix r +:+ path;
              Mock.middlewares :=
                {| arr := length (Mock.arrays σ);
                   len := len (Mock.middlewares r);
                   cap := len (Mock.middlewares r) |} |}] |}).
Proof.
  intros Hm. unfold Mock.Group, bind, Mock.load, Mock.withArrays, Mock.new, make.
  rewrite Hm. reflexivity.
Qed.

Lemma Mock_Group_prefix (σ : Mock.Store W) m path r :
  Mock.routers σ !! m = Some r →
  ∃ σ' c, Mock.Group m path σ = (Returned c, σ')
          ∧ Mock.prefixOf σ' c = Mock.prefix r +:+ path.
Proof.
  intros Hm. eexists _, _. split; [by apply Mock_Group_run|].
  unfold Mock.prefixOf. cbn [Mock.routers].
  by rewrite lookup_app_r, Nat.sub_diag by lia.
Qed.

Lemma joinPath_joinWithOneSlash (prefix path : string) :
  prefix ≠ "" → path ≠ "" → path ≠ "/" →
  Native.joinPath prefix path = joinWithOneSlash prefix path.
Proof.
  intros Hp Hs1 Hs2. unfold Native.joinPath, joinWithOneSlash.
  rewrite decide_False by done. rewrite decide_False by tauto.
  f_equal. destruct (HasPrefix path "/") eqn:Hpre.
  - by apply HasPrefix_slash_inv.
  - by rewrite TrimPrefix_id.
Qed.

(** C8, as the code has it: MockRouter.Group appends the sub-prefix to the
    parent's prefix as it is written, adding and removing no slash, so
    nested groups concatenate left to right with the separators the caller
    wrote.  NativeAdapter.joinPath joins a non-empty prefix and a path other
    than the empty one and "/" with exactly one slash, whether or not the
    prefix ends with a slash and the path begins with one; an empty prefix
    gives the path unchanged, and an empty path or "/" gives a non-empty
    prefix unchanged. *)
Theorem Group_prefix_joining :
  (∀ (σ : Mock.Store W) m path r,
     Mock.routers σ !! m = Some r →
     ∃ σ' c, Mock.Group m path σ = (Returned c, σ')
             ∧ Mock.prefixOf σ' c = Mock.prefixOf σ m +:+ path)
  ∧ (∀ a b : string,
       a ≠ "" → b ≠ "" → HasSuffix a "/" = false → HasPrefix b "/" = false →
       Native.joinPath a b = a +:+ "/" +:+ b
       ∧ Native.joinPath (a +:+ "/") b = a +:+ "/" +:+ b
       ∧ Native.joinPath a ("/" +:+ b) = a +:+ "/" +:+ b
       ∧ Native.joinPath (a +:+ "/") ("/" +:+ b) = a +:+ "/" +:+ b)
  ∧ (∀ prefix path : string,
       prefix ≠ "" → path ≠ "" → path ≠ "/" →
       Native.joinPath prefix path = joinWithOneSlash prefix path)
  ∧ (∀ path : string, Native.joinPath "" path = path)
  ∧ (∀ prefix : string,
       prefix ≠ "" →
       Native.joinPath prefix "" = prefix ∧ Native.joinPath prefix "/" = prefix)
  ∧ (∀ (a : Native.NativeAdapter) p (H : Arrays (Middleware W)),
       Native.prefix (Native.Group a p H).1 = Native.joinPath (Native.prefix a) p).
Proof.
  split_and!.
  - intros σ m path r Hm.
    destruct (Mock_Group_prefix σ m path r Hm) as (σ' & c & Hrun & Hpre).
    exists σ', c. split; [done|]. unfold Mock.prefixOf at 2. by rewrite Hm.
  - intros a b Ha Hb Hsuf Hpre.
    assert (a +:+ "/" ≠ "") by (by destruct a).
    assert ("/" +:+ b ≠ "/") by (destruct b; [done|]; discriminate).
    assert (b ≠ "/") by (intros ->; vm_compute in Hpre; discriminate Hpre).
    rewrite !joinPath_joinWithOneSlash by done.
    unfold joinWithOneSlash.
    rewrite (TrimSuffix_app a "/"), (TrimSuffix_id a) by done.
    rewrite (TrimPrefix_id b) by done.
    assert (TrimPrefix ("/" +:+ b) "/" = b) as ->; [|done].
    apply (inj (String.app "/")). symmetry.
    apply HasPrefix_slash_inv, HasPrefix_slash_cons.
  - apply joinPath_joinWithOneSlash.
  - intros path. unfold Native.joinPath. by rewrite decide_True.
  - intros prefix Hne. unfold Native.joinPath.
    rewrite !(decide_False (P := prefix = "")) by done.
    split; (rewrite decide_True by (by left + by right)); done.
  - intros a p H. unfold Native.Group. simpl. done.
Qed.

End prefixes.

(** C8, as it is stated, fails on the mock router: the child of the group
    "/api" for the sub-prefix "admin" has the prefix "/apiadmin", with no
    separating slash, and the child of "/api/" for "/admin" has two. *)
Lemma Group_prefix_counterexample :
  ¬ (∀ (σ σ' : Mock.Store ResponseRecorder) m path c,
       Mock.Group m path σ = (Returned c, σ') →
       Mock.prefixOf σ' c = joinWithOneSlash (Mock.prefixOf σ m) path).
Proof.
  intros Hclaim.
  pose (σ1 := (Mock.Group 0 "/api"
                 (Mock.NewMockRouter (W := ResponseRecorder)
                    Mock.emptyStore).2).2).
  assert (Mock.Group 1 "admin" σ1
          = (Returned 2, (Mock.Group 1 "admin" σ1).2)) as Hrun
    by (vm_compute; reflexivity).
  apply Hclaim in Hrun. vm_compute in Hrun. discriminate Hrun.
Qed.

Lemma Group_prefix_joining_witness :
  Native.joinPath "/api" "admin" = "/api/admin"
  ∧ Native.joinPath "/api/" "/admin" = "/api/admin".
Proof.
  destruct (Group_prefix_joining (W := ResponseRecorder))
    as (_ & Hjoin & _).
  destruct (Hjoin "/api" "admin") as (H1 & _ & _ & H4);
    [done | done | reflexivity | reflexivity |].
  split; [exact H1 | exact H4].
Defined.

(** ** The rewriting of patterns by the native adapter *)

Section patterns.
Import Strings Regexp.

Lemma spanWhile_length p s : String.length (spanWhile p s) ≤ String.length s.
Proof.
  induction s as [|c s IH]; simpl; [lia|]. destruct (p c); simpl; lia.
Qed.

Lemma spanWhile_app_stop p s t :
  stopsRun p t → spanWhile p (s +:+ t) = spanWhile p s.
Proof.
  intros Ht. induction s as [|c s IH].
  - rewrite app_empty_l. destruct t as [|d t]; [done|]. simpl in *. by rewrite Ht.
  - rewrite app_cons. simpl. by rewrite IH.
Qed.

Lemma spanWhile_every p s t :
  every p s = true → stopsRun p t → spanWhile p (s +:+ t) = s.
Proof.
  intros Hs Ht. rewrite spanWhile_app_stop by done.
  induction s as [|c s IH]; [done|]. simpl in *.
  apply andb_true_iff in Hs as [-> Hs]. by rewrite IH.
Qed.

(** A match of [literalThenRun] lies inside the text it starts in, and does
    not look behind a byte that stops its run. *)
Lemma literalThenRun_bounded c1 class s g n :
  literalThenRun c1 class s = Some (g, n) → 1 ≤ n ≤ String.length s.
Proof.
  destruct s as [|c s]; [done|]. simpl.
  destruct (Ascii.eqb c c1); [|done].
  pose proof (spanWhile_length class s).
  destruct (spanWhile class s) eqn:Hrun; [done|].
  intros [= <- <-]. simpl in *. lia.
Qed.

Lemma literalThenRun_local c1 class s t :
  s ≠ "" → stopsRun class t →
  literalThenRun c1 class (s +:+ t) = literalThenRun c1 class s.
Proof.
  intros Hs Ht. destruct s as [|c s]; [done|]. rewrite app_cons. simpl.
  by rewrite spanWhile_app_stop.
Qed.

Section replace.
Context (m : Matcher) (repl : string → string).
Context (m_bounded : ∀ s g n, m s = Some (g, n) → 1 ≤ n ≤ String.length s).

(** The scan of a text splits at a place no match looks behind. *)
Lemma replaceAllFrom_app (s t : string) skip :
  skip ≤ String.length s →
  (∀ q, q ≠ "" → m (q +:+ t) = m q) →
  replaceAllFrom m repl skip (s +:+ t)
  = replaceAllFrom m repl skip s +:+ replaceAllFrom m repl 0 t.
Proof.
  intros Hskip Hlocal. revert skip Hskip.
  induction s as [|c s IH]; intros skip Hskip.
  - simpl in Hskip. assert (skip = 0) as -> by lia. done.
  - rewrite app_cons. simpl. destruct skip as [|k].
    + rewrite <- app_cons, Hlocal by done.
      destruct (m (String c s)) as [[g n]|] eqn:Hm.
      * apply m_bounded in Hm. simpl in Hm.
        rewrite IH by lia. by rewrite app_assoc'.
      * rewrite IH by lia. done.
    + simpl in Hskip. apply IH. lia.
Qed.

Lemma replaceAllFrom_cons c (t : string) :
  replaceAllFrom m repl 0 (String c t)
  = match m (String c t) with
    | Some (group, len) => repl group +:+ replaceAllFrom m repl (len - 1) t
    | None => String c (replaceAllFrom m repl 0 t)
    end.
Proof. reflexivity. Qed.

(** Passing the rest of a match. *)
Lemma replaceAllFrom_skip (s t : string) :
  replaceAllFrom m repl (String.length s) (s +:+ t)
  = replaceAllFrom m repl 0 t.
Proof.
  induction s as [|c s IH]; [done|]. rewrite app_cons. simpl. apply IH.
Qed.

Lemma replaceAllFrom_skip_all (s : string) :
  replaceAllFrom m repl (String.length s) s = "".
Proof.
  rewrite <- (app_empty_r s) at 2. by rewrite replaceAllFrom_skip.
Qed.

End replace.

Lemma paramRegex_bounded s g n :
  Native.paramRegex s = Some (g, n) → 1 ≤ n ≤ String.length s.
Proof. apply literalThenRun_bounded. Qed.

Lemma suffixCleaner_bounded s g n :
  Native.suffixCleaner s = Some (g, n) → 1 ≤ n ≤ String.length s.
Proof. apply literalThenRun_bounded. Qed.

Lemma convert_app (s t : string) :
  stopsRun isWordChar t → convert (s +:+ t) = convert s +:+ convert t.
Proof.
  intros Ht. unfold convert, ReplaceAllString.
  apply replaceAllFrom_app; [apply paramRegex_bounded | simpl; lia |].
  intros q Hq. by apply literalThenRun_local.
Qed.

Lemma clean_app (s t : string) :
  stopsRun notSlash t → clean (s +:+ t) = clean s +:+ clean t.
Proof.
  intros Ht. unfold clean, ReplaceAllString.
  apply replaceAllFrom_app; [apply suffixCleaner_bounded | simpl; lia |].
  intros q Hq. by apply literalThenRun_local.
Qed.

(** Without a closing brace the cleaner finds nothing to do, so the test
    [strings.Contains(converted, "}")] only saves the scan. *)
Lemma clean_no_brace (s : string) : Contains s "}" = false → clean s = s.
Proof.
  unfold clean, ReplaceAllString. induction s as [|c s IH]; [done|].
  intros Hc.
  change (String.prefix "}" (String c s) || Contains s "}" = false) in Hc.
  apply orb_false_iff in Hc as [Hhead Hc].
  cbn [replaceAllFrom Native.suffixCleaner literalThenRun].
  destruct (Ascii.eqb c "}") eqn:Heq.
  - apply Ascii.eqb_eq in Heq as ->.
    assert (String.prefix "}" (String "}" s) = true) as Hp
      by (apply prefix_correct; by destruct s).
    congruence.
  - by rewrite IH.
Qed.

Lemma transformPattern_clean_convert (p : string) :
  Native.transformPattern p = clean (convert p).
Proof.
  change (Native.transformPattern p)
    with (if Contains (convert p) "}" then clean (convert p) else convert p).
  destruct (Contains (convert p) "}") eqn:Hc; [done|].
  by rewrite clean_no_brace.
Qed.

Lemma every_app p (s t : string) :
  every p (s +:+ t) = every p s && every p t.
Proof.
  induction s as [|c s IH]; [done|]. rewrite app_cons. simpl.
  by rewrite IH, andb_assoc.
Qed.

Lemma every_impl (p q : ascii → bool) (s : string) :
  (∀ c, p c = true → q c = true) → every p s = true → every q s = true.
Proof.
  intros Hpq. induction s as [|c s IH]; [done|]. simpl.
  intros [Hc Hs]%andb_true_iff. by rewrite (Hpq c Hc), IH.
Qed.

Lemma every_spanWhile p s : every p (spanWhile p s) = true.
Proof.
  induction s as [|c s IH]; [done|]. simpl.
  destruct (p c) eqn:Hc; [|done]. simpl. by rewrite Hc, IH.
Qed.

Lemma spanWhile_all p s : every p s = true → spanWhile p s = s.
Proof.
  intros Hs. rewrite <- (app_empty_r s) at 1. by apply spanWhile_every.
Qed.

Lemma isWordChar_not_special c :
  isWordChar c = true →
  notSlash c = true ∧ Ascii.eqb c "}" = false ∧ Ascii.eqb c ":" = false.
Proof.
  intros Hc. split_and!.
  - unfold notSlash. destruct (Ascii.eqb c "/") eqn:Heq; [|done].
    apply Ascii.eqb_eq in Heq as ->. by vm_compute in Hc.
  - destruct (Ascii.eqb c "}") eqn:Heq; [|done].
    apply Ascii.eqb_eq in Heq as ->. by vm_compute in Hc.
  - destruct (Ascii.eqb c ":") eqn:Heq; [|done].
    apply Ascii.eqb_eq in Heq as ->. by vm_compute in Hc.
Qed.

Lemma stopsRun_slash (t : string) :
  stopsRun notSlash t → stopsRun isWordChar t.
Proof.
  destruct t as [|c t]; [done|]. simpl. unfold notSlash.
  intros Hc. apply negb_false_iff, Ascii.eqb_eq in Hc as ->. done.
Qed.

Lemma convert_cons_other c (s : string) :
  Ascii.eqb c ":" = false → convert (String c s) = String c (convert s).
Proof.
  intros Hc. unfold convert, ReplaceAllString.
  cbn [replaceAllFrom Native.paramRegex literalThenRun]. by rewrite Hc.
Qed.

Lemma clean_cons_other c (s : string) :
  Ascii.eqb c "}" = false → clean (String c s) = String c (clean s).
Proof.
  intros Hc. unfold clean, ReplaceAllString.
  cbn [replaceAllFrom Native.suffixCleaner literalThenRun]. by rewrite Hc.
Qed.

(** A parameter [:name] becomes [{name}]. *)
Lemma convert_param (name t : string) :
  name ≠ "" → every isWordChar name = true → stopsRun isWordChar t →
  convert (String ":" (name +:+ t)) = "{" +:+ name +:+ "}" +:+ convert t.
Proof.
  intros Hne Hname Ht. unfold convert, ReplaceAllString.
  cbn [replaceAllFrom Native.paramRegex literalThenRun].
  rewrite Ascii.eqb_refl, spanWhile_every by done.
  destruct name as [|c name']; [done|].
  set (nm := String c name').
  rewrite Nat.sub_succ, Nat.sub_0_r, replaceAllFrom_skip.
  unfold braces. by rewrite !app_assoc'.
Qed.

Lemma convert_stops (t : string) :
  stopsRun notSlash t → stopsRun notSlash (convert t).
Proof.
  destruct t as [|c t]; [done|]. intros Hc.
  simpl in Hc. unfold notSlash in Hc.
  apply negb_false_iff, Ascii.eqb_eq in Hc as ->.
  by rewrite convert_cons_other.
Qed.

Lemma every_notSlash_convert (s : string) skip :
  every notSlash s = true →
  every notSlash (replaceAllFrom Native.paramRegex braces skip s) = true.
Proof.
  revert skip. induction s as [|c s IH]; intros skip; [done|].
  intros Hcs. simpl in Hcs. apply andb_true_iff in Hcs as [Hc Hs].
  destruct skip as [|k]; [|by apply IH].
  rewrite replaceAllFrom_cons.
  destruct (Native.paramRegex (String c s)) as [[g n]|] eqn:Hm.
  - rewrite every_app, IH, andb_true_r by done.
    revert Hm. cbn [Native.paramRegex literalThenRun].
    destruct (Ascii.eqb c ":"); [|done].
    pose proof (every_spanWhile isWordChar s) as Hrun.
    destruct (spanWhile isWordChar s) eqn:Hspan; [done|].
    intros [= <- _]. unfold braces.
    rewrite !every_app, andb_true_r.
    apply andb_true_iff. split; [done|].
    apply (every_impl isWordChar); [|done].
    intros d Hd. by apply isWordChar_not_special.
  - simpl. by rewrite Hc, IH.
Qed.

(** Behind the closing brace of a parameter the cleaner deletes all that
    is left of the segment. *)
Lemma clean_param (name lit : string) :
  every isWordChar name = true → every notSlash lit = true →
  clean ("{" +:+ name +:+ "}" +:+ lit) = "{" +:+ name +:+ "}".
Proof.
  intros Hname Hlit.
  change ("{" +:+ name +:+ "}" +:+ lit) with (String "{" (name +:+ "}" +:+ lit)).
  change ("{" +:+ name +:+ "}") with (String "{" (name +:+ "}")).
  rewrite clean_cons_other by done. f_equal.
  induction name as [|c name IH].
  - rewrite !app_empty_l.
    change ("}" +:+ lit) with (String "}" lit).
    unfold clean, ReplaceAllString.
    cbn [replaceAllFrom Native.suffixCleaner literalThenRun].
    rewrite Ascii.eqb_refl, spanWhile_all by done.
    destruct lit as [|d lit']; [done|].
    set (l := String d lit').
    rewrite Nat.sub_succ, Nat.sub_0_r, replaceAllFrom_skip_all. done.
  - simpl in Hname. apply andb_true_iff in Hname as [Hc Hname].
    rewrite !(app_cons c name).
    rewrite clean_cons_other by (by apply isWordChar_not_special).
    by rewrite IH.
Qed.

(** C10: when a parameter segment [:name] is followed in its segment by
    literal text [lit] (text without a slash that does not continue the
    name), transformPattern deletes that text: the pattern is rewritten as
    if the segment were [:name] alone, with [{name}] in its place, as for
    "/v1/product/:id.json", which is registered as "/v1/product/{id}". *)
Theorem transformPattern_drops_literal_suffix (p name lit rest : string) :
  name ≠ "" → every isWordChar name = true →
  every notSlash lit = true → stopsRun isWordChar lit →
  stopsRun notSlash rest →
  Native.transformPattern (p +:+ "/:" +:+ name +:+ lit +:+ rest)
  = Native.transformPattern p +:+ "/{" +:+ name +:+ "}" +:+
    Native.transformPattern rest
  ∧ Native.transformPattern (p +:+ "/:" +:+ name +:+ lit +:+ rest)
    = Native.transformPattern (p +:+ "/:" +:+ name +:+ rest)
  ∧ (∀ a method,
       Native.registeredPattern a method (p +:+ "/:" +:+ name +:+ lit +:+ rest)
       = Native.registeredPattern a method (p +:+ "/:" +:+ name +:+ rest))
  ∧ Native.transformPattern "/v1/product/:id.json" = "/v1/product/{id}".
Proof.
  intros Hne Hname Hlit Hstop Hrest.
  assert (∀ l, every notSlash l = true → stopsRun isWordChar l →
            Native.transformPattern (p +:+ "/:" +:+ name +:+ l +:+ rest)
            = Native.transformPattern p +:+ "/{" +:+ name +:+ "}" +:+
              Native.transformPattern rest) as Hmain.
  { intros l Hl Hls. rewrite !transformPattern_clean_convert.
    change ("/:" +:+ name +:+ l +:+ rest)
      with (String "/" (String ":" (name +:+ l +:+ rest))).
    rewrite convert_app by done.
    rewrite convert_cons_other by done.
    rewrite convert_param; [|done|done|].
    2:{ destruct l; [by apply stopsRun_slash|done]. }
    rewrite convert_app by (by apply stopsRun_slash).
    rewrite clean_app by done.
    rewrite clean_cons_other by done.
    rewrite <- !app_assoc'. rewrite clean_app by (by apply convert_stops).
    rewrite !app_assoc'. rewrite clean_param; [|done|].
    2:{ by apply every_notSlash_convert. }
    change ("/{" +:+ name +:+ "}" +:+ clean (convert rest))
      with (String "/" ("{" +:+ name +:+ "}" +:+ clean (convert rest))).
    by rewrite !app_assoc'. }
  assert (Native.transformPattern (p +:+ "/:" +:+ name +:+ lit +:+ rest)
          = Native.transformPattern (p +:+ "/:" +:+ name +:+ rest)) as Hsame.
  { rewrite (Hmain lit) by done.
    rewrite <- (Hmain "") by done. by rewrite app_empty_l. }
  split_and!.
  - by apply Hmain.
  - exact Hsame.
  - intros a method. unfold Native.registeredPattern. by rewrite Hsame.
  - reflexivity.
Qed.

End patterns.

Lemma transformPattern_drops_literal_suffix_witness :
  Native.transformPattern ("/v1/product" +:+ "/:" +:+ "id" +:+ ".json" +:+ "/reviews")
  = Native.transformPattern "/v1/product" +:+ "/{" +:+ "id" +:+ "}" +:+
    Native.transformPattern "/reviews".
Proof.
  apply (transformPattern_drops_literal_suffix
           "/v1/product" "id" ".json" "/reviews");
    [discriminate | reflexivity | reflexivity | reflexivity | reflexivity].
Defined.

(** ** Resolution in the mock router *)

Section resolution.
Context {W : Type} `{ResponseWriter W}.
Import Strings.

Lemma app_inv_head_string (s t u : string) : s +:+ t = s +:+ u → t = u.
Proof. apply (inj (String.app s)). Qed.

(** C1: when a static pattern S and a dynamic pattern D are both in the
    table for a method, a request for that method whose path is S resolves
    by the exact lookup of the key, to the handler of S and under the key
    of S, which is not the key of D; the fallback scan over the dynamic
    patterns is not reached, whatever order it would take. *)
Theorem static_route_wins
    (handlers : gmap string (Handler W)) (order : list (string * Handler W))
    (method S D : string) (hS hD : Handler W) (r : Request) :
  handlers !! (method +:+ " " +:+ S) = Some hS →
  handlers !! (method +:+ " " +:+ D) = Some hD →
  Contains S ":" = false →
  Contains D ":" = true →
  Method r = method → Path r = S →
  Mock.resolve handlers order r = Mock.Exact (method +:+ " " +:+ S) hS
  ∧ method +:+ " " +:+ S ≠ method +:+ " " +:+ D
  ∧ (∀ w, Mock.ServeHTTP handlers order r w = hS r w).
Proof.
  intros HS HD Hstatic Hdynamic Hm Hp.
  assert (Mock.resolve handlers order r = Mock.Exact (method +:+ " " +:+ S) hS)
    as Hres.
  { unfold Mock.resolve. rewrite Hm, Hp. by rewrite HS. }
  split_and!; [done| |].
  - intros Heq. apply app_inv_head_string in Heq.
    apply (app_inv_head_string " ") in Heq. congruence.
  - intros w. unfold Mock.ServeHTTP. by rewrite Hres.
Qed.

Lemma scan_Fallback (r : Request) (order : list (string * Handler W)) k h :
  Mock.scan r order = Mock.Fallback k h →
  (k, h) ∈ order ∧ Mock.candidate r k = true.
Proof.
  induction order as [|[k' h'] order IH]; [done|]. simpl.
  destruct (Mock.candidate r k') eqn:Hc.
  - intros [= <- <-]. split; [left|done].
  - intros Hs. destruct (IH Hs). split; [by right|done].
Qed.

Lemma scan_Missing (r : Request) (order : list (string * Handler W)) :
  Mock.scan r order = Mock.Missing →
  ∀ k h, (k, h) ∈ order → Mock.candidate r k = false.
Proof.
  induction order as [|[k' h'] order IH]; intros Hs k h Hin.
  - by apply elem_of_nil in Hin.
  - simpl in Hs. destruct (Mock.candidate r k') eqn:Hc; [done|].
    apply elem_of_cons in Hin as [[= -> ->]|Hin]; [done|]. by eapply IH.
Qed.

Lemma scan_not_Exact (r : Request) (order : list (string * Handler W)) k h :
  Mock.scan r order ≠ Mock.Exact k h.
Proof.
  induction order as [|[k' h'] order IH]; [done|]. simpl.
  by destruct (Mock.candidate r k').
Qed.

Lemma rangeOrder_elem (handlers : gmap string (Handler W)) order k h :
  Mock.rangeOrder handlers order → (k, h) ∈ order ↔ handlers !! k = Some h.
Proof.
  unfold Mock.rangeOrder. intros ->. apply elem_of_map_to_list.
Qed.

(** C6, as the code has it: a request whose key is in the map resolves to
    that entry whatever order the range over the map takes; otherwise the
    winner is the first candidate the range meets: it is an entry of the map
    that passes the test of the loop, and it is the same for all orders when
    at most one entry passes that test.  The handler is called with the
    request as it came: no parameter is captured at dispatch. *)
Theorem resolve_deterministic_up_to_range_order
    (handlers : gmap string (Handler W)) (r : Request)
    (order1 order2 : list (string * Handler W)) :
  Mock.rangeOrder handlers order1 →
  Mock.rangeOrder handlers order2 →
  (is_Some (handlers !! (Method r +:+ " " +:+ Path r)) →
     Mock.resolve handlers order1 r = Mock.resolve handlers order2 r)
  ∧ (∀ k h, Mock.resolve handlers order1 r = Mock.Fallback k h →
       handlers !! k = Some h ∧ Mock.candidate r k = true)
  ∧ ((∀ k1 k2, is_Some (handlers !! k1) → is_Some (handlers !! k2) →
        Mock.candidate r k1 = true → Mock.candidate r k2 = true → k1 = k2) →
     Mock.resolve handlers order1 r = Mock.resolve handlers order2 r)
  ∧ (∀ k h w, Mock.resolve handlers order1 r = Mock.Fallback k h →
       Mock.ServeHTTP handlers order1 r w = h r w).
Proof.
  intros Ho1 Ho2.
  assert (∀ k h w, Mock.resolve handlers order1 r = Mock.Fallback k h →
            Mock.ServeHTTP handlers order1 r w = h r w) as Hserve
    by (intros k h w Hres; unfold Mock.ServeHTTP; by rewrite Hres).
  unfold Mock.resolve. split_and!; [| | |exact Hserve].
  - intros [h Hh]. by rewrite Hh.
  - intros k h. destruct (handlers !! _); [done|].
    intros [Hin Hc]%scan_Fallback. split; [|done].
    by apply (rangeOrder_elem handlers order1).
  - intros Huniq. destruct (handlers !! _); [done|].
    destruct (Mock.scan r order1) as [k1 h1|k1 h1|] eqn:Hs1.
    + by apply scan_not_Exact in Hs1.
    + apply scan_Fallback in Hs1 as [Hin1 Hc1].
      apply (rangeOrder_elem handlers order1) in Hin1; [|done].
      destruct (Mock.scan r order2) as [k2 h2|k2 h2|] eqn:Hs2.
      * by apply scan_not_Exact in Hs2.
      * apply scan_Fallback in Hs2 as [Hin2 Hc2].
        apply (rangeOrder_elem handlers order2) in Hin2; [|done].
        assert (k1 = k2) as -> by (apply Huniq; eauto).
        congruence.
      * apply (rangeOrder_elem handlers order2) in Hin1; [|done].
        pose proof (scan_Missing _ _ Hs2 _ _ Hin1). congruence.
    + destruct (Mock.scan r order2) as [k2 h2|k2 h2|] eqn:Hs2; [|  |done].
      * by apply scan_not_Exact in Hs2.
      * apply scan_Fallback in Hs2 as [Hin2 Hc2].
        apply (rangeOrder_elem handlers order2) in Hin2; [|done].
        apply (rangeOrder_elem handlers order1) in Hin2; [|done].
        pose proof (scan_Missing _ _ Hs1 _ _ Hin2). congruence.
Qed.

End resolution.

Lemma static_route_wins_witness :
  let handlers := Mock.handlersOf Example.universal 0 in
  (Mock.ServeHTTP handlers (map_to_list handlers)
     (NewRequest "GET" "/files/config") NewRecorder).2
  = {| Code := 200; HeaderMap := {[ "X-Powered-By" := "Transwarp" ]};
       Body := "file_config"; wroteHeader := true |}.
Proof.
  intros handlers.
  assert (∀ key, bool_decide (is_Some (handlers !! key)) = true →
            handlers !! key = Some (default NotFound (handlers !! key)))
    as Hfound.
  { intros key Hk. apply bool_decide_eq_true in Hk as [h ->]. done. }
  pose proof (static_route_wins handlers (map_to_list handlers)
                "GET" "/files/config" "/files/:name"
                (default NotFound (handlers !! "GET /files/config"))
                (default NotFound (handlers !! "GET /files/:name"))
                (NewRequest "GET" "/files/config")) as Hthm.
  assert (handlers !! ("GET" +:+ " " +:+ "/files/config")
          = Some (default NotFound (handlers !! "GET /files/config"))) as HS.
  { apply Hfound. vm_compute. reflexivity. }
  assert (handlers !! ("GET" +:+ " " +:+ "/files/:name")
          = Some (default NotFound (handlers !! "GET /files/:name"))) as HD.
  { apply Hfound. vm_compute. reflexivity. }
  specialize (Hthm HS HD eq_refl eq_refl eq_refl eq_refl).
  destruct Hthm as (_ & _ & Hserve).
  rewrite Hserve. vm_compute. reflexivity.
Defined.

(** C6, as it is stated, fails: with the patterns "/a/:x" and "/a/b/:y"
    registered in this order, the request GET /a/b/c resolves to one of
    them when the range over the map meets it first and to the other when
    it meets that one first; both are orders of the same map. *)
Lemma resolve_order_counterexample :
  ¬ (∀ (handlers : gmap string (Handler ResponseRecorder)) (r : Request)
       (order1 order2 : list (string * Handler ResponseRecorder)),
       Mock.rangeOrder handlers order1 →
       Mock.rangeOrder handlers order2 →
       Mock.resolve handlers order1 r = Mock.resolve handlers order2 r).
Proof.
  intros Hclaim.
  pose (handlers := Mock.handlersOf Example.overlapping 0).
  pose (order1 := map_to_list handlers).
  specialize (Hclaim handlers (NewRequest "GET" "/a/b/c") order1 (reverse order1)).
  assert (Mock.rangeOrder handlers order1) as H1
    by (unfold Mock.rangeOrder; reflexivity).
  assert (Mock.rangeOrder handlers (reverse order1)) as H2
    by (unfold Mock.rangeOrder; apply reverse_Permutation).
  specialize (Hclaim H1 H2). apply (f_equal Mock.routeKey) in Hclaim.
  vm_compute in Hclaim. discriminate Hclaim.
Qed.

Lemma resolve_deterministic_up_to_range_order_witness :
  let handlers := Mock.handlersOf Example.universal 0 in
  Mock.resolve handlers (map_to_list handlers)
    (NewRequest "GET" "/files/config")
  = Mock.resolve handlers (reverse (map_to_list handlers))
      (NewRequest "GET" "/files/config").
Proof.
  intros handlers.
  assert (Mock.rangeOrder handlers (map_to_list handlers)) as H1
    by (unfold Mock.rangeOrder; reflexivity).
  assert (Mock.rangeOrder handlers (reverse (map_to_list handlers))) as H2
    by (unfold Mock.rangeOrder; apply reverse_Permutation).
  pose proof (resolve_deterministic_up_to_range_order handlers
                (NewRequest "GET" "/files/config") _ _ H1 H2) as (Hexact & _).
  apply Hexact.
  apply (bool_decide_eq_true_1 (is_Some _)). vm_compute. reflexivity.
Defined.

(** C7, as it is stated, fails on the mock router: ServeHTTP has no
    recovery, so the panic of a handler leaves it as a panic. *)
Lemma mock_panic_counterexample :
  ¬ (∀ (handlers : gmap string (Handler ResponseRecorder))
       (order : list (string * Handler ResponseRecorder))
       (r : Request) (w : ResponseRecorder),
       ∃ w', Mock.ServeHTTP handlers order r w = (Returned (), w')).
Proof.
  intros Hclaim.
  destruct (Hclaim (Mock.handlersOf Example.overlapping 0) []
              (NewRequest "GET" "/boom") NewRecorder) as [w' Hw'].
  vm_compute in Hw'. discriminate Hw'.
Qed.

(** ** Parameters *)

Section params.
Context {W R C : Type} `{Fiber.Engine W R C}.

Lemma inject_snoc (entries : list (string * string)) kv (ctx : Context) :
  Fiber.inject (entries ++ [kv]) ctx
  = WithValue (Fiber.inject entries ctx) (fiberCtxKey kv.1) (AString kv.2).
Proof. unfold Fiber.inject. by rewrite foldl_app. Qed.

Lemma Value_inject_absent (entries : list (string * string)) ctx name :
  name ∉ entries.*1 →
  Value (Fiber.inject entries ctx) (fiberCtxKey name)
  = Value ctx (fiberCtxKey name).
Proof.
  induction entries as [|[k v] entries IH] using rev_ind; [done|].
  rewrite fmap_app, inject_snoc. simpl. intros Hnot.
  apply not_elem_of_app in Hnot as [Hnot Hk].
  rewrite decide_False; [by apply IH|].
  intros [= ->]. apply Hk. by left.
Qed.

Lemma Value_inject_bound (entries : list (string * string)) ctx name v :
  NoDup entries.*1 → (name, v) ∈ entries →
  Value (Fiber.inject entries ctx) (fiberCtxKey name) = Some (AString v).
Proof.
  induction entries as [|[k v'] entries IH] using rev_ind.
  - intros _ Hin. by apply elem_of_nil in Hin.
  - rewrite fmap_app, inject_snoc. simpl. intros Hnd Hin.
    apply list.NoDup_app in Hnd as (Hnd & Hdisj & _).
    apply elem_of_app in Hin as [Hin|Hin].
    + rewrite decide_False; [by apply IH|].
      intros [= ->]. apply (Hdisj name); [|by left].
      apply list_elem_of_fmap. by exists (name, v).
    + apply list_elem_of_singleton in Hin as [= <- <-].
      by rewrite decide_True.
Qed.

Lemma Value_inject (params : gmap string string) entries ctx name :
  entries ≡ₚ map_to_list params →
  Value (Fiber.inject entries ctx) (fiberCtxKey name)
  = match params !! name with
    | Some v => Some (AString v)
    | None => Value ctx (fiberCtxKey name)
    end.
Proof.
  intros Hperm. destruct (params !! name) as [v|] eqn:Hp.
  - apply Value_inject_bound.
    + rewrite Hperm. apply NoDup_fst_map_to_list.
    + rewrite Hperm. by apply elem_of_map_to_list.
  - apply Value_inject_absent. rewrite Hperm.
    intros ([k v] & -> & Hin)%list_elem_of_fmap.
    apply elem_of_map_to_list in Hin. simpl in Hp. congruence.
Qed.

Lemma collect_lookup (c : C) (names : list string) (m : gmap string string) name :
  foldl (λ params n, <[n := Fiber.Params n c]> params) m names !! name
  = if decide (name ∈ names) then Some (Fiber.Params name c) else m !! name.
Proof.
  revert m. induction names as [|n names IH]; intros m.
  - destruct (decide (name ∈ [])) as [Hin|]; [|done].
    by apply elem_of_nil in Hin.
  - cbn [foldl]. rewrite IH.
    destruct (decide (name ∈ names)) as [Hin|Hnot];
      destruct (decide (name ∈ n :: names)) as [Hin'|Hnot']; try done.
    + exfalso. apply Hnot'. by right.
    + apply elem_of_cons in Hin' as [->|?]; [|done]. apply lookup_insert_eq.
    + apply lookup_insert_ne. intros ->. apply Hnot'. by left.
Qed.

(** C5: Param returns the string the binding of the request's context has
    for the name, and the empty string when the binding has none for it or
    when the context carries no binding.  For the mock router the binding is
    the map under MockParamsKey; for the Fiber adapter it is what handle
    injects, one context value per parameter, whatever order the range over
    the parameters takes; there Param returns what Fiber captured for each
    parameter of the route. *)
Theorem Param_returns_binding :
  (∀ (r : Request) (params : gmap string string) (name : string),
     Value (Ctx r) Mock.MockParamsKey = Some (AParams params) →
     Mock.Param r name = default "" (params !! name))
  ∧ (∀ (r : Request) (ctx : Context) (params : gmap string string) name,
       Mock.Param (WithContext r
                     (WithValue ctx Mock.MockParamsKey (AParams params))) name
       = default "" (params !! name))
  ∧ (∀ (r : Request) name,
       Value (Ctx r) Mock.MockParamsKey = None → Mock.Param r name = "")
  ∧ (∀ (r : Request) (params : gmap string string) entries name,
       entries ≡ₚ map_to_list params →
       Fiber.Param (Some (WithContext r (Fiber.inject entries (Ctx r)))) name
       = match params !! name with
         | Some v => v
         | None => Fiber.Param (Some r) name
         end)
  ∧ (∀ (r : Request) (params : gmap string string) entries name,
       entries ≡ₚ map_to_list params →
       (∀ k, Value (Ctx r) (fiberCtxKey k) = None) →
       Fiber.Param (Some (WithContext r (Fiber.inject entries (Ctx r)))) name
       = default "" (params !! name))
  ∧ (∀ (r : Request) name,
       Value (Ctx r) (fiberCtxKey name) = None → Fiber.Param (Some r) name = "")
  ∧ (∀ name, Fiber.Param None name = "")
  ∧ (∀ (c : C) (names : list string)
       (order : gmap string string → list (string * string))
       (r : Request) name,
       Fiber.RouteParams c = Some names → name ∈ names →
       order (Fiber.collectParams c) ≡ₚ map_to_list (Fiber.collectParams c) →
       Fiber.Param
         (Some (WithContext r
                  (Fiber.inject (order (Fiber.collectParams c)) (Ctx r)))) name
       = Fiber.Params name c).
Proof.
  split_and!.
  - intros r params name Hv. unfold Mock.Param. by rewrite Hv.
  - intros r ctx params name. unfold Mock.Param.
    cbn [Ctx WithContext WithValue Value].
    by rewrite decide_True.
  - intros r name Hv. unfold Mock.Param. by rewrite Hv.
  - intros r params entries name Hperm. unfold Fiber.Param. simpl.
    rewrite (Value_inject params) by done. by destruct (params !! name).
  - intros r params entries name Hperm Hnone. unfold Fiber.Param. simpl.
    rewrite (Value_inject params), Hnone by done. by destruct (params !! name).
  - intros r name Hv. unfold Fiber.Param. by rewrite Hv.
  - done.
  - intros c names order r name Hroute Hin Hperm. unfold Fiber.Param. simpl.
    rewrite (Value_inject (Fiber.collectParams c)) by done.
    unfold Fiber.collectParams. rewrite Hroute, collect_lookup.
    by rewrite decide_True.
Qed.

End params.

Lemma Param_returns_binding_witness :
  Mock.Param
    (WithContext (NewRequest "GET" "/api/echo/hello")
       (WithValue Background Mock.MockParamsKey
          (AParams {[ "data" := "hello" ]}))) "data" = "hello"
  ∧ Fiber.Param
      (Some (WithContext (NewRequest "GET" "/shop/category/books/item/42")
               (Fiber.inject [("id", "42"); ("cat", "books")] Background)))
      "cat" = "books".
Proof.
  destruct (Param_returns_binding (W := ResponseRecorder) (R := string)
              (C := Example.SimpleCtx))
    as (Hmock & _ & _ & _ & Hfiber & _).
  split.
  - rewrite (Hmock _ {[ "data" := "hello" ]} "data"); [|reflexivity].
    vm_compute. reflexivity.
  - assert ([("id", "42"); ("cat", "books")]
            ≡ₚ map_to_list
                 (<["cat" := "books"]> ({[ "id" := "42" ]} : gmap string string)))
      as Hperm.
    { rewrite map_to_list_insert by (vm_compute; reflexivity).
      rewrite map_to_list_singleton. apply perm_swap. }
    etransitivity;
      [exact (Hfiber (NewRequest "GET" "/shop/category/books/item/42")
                _ _ "cat" Hperm (λ _, eq_refl))|].
    vm_compute. reflexivity.
Defined.

(** ** Panics *)

Section recovery.
Context {W R C : Type} `{Fiber.Engine W R C}.

Lemma Fiber_handle_run (order : gmap string string → list (string * string))
    (σ : Fiber.Store W R C) a method path (h g : Handler W) x :
  Fiber.adapters σ !! a = Some x →
  onion (Fiber.middlewaresOf σ a) h = Returned g →
  length (Fiber.middlewaresOf σ a) = Slices.len (Fiber.Middlewares x) →
  Fiber.handle order a method path h σ
  = (Returned (),
     {| Fiber.arrays := Fiber.arrays σ; Fiber.adapters := Fiber.adapters σ;
        Fiber.added := Fiber.added σ ++
          [(Fiber.Router x, method, path, Fiber.fiberHandler order g)] |}).
Proof.
  intros Ha Hg Hlen.
  unfold Fiber.handle, bind, Fiber.load, gets, liftOutcome, modify.
  rewrite Ha. unfold Fiber.middlewaresOf in Hg, Hlen. rewrite Ha in Hg, Hlen.
  rewrite <- Hlen, wrapDown_onion, Hg. reflexivity.
Qed.

(** C7, as the code has it: the handler the Fiber adapter registers never
    panics; when the composed chain of middlewares and handler panics under
    it, the deferred function recovers, answers with the status 500 and the
    body "Panic Detected" and the handler returns no error; when the chain
    returns, the handler returns what the adaptor returned.  The handler is
    the one handle registers, around the onion of the adapter's middlewares
    and the user's handler. *)
Theorem fiber_handler_recovers
    (order : gmap string string → list (string * string))
    (composedHandler : Handler W) (c : C) :
  (∃ err c', Fiber.fiberHandler order composedHandler c = (Returned err, c'))
  ∧ (∀ v c1,
       Fiber.HTTPHandlerFunc (injected order composedHandler c) c
       = (Panicked v, c1) →
       Fiber.fiberHandler order composedHandler c
       = (Returned None,
          (Fiber.SendString "Panic Detected" (Fiber.Status 500 c1)).2))
  ∧ (∀ err c1,
       Fiber.HTTPHandlerFunc (injected order composedHandler c) c
       = (Returned err, c1) →
       Fiber.fiberHandler order composedHandler c = (Returned err, c1))
  ∧ (∀ (σ : Fiber.Store W R C) a method path (h : Handler W) x,
       Fiber.adapters σ !! a = Some x →
       onion (Fiber.middlewaresOf σ a) h = Returned composedHandler →
       length (Fiber.middlewaresOf σ a) = Slices.len (Fiber.Middlewares x) →
       ∃ σ', Fiber.handle order a method path h σ = (Returned (), σ')
             ∧ list.last (Fiber.added σ')
               = Some (Fiber.Router x, method, path,
                       Fiber.fiberHandler order composedHandler)).
Proof.
  unfold Fiber.fiberHandler. fold (injected order composedHandler c).
  destruct (Fiber.HTTPHandlerFunc (injected order composedHandler c) c)
    as [[err|v] c1] eqn:Hbody.
  - split_and!; [by eauto | done | by intros ?? [= <- <-] |].
    intros σ a method path h x Ha Hg Hlen. eexists. split.
    + apply Fiber_handle_run; done.
    + cbn [Fiber.added]. by rewrite last_snoc.
  - destruct (Fiber.SendString "Panic Detected" (Fiber.Status 500 c1))
      as [e c2] eqn:Hsend.
    split_and!;
      [by eauto | intros ?? [= <- <-]; by rewrite Hsend | done |].
    intros σ a method path h x Ha Hg Hlen. eexists. split.
    + apply Fiber_handle_run; done.
    + cbn [Fiber.added]. by rewrite last_snoc.
Qed.

End recovery.

Lemma fiber_handler_recovers_witness :
  Fiber.fiberHandler map_to_list (Script.handlerOf Example.boom)
    {| Example.scMethod := "GET"; Example.scPath := "/boom";
       Example.scRoute := None; Example.scCaptured := ∅;
       Example.scStatus := 200; Example.scBody := "" |}
  = (Returned None,
     {| Example.scMethod := "GET"; Example.scPath := "/boom";
        Example.scRoute := None; Example.scCaptured := ∅;
        Example.scStatus := 500; Example.scBody := "Panic Detected" |}).
Proof.
  pose (c := {| Example.scMethod := "GET"; Example.scPath := "/boom";
                Example.scRoute := None; Example.scCaptured := ∅;
                Example.scStatus := 200; Example.scBody := "" |}).
  destruct (fiber_handler_recovers (W := ResponseRecorder) (R := string)
              map_to_list (Script.handlerOf Example.boom) c)
    as (_ & Hpanic & _).
  etransitivity; [apply (Hpanic "boom" c); vm_compute; reflexivity|].
  vm_compute. reflexivity.
Defined.

(** ** Slices owned by routers *)

Section owners.
Context {A : Type} (zero : A).
Import Slices.

Lemma sliceOk_lt (H : Arrays A) s : sliceOk H s → arr s < length H.
Proof. intros (cells & Hc & _). by apply lookup_lt_Some in Hc. Qed.

Lemma sliceOk_view_length (H : Arrays A) s : sliceOk H s → length (view s H) = len s.
Proof.
  intros (cells & Hc & ? & ?). unfold view. rewrite Hc. simpl.
  rewrite length_take. lia.
Qed.

Lemma view_app_l (H H' : Arrays A) s : arr s < length H → view s (H ++ H') = view s H.
Proof. intros Hlt. unfold view. by rewrite lookup_app_l. Qed.

Lemma sliceOk_app (H H' : Arrays A) s : sliceOk H s → sliceOk (H ++ H') s.
Proof.
  intros (cells & Hc & ?). exists cells. split; [|done].
  rewrite lookup_app_l; [done|]. by apply lookup_lt_Some in Hc.
Qed.

Lemma view_alter_ne (H : Arrays A) s f i : arr s ≠ i → view s (alter f i H) = view s H.
Proof. intros Hne. unfold view. by rewrite list_lookup_alter_ne. Qed.

Lemma sliceOk_alter_ne (H : Arrays A) s f i : arr s ≠ i → sliceOk H s → sliceOk (alter f i H) s.
Proof.
  intros Hne (cells & Hc & ?). exists cells. split; [|done].
  by rewrite list_lookup_alter_ne.
Qed.

(** [Group]: the new slice holds a copy of the parent's elements in an
    array of its own. *)
Lemma group_owners (H : Arrays A) ss m s :
  wfOwners H ss → ss !! m = Some s →
  let newS := (make zero (len s) H).1 in
  let H2 := copy newS s (make zero (len s) H).2 in
  wfOwners H2 (ss ++ [newS])
  ∧ stackOf H2 (ss ++ [newS]) (length ss) = stackOf H ss m
  ∧ (∀ b, b < length ss → stackOf H2 (ss ++ [newS]) b = stackOf H ss b).
Proof.
  intros [Hok Hdist] Hm. simpl.
  set (newS := {| arr := length H; len := len s; cap := len s |}).
  pose proof (Hok _ _ Hm) as Hs.
  pose proof (sliceOk_lt _ _ Hs) as Hlt.
  pose proof (sliceOk_view_length _ _ Hs) as Hlen.
  unfold copy. cbn [len arr newS]. rewrite Nat.min_id.
  rewrite (view_app_l H _ s) by done.
  rewrite (take_ge (view s H)) by lia. rewrite Hlen.
  set (f := λ cells : list A, view s H ++ drop (len s) cells).
  assert (alter f (length H) (H ++ [replicate (len s) zero])
          = H ++ [view s H]) as ->.
  { rewrite alter_app_r_alt by lia. rewrite Nat.sub_diag. simpl.
    unfold f. rewrite drop_replicate, Nat.sub_diag. simpl.
    by rewrite app_nil_r. }
  assert (view newS (H ++ [view s H]) = view s H) as Hnew.
  { unfold view at 1. cbn [arr len newS].
    rewrite lookup_app_r, Nat.sub_diag by lia. simpl.
    apply take_ge. lia. }
  split_and!.
  - split.
    + intros i si [Hi|[Hige Hi]]%lookup_app_Some.
      * apply sliceOk_app. by eapply Hok.
      * apply list_lookup_singleton_Some in Hi as [_ <-].
        exists (view s H). cbn [arr len cap newS].
        rewrite lookup_app_r, Nat.sub_diag by lia. split; [done|]. lia.
    + intros i j si sj Hi Hj Harr.
      apply lookup_app_Some in Hi as [Hi|[Hige Hi]];
        apply lookup_app_Some in Hj as [Hj|[Hjge Hj]].
      * by eapply Hdist.
      * apply list_lookup_singleton_Some in Hj as [_ <-].
        pose proof (sliceOk_lt _ _ (Hok _ _ Hi)). cbn [arr newS] in Harr. lia.
      * apply list_lookup_singleton_Some in Hi as [_ <-].
        pose proof (sliceOk_lt _ _ (Hok _ _ Hj)). cbn [arr newS] in Harr. lia.
      * apply list_lookup_singleton_Some in Hi as [? _].
        apply list_lookup_singleton_Some in Hj as [? _]. lia.
  - unfold stackOf. rewrite lookup_app_r, Nat.sub_diag, Hm by lia. done.
  - intros b Hb. unfold stackOf. rewrite lookup_app_l by done.
    destruct (ss !! b) as [sb|] eqn:Hsb; [|done].
    apply view_app_l. eapply sliceOk_lt, Hok. done.
Qed.

(** [Use]: the slice of the owner grows by the element, the slices of the
    other owners keep their elements. *)
Lemma use_owners (H : Arrays A) ss m s x :
  wfOwners H ss → ss !! m = Some s →
  let s' := (append zero s x H).1 in
  let H' := (append zero s x H).2 in
  wfOwners H' (<[m := s']> ss)
  ∧ stackOf H' (<[m := s']> ss) m = stackOf H ss m ++ [x]
  ∧ (∀ b, b ≠ m → stackOf H' (<[m := s']> ss) b = stackOf H ss b).
Proof.
  intros [Hok Hdist] Hm. simpl.
  pose proof (Hok _ _ Hm) as Hs.
  pose proof (sliceOk_lt _ _ Hs) as Hlt.
  pose proof (sliceOk_view_length _ _ Hs) as Hlen.
  pose proof (lookup_lt_Some _ _ _ Hm) as Hmlt.
  destruct Hs as (cells & Hcells & Hlc & Hcl).
  unfold append. destruct (decide (len s < cap s)) as [Hroom|Hfull]; simpl.
  - (* in place *)
    split_and!.
    + split.
      * intros i si Hi.
        destruct (decide (i = m)) as [->|Hne].
        -- rewrite list_lookup_insert_eq in Hi by done. injection Hi as <-.
           exists (<[len s := x]> cells). cbn [arr len cap].
           rewrite list_lookup_alter_eq, Hcells. simpl.
           rewrite length_insert. split; [done|]. lia.
        -- rewrite list_lookup_insert_ne in Hi by done.
           apply sliceOk_alter_ne; [|by eapply Hok].
           intros Harr. apply Hne. by eapply Hdist.
      * intros i j si sj Hi Hj Harr.
        destruct (decide (i = m)) as [->|Hi'];
          destruct (decide (j = m)) as [->|Hj']; [done| | |].
        -- rewrite list_lookup_insert_eq in Hi by done. injection Hi as <-.
           rewrite list_lookup_insert_ne in Hj by done.
           by eapply Hdist.
        -- rewrite list_lookup_insert_eq in Hj by done. injection Hj as <-.
           rewrite list_lookup_insert_ne in Hi by done.
           by eapply Hdist.
        -- rewrite list_lookup_insert_ne in Hi, Hj by done. by eapply Hdist.
    + unfold stackOf. rewrite list_lookup_insert_eq, Hm by done.
      unfold view. cbn [arr len]. rewrite list_lookup_alter_eq, Hcells. simpl.
      rewrite (take_S_r _ _ x) by (apply list_lookup_insert_eq; lia).
      by rewrite take_insert_ge by lia.
    + intros b Hb. unfold stackOf. rewrite list_lookup_insert_ne by done.
      destruct (ss !! b) as [sb|] eqn:Hsb; [|done].
      apply view_alter_ne. intros Harr. apply Hb. by eapply Hdist.
  - (* into a new array *)
    set (c := growCap (cap s) (S (len s))).
    assert (S (len s) ≤ c) as Hc by (unfold c, growCap; lia).
    split_and!.
    + split.
      * intros i si Hi.
        destruct (decide (i = m)) as [->|Hne].
        -- rewrite list_lookup_insert_eq in Hi by done. injection Hi as <-.
           eexists. cbn [arr len cap].
           rewrite lookup_app_r, Nat.sub_diag by lia. split; [done|].
           rewrite length_app, Hlen. simpl. rewrite length_replicate. lia.
        -- rewrite list_lookup_insert_ne in Hi by done.
           apply sliceOk_app. by eapply Hok.
      * intros i j si sj Hi Hj Harr.
        destruct (decide (i = m)) as [->|Hi'];
          destruct (decide (j = m)) as [->|Hj']; [done| | |].
        -- rewrite list_lookup_insert_eq in Hi by done. injection Hi as <-.
           rewrite list_lookup_insert_ne in Hj by done.
           pose proof (sliceOk_lt _ _ (Hok _ _ Hj)). cbn [arr] in Harr. lia.
        -- rewrite list_lookup_insert_eq in Hj by done. injection Hj as <-.
           rewrite list_lookup_insert_ne in Hi by done.
           pose proof (sliceOk_lt _ _ (Hok _ _ Hi)). cbn [arr] in Harr. lia.
        -- rewrite list_lookup_insert_ne in Hi, Hj by done. by eapply Hdist.
    + unfold stackOf. rewrite list_lookup_insert_eq, Hm by done.
      unfold view at 1. cbn [arr len].
      rewrite lookup_app_r, Nat.sub_diag by lia. simpl.
      rewrite <- Hlen at 1.
      change (view s H ++ x :: replicate (c - S (len s)) zero)
        with (view s H ++ [x] ++ replicate (c - S (len s)) zero).
      rewrite (assoc_L (++)).
      replace (S (length (view s H))) with (length (view s H ++ [x]))
        by (rewrite length_app; simpl; lia).
      by rewrite take_app_length.
    + intros b Hb. unfold stackOf. rewrite list_lookup_insert_ne by done.
      destruct (ss !! b) as [sb|] eqn:Hsb; [|done].
      apply view_app_l. eapply sliceOk_lt, Hok. done.
Qed.

(** A new owner with a new, empty slice. *)
Lemma new_owner (H : Arrays A) ss :
  wfOwners H ss →
  let s := (make zero 0 H).1 in
  let H' := (make zero 0 H).2 in
  wfOwners H' (ss ++ [s])
  ∧ stackOf H' (ss ++ [s]) (length ss) = []
  ∧ (∀ b, b < length ss → stackOf H' (ss ++ [s]) b = stackOf H ss b).
Proof.
  intros [Hok Hdist]. simpl. split_and!.
  - split.
    + intros i si [Hi|[Hige Hi]]%lookup_app_Some.
      * apply sliceOk_app. by eapply Hok.
      * apply list_lookup_singleton_Some in Hi as [_ <-].
        exists []. cbn [arr len cap].
        rewrite lookup_app_r, Nat.sub_diag by lia. split; [done|]. simpl. lia.
    + intros i j si sj Hi Hj Harr.
      apply lookup_app_Some in Hi as [Hi|[Hige Hi]];
        apply lookup_app_Some in Hj as [Hj|[Hjge Hj]].
      * by eapply Hdist.
      * apply list_lookup_singleton_Some in Hj as [_ <-].
        pose proof (sliceOk_lt _ _ (Hok _ _ Hi)). cbn [arr] in Harr. lia.
      * apply list_lookup_singleton_Some in Hi as [_ <-].
        pose proof (sliceOk_lt _ _ (Hok _ _ Hj)). cbn [arr] in Harr. lia.
      * apply list_lookup_singleton_Some in Hi as [? _].
        apply list_lookup_singleton_Some in Hj as [? _]. lia.
  - unfold stackOf. rewrite lookup_app_r, Nat.sub_diag by lia. done.
  - intros b Hb. unfold stackOf. rewrite lookup_app_l by done.
    destruct (ss !! b) as [sb|] eqn:Hsb; [|done].
    apply view_app_l. eapply sliceOk_lt, Hok. done.
Qed.

End owners.

(** ** Groups and their middlewares *)

Section isolation.
Context {W : Type}.
Import Slices.

Lemma middlewaresOf_stackOf (σ : Mock.Store W) b :
  Mock.middlewaresOf σ b
  = stackOf (Mock.arrays σ) (Mock.middlewares <$> Mock.routers σ) b.
Proof.
  unfold Mock.middlewaresOf, stackOf. rewrite list_lookup_fmap.
  by destruct (Mock.routers σ !! b).
Qed.

Lemma Mock_Use_run (σ : Mock.Store W) m mw r :
  Mock.routers σ !! m = Some r →
  Mock.Use m mw σ
  = (Returned (),
     {| Mock.arrays := (append None (Mock.middlewares r) mw (Mock.arrays σ)).2;
        Mock.tables := Mock.tables σ;
        Mock.routers :=
          <[m := {| Mock.Handlers := Mock.Handlers r;
                    Mock.prefix := Mock.prefix r;
                    Mock.middlewares :=
                      (append None (Mock.middlewares r) mw (Mock.arrays σ)).1 |}]>
            (Mock.routers σ) |}).
Proof.
  intros Hm. unfold Mock.Use, bind, Mock.load, Mock.withArrays, modify.
  rewrite Hm.
  by destruct (append None (Mock.middlewares r) mw (Mock.arrays σ)).
Qed.

Lemma Mock_Use_panics (σ : Mock.Store W) m mw :
  Mock.routers σ !! m = None →
  ∃ v, Mock.Use m mw σ = (Panicked v, σ).
Proof.
  intros Hm. unfold Mock.Use, bind, Mock.load. rewrite Hm. eauto.
Qed.

Lemma Mock_Group_panics (σ : Mock.Store W) m path :
  Mock.routers σ !! m = None →
  ∃ v, Mock.Group m path σ = (Panicked v, σ).
Proof.
  intros Hm. unfold Mock.Group, bind, Mock.load. rewrite Hm. eauto.
Qed.

Lemma Mock_register_frame (σ σ' : Mock.Store W) m method path h o :
  Mock.register m method path h σ = (o, σ') →
  Mock.arrays σ' = Mock.arrays σ ∧ Mock.routers σ' = Mock.routers σ.
Proof.
  unfold Mock.register, bind, Mock.load, gets, liftOutcome.
  destruct (Mock.routers σ !! m) as [r|]; [|by intros [= _ <-]].
  destruct (wrapDown _ _ h) as [g|v]; [|by intros [= _ <-]].
  destruct (Mock.tables σ !! Mock.Handlers r); by intros [= _ <-].
Qed.

Lemma Mock_registers_frame (σ σ' : Mock.Store W) m methods pattern h o :
  foldr (λ method rest, bind (Mock.register m method pattern h) (λ _, rest))
        (ret ()) methods σ = (o, σ') →
  Mock.arrays σ' = Mock.arrays σ ∧ Mock.routers σ' = Mock.routers σ.
Proof.
  revert σ. induction methods as [|method methods IH]; intros σ.
  - by intros [= _ <-].
  - cbn [foldr]. unfold bind at 1.
    destruct (Mock.register m method pattern h σ) as [[[]|v] σ1] eqn:Hreg.
    + intros Hrest. apply IH in Hrest as [-> ->].
      by apply Mock_register_frame in Hreg.
    + intros [= _ <-]. by apply Mock_register_frame in Hreg.
Qed.

Lemma Mock_register_run (σ : Mock.Store W) m method path (h g : Handler W) r t :
  wf σ →
  Mock.routers σ !! m = Some r →
  Mock.tables σ !! Mock.Handlers r = Some t →
  onion (Mock.middlewaresOf σ m) h = Returned g →
  ∃ σ', Mock.register m method path h σ = (Returned (), σ')
        ∧ Mock.handlersOf σ' m !! (method +:+ " " +:+ Mock.prefix r +:+ path)
          = Some g.
Proof.
  intros [Hok _] Hm Ht Hg.
  assert (length (Mock.middlewaresOf σ m) = len (Mock.middlewares r)) as Hlen.
  { unfold Mock.middlewaresOf. rewrite Hm. apply sliceOk_view_length.
    apply (Hok m). by rewrite list_lookup_fmap, Hm. }
  unfold Mock.middlewaresOf in Hg, Hlen. rewrite Hm in Hg, Hlen.
  unfold Mock.register, bind, Mock.load, gets, liftOutcome.
  rewrite Hm, <- Hlen, wrapDown_onion, Hg, Ht.
  eexists. split; [done|].
  unfold Mock.handlersOf. cbn [Mock.routers Mock.tables]. rewrite Hm. simpl.
  rewrite list_lookup_alter_eq, Ht. simpl. apply lookup_insert_eq.
Qed.

Lemma wf_Group (σ : Mock.Store W) m path r :
  wf σ → Mock.routers σ !! m = Some r →
  ∃ σ', Mock.Group m path σ = (Returned (length (Mock.routers σ)), σ')
        ∧ wf σ'
        ∧ length (Mock.routers σ') = S (length (Mock.routers σ))
        ∧ Mock.middlewaresOf σ' (length (Mock.routers σ))
          = Mock.middlewaresOf σ m
        ∧ (∀ b, b < length (Mock.routers σ) →
             Mock.middlewaresOf σ' b = Mock.middlewaresOf σ b).
Proof.
  intros Hwf Hm. eexists. split; [by apply Mock_Group_run|].
  assert ((Mock.middlewares <$> Mock.routers σ) !! m
          = Some (Mock.middlewares r)) as Hs
    by (by rewrite list_lookup_fmap, Hm).
  destruct (group_owners None _ _ _ _ Hwf Hs) as (Hwf' & Hnew & Hold).
  rewrite length_fmap in Hnew, Hold.
  unfold wf. setoid_rewrite middlewaresOf_stackOf.
  cbn [Mock.arrays Mock.routers]. rewrite fmap_app. cbn [fmap list_fmap].
  split_and!; [done| |done|done].
  rewrite length_app. simpl. lia.
Qed.

Lemma wf_Use (σ : Mock.Store W) m mw r :
  wf σ → Mock.routers σ !! m = Some r →
  ∃ σ', Mock.Use m mw σ = (Returned (), σ')
        ∧ wf σ'
        ∧ length (Mock.routers σ') = length (Mock.routers σ)
        ∧ Mock.middlewaresOf σ' m = Mock.middlewaresOf σ m ++ [mw]
        ∧ (∀ b, b ≠ m → Mock.middlewaresOf σ' b = Mock.middlewaresOf σ b).
Proof.
  intros Hwf Hm. eexists. split; [by apply Mock_Use_run|].
  assert ((Mock.middlewares <$> Mock.routers σ) !! m
          = Some (Mock.middlewares r)) as Hs
    by (by rewrite list_lookup_fmap, Hm).
  destruct (use_owners None _ _ _ _ mw Hwf Hs) as (Hwf' & Hown & Hother).
  unfold wf. setoid_rewrite middlewaresOf_stackOf.
  cbn [Mock.arrays Mock.routers]. rewrite list_fmap_insert, length_insert.
  done.
Qed.

Lemma wf_NewMockRouter (σ : Mock.Store W) :
  wf σ →
  ∃ σ', Mock.NewMockRouter σ = (Returned (length (Mock.routers σ)), σ')
        ∧ wf σ'
        ∧ Mock.middlewaresOf σ' (length (Mock.routers σ)) = []
        ∧ Mock.handlersOf σ' (length (Mock.routers σ)) = ∅.
Proof.
  intros Hwf. eexists. split; [reflexivity|].
  destruct (new_owner None _ _ Hwf) as (Hwf' & Hnew & _).
  rewrite length_fmap in Hnew.
  unfold wf. rewrite middlewaresOf_stackOf.
  cbn [Mock.arrays Mock.routers]. rewrite fmap_app. cbn [fmap list_fmap].
  split_and!; [done|done|].
  unfold Mock.handlersOf. cbn [Mock.routers Mock.tables].
  rewrite lookup_app_r, Nat.sub_diag by lia. simpl.
  rewrite lookup_app_r, Nat.sub_diag by lia. done.
Qed.

Lemma wf_emptyStore : wf (Mock.emptyStore (W := W)).
Proof.
  split.
  - intros i s Hi. by destruct i.
  - intros i j si sj Hi. by destruct i.
Qed.

(** One call of the set-up code. *)
Lemma wf_call (σ σ' : Mock.Store W) c :
  wf σ → Mock.call c σ = (Returned (), σ') →
  wf σ'
  ∧ length (Mock.routers σ) ≤ length (Mock.routers σ')
  ∧ (∀ b, b < length (Mock.routers σ) →
       Mock.middlewaresOf σ' b = Mock.middlewaresOf σ b ++ usesOn b [c]).
Proof.
  intros Hwf. destruct c as [m path|m mw|m method path h|m pattern h];
    cbn [Mock.call usesOn].
  - unfold bind.
    destruct (Mock.routers σ !! m) as [r|] eqn:Hm.
    + destruct (wf_Group σ m path r Hwf Hm)
        as (σ1 & -> & Hwf1 & Hlen & _ & Hold).
      intros [= <-]. split_and!; [done|lia|].
      intros b Hb. rewrite app_nil_r. by apply Hold.
    + destruct (Mock_Group_panics σ m path Hm) as [v ->]. done.
  - destruct (Mock.routers σ !! m) as [r|] eqn:Hm.
    + destruct (wf_Use σ m mw r Hwf Hm) as (σ1 & -> & Hwf1 & Hlen & Hown & Hother).
      intros [= <-]. split_and!; [done|lia|].
      intros b Hb. destruct (decide (m = b)) as [->|Hne]; [done|].
      rewrite app_nil_r. by apply Hother.
    + destruct (Mock_Use_panics σ m mw Hm) as [v ->]. done.
  - intros [Ha Hr]%Mock_register_frame.
    unfold wf. setoid_rewrite middlewaresOf_stackOf. rewrite Ha, Hr.
    split_and!; [done|done|]. intros b _. by rewrite app_nil_r.
  - intros [Ha Hr]%Mock_registers_frame.
    unfold wf. setoid_rewrite middlewaresOf_stackOf. rewrite Ha, Hr.
    split_and!; [done|done|]. intros b _. by rewrite app_nil_r.
Qed.

Lemma usesOn_cons b (c : Mock.Call (W := W)) cs :
  usesOn b (c :: cs) = usesOn b [c] ++ usesOn b cs.
Proof.
  destruct c; simpl; try done. by destruct (decide (m = b)).
Qed.

(** Any set-up code: the stack of a router changes by its own [Use]s only. *)
Lemma wf_setup (cs : list (Mock.Call (W := W))) (σ σ' : Mock.Store W) :
  wf σ → Mock.setup cs σ = (Returned (), σ') →
  wf σ'
  ∧ length (Mock.routers σ) ≤ length (Mock.routers σ')
  ∧ (∀ b, b < length (Mock.routers σ) →
       Mock.middlewaresOf σ' b = Mock.middlewaresOf σ b ++ usesOn b cs).
Proof.
  revert σ. induction cs as [|c cs IH]; intros σ Hwf.
  - intros [= <-]. split_and!; [done|done|].
    intros b _. by rewrite app_nil_r.
  - unfold Mock.setup. cbn [foldr]. fold (Mock.setup cs). unfold bind at 1.
    destruct (Mock.call c σ) as [[[]|v] σ1] eqn:Hc; [|done].
    intros Hrest.
    destruct (wf_call _ _ _ Hwf Hc) as (Hwf1 & Hlen1 & Hstack1).
    destruct (IH _ Hwf1 Hrest) as (Hwf' & Hlen' & Hstack').
    split_and!; [done|lia|].
    intros b Hb. rewrite Hstack' by lia. rewrite Hstack1 by done.
    by rewrite (usesOn_cons b c cs), (assoc_L (++)).
Qed.

End isolation.

Section fiber_isolation.
Context {W R C : Type} `{Fiber.Engine W R C}.
Import Slices.

Lemma Fiber_middlewaresOf_stackOf (σ : Fiber.Store W R C) b :
  Fiber.middlewaresOf σ b
  = stackOf (Fiber.arrays σ) (Fiber.Middlewares <$> Fiber.adapters σ) b.
Proof.
  unfold Fiber.middlewaresOf, stackOf. rewrite list_lookup_fmap.
  by destruct (Fiber.adapters σ !! b).
Qed.

Lemma wf_Fiber_Group (σ : Fiber.Store W R C) a prefix x :
  wfFiber σ → Fiber.adapters σ !! a = Some x →
  ∃ σ', Fiber.Group a prefix σ = (Returned (length (Fiber.adapters σ)), σ')
        ∧ wfFiber σ'
        ∧ Fiber.middlewaresOf σ' (length (Fiber.adapters σ))
          = Fiber.middlewaresOf σ a
        ∧ (∀ b, b < length (Fiber.adapters σ) →
             Fiber.middlewaresOf σ' b = Fiber.middlewaresOf σ b).
Proof.
  intros Hwf Ha. eexists. split.
  { unfold Fiber.Group, bind, Fiber.load, Fiber.withArrays, Fiber.new, make.
    rewrite Ha. reflexivity. }
  assert ((Fiber.Middlewares <$> Fiber.adapters σ) !! a
          = Some (Fiber.Middlewares x)) as Hs
    by (by rewrite list_lookup_fmap, Ha).
  destruct (group_owners None _ _ _ _ Hwf Hs) as (Hwf' & Hnew & Hold).
  rewrite length_fmap in Hnew, Hold.
  unfold wfFiber. setoid_rewrite Fiber_middlewaresOf_stackOf.
  cbn [Fiber.arrays Fiber.adapters]. rewrite fmap_app. cbn [fmap list_fmap].
  done.
Qed.

Lemma wf_Fiber_Use (σ : Fiber.Store W R C) a (f : MiddlewareFn W) x :
  wfFiber σ → Fiber.adapters σ !! a = Some x →
  ∃ σ', Fiber.Use a (Some f) σ = (Returned (), σ')
        ∧ wfFiber σ'
        ∧ Fiber.middlewaresOf σ' a = Fiber.middlewaresOf σ a ++ [Some f]
        ∧ (∀ b, b ≠ a → Fiber.middlewaresOf σ' b = Fiber.middlewaresOf σ b).
Proof.
  intros Hwf Ha.
  exists {| Fiber.arrays :=
              (append None (Fiber.Middlewares x) (Some f) (Fiber.arrays σ)).2;
            Fiber.adapters :=
              <[a := {| Fiber.Router := Fiber.Router x;
                        Fiber.Middlewares :=
                          (append None (Fiber.Middlewares x) (Some f)
                             (Fiber.arrays σ)).1 |}]> (Fiber.adapters σ);
            Fiber.added := Fiber.added σ |}.
  split.
  { unfold Fiber.Use, bind, Fiber.load, Fiber.withArrays, modify.
    rewrite Ha.
    by destruct (append None (Fiber.Middlewares x) (Some f) (Fiber.arrays σ)). }
  assert ((Fiber.Middlewares <$> Fiber.adapters σ) !! a
          = Some (Fiber.Middlewares x)) as Hs
    by (by rewrite list_lookup_fmap, Ha).
  destruct (use_owners None _ _ _ _ (Some f) Hwf Hs) as (Hwf' & Hown & Hother).
  unfold wfFiber. setoid_rewrite Fiber_middlewaresOf_stackOf.
  cbn [Fiber.arrays Fiber.adapters]. rewrite list_fmap_insert.
  done.
Qed.

End fiber_isolation.

Section copy_on_branch.
Context {W R C : Type} `{Fiber.Engine W R C}.

(** C3: the child that Group makes starts with a copy of the parent's
    middlewares, in an array of its own.  From then on, through any set-up
    code, the stack of a router is what it was plus the middlewares added to
    that router with Use, in order: what is added to the child is not in
    the stack of the parent or of a sibling, made before or after, and what
    is added to the parent is not in the stack of the child; a sibling made
    later starts from the parent's stack of that moment.  A route
    registered on a router is wrapped by the onion of that router's stack.
    The Fiber adapter copies and appends the same way (and ignores a nil
    middleware). *)
Theorem group_middlewares_are_copied :
  (∀ (σ σ1 σ2 : Mock.Store W) g sub r c cs,
     wf σ → Mock.routers σ !! g = Some r →
     Mock.Group g sub σ = (Returned c, σ1) →
     Mock.setup cs σ1 = (Returned (), σ2) →
     c = length (Mock.routers σ)
     ∧ Mock.middlewaresOf σ1 c = Mock.middlewaresOf σ g
     ∧ Mock.middlewaresOf σ2 c = Mock.middlewaresOf σ g ++ usesOn c cs
     ∧ (∀ b, b < length (Mock.routers σ) →
          Mock.middlewaresOf σ2 b = Mock.middlewaresOf σ b ++ usesOn b cs)
     ∧ wf σ2)
  ∧ (∀ (σ σ1 σa σb σ2 : Mock.Store W) g sub sub' r c c' cs1 cs2,
       wf σ → Mock.routers σ !! g = Some r →
       Mock.Group g sub σ = (Returned c, σ1) →
       Mock.setup cs1 σ1 = (Returned (), σa) →
       Mock.Group g sub' σa = (Returned c', σb) →
       Mock.setup cs2 σb = (Returned (), σ2) →
       Mock.middlewaresOf σ2 c'
       = Mock.middlewaresOf σ g ++ usesOn g cs1 ++ usesOn c' cs2
       ∧ Mock.middlewaresOf σ2 c
         = Mock.middlewaresOf σ g ++ usesOn c cs1 ++ usesOn c cs2
       ∧ Mock.middlewaresOf σ2 g
         = Mock.middlewaresOf σ g ++ usesOn g cs1 ++ usesOn g cs2)
  ∧ (∀ (σ σ' : Mock.Store W) cs,
       wf σ → Mock.setup cs σ = (Returned (), σ') →
       wf σ'
       ∧ (∀ b, b < length (Mock.routers σ) →
            Mock.middlewaresOf σ' b = Mock.middlewaresOf σ b ++ usesOn b cs))
  ∧ (∀ (σ : Mock.Store W) m mw r,
       wf σ → Mock.routers σ !! m = Some r →
       ∃ σ', Mock.Use m mw σ = (Returned (), σ')
             ∧ Mock.middlewaresOf σ' m = Mock.middlewaresOf σ m ++ [mw]
             ∧ (∀ b, b ≠ m → Mock.middlewaresOf σ' b = Mock.middlewaresOf σ b))
  ∧ (∀ (σ : Mock.Store W) m method path (h g : Handler W) r t,
       wf σ → Mock.routers σ !! m = Some r →
       Mock.tables σ !! Mock.Handlers r = Some t →
       onion (Mock.middlewaresOf σ m) h = Returned g →
       ∃ σ', Mock.register m method path h σ = (Returned (), σ')
             ∧ Mock.handlersOf σ' m
               !! (method +:+ " " +:+ Mock.prefix r +:+ path) = Some g)
  ∧ wf (Mock.emptyStore (W := W))
  ∧ (∀ σ : Mock.Store W, wf σ → wf (Mock.NewMockRouter σ).2)
  ∧ (∀ (σ : Fiber.Store W R C) a prefix x,
       wfFiber σ → Fiber.adapters σ !! a = Some x →
       ∃ σ', Fiber.Group a prefix σ = (Returned (length (Fiber.adapters σ)), σ')
             ∧ wfFiber σ'
             ∧ Fiber.middlewaresOf σ' (length (Fiber.adapters σ))
               = Fiber.middlewaresOf σ a
             ∧ (∀ b, b < length (Fiber.adapters σ) →
                  Fiber.middlewaresOf σ' b = Fiber.middlewaresOf σ b))
  ∧ (∀ (σ : Fiber.Store W R C) a (f : MiddlewareFn W) x,
       wfFiber σ → Fiber.adapters σ !! a = Some x →
       ∃ σ', Fiber.Use a (Some f) σ = (Returned (), σ')
             ∧ wfFiber σ'
             ∧ Fiber.middlewaresOf σ' a = Fiber.middlewaresOf σ a ++ [Some f]
             ∧ (∀ b, b ≠ a → Fiber.middlewaresOf σ' b = Fiber.middlewaresOf σ b))
  ∧ (∀ (σ : Fiber.Store W R C) a, Fiber.Use a None σ = (Returned (), σ)).
Proof.
  split_and!.
  - intros σ σ1 σ2 g sub r c cs Hwf Hg Hgroup Hsetup.
    destruct (wf_Group σ g sub r Hwf Hg)
      as (σ1' & Hrun & Hwf1 & Hlen1 & Hcopy & Hold).
    rewrite Hrun in Hgroup. injection Hgroup as <- <-.
    destruct (wf_setup cs _ _ Hwf1 Hsetup) as (Hwf2 & _ & Hstack).
    split_and!; [done|done| | |done].
    + rewrite Hstack by lia. by rewrite Hcopy.
    + intros b Hb. rewrite Hstack by lia. by rewrite Hold.
  - intros σ σ1 σa σb σ2 g sub sub' r c c' cs1 cs2
      Hwf Hg Hgroup Hsetup1 Hgroup' Hsetup2.
    pose proof (lookup_lt_Some _ _ _ Hg) as Hglt.
    destruct (wf_Group σ g sub r Hwf Hg)
      as (σ1' & Hrun & Hwf1 & Hlen1 & Hcopy & Hold).
    rewrite Hrun in Hgroup. injection Hgroup as <- <-.
    destruct (wf_setup cs1 _ _ Hwf1 Hsetup1) as (Hwfa & Hlena & Hstacka).
    destruct (Mock.routers σa !! g) as [ra|] eqn:Hga;
      [|apply lookup_ge_None in Hga; lia].
    destruct (wf_Group σa g sub' ra Hwfa Hga)
      as (σb' & Hrun' & Hwfb & Hlenb & Hcopy' & Hold').
    rewrite Hrun' in Hgroup'. injection Hgroup' as <- <-.
    destruct (wf_setup cs2 _ _ Hwfb Hsetup2) as (Hwf2 & _ & Hstack2).
    split_and!.
    + rewrite Hstack2, Hcopy', Hstacka, Hold by lia.
      by rewrite <- (assoc_L (++)).
    + rewrite Hstack2, Hold', Hstacka, Hcopy by lia.
      by rewrite <- (assoc_L (++)).
    + rewrite Hstack2, Hold', Hstacka, Hold by lia.
      by rewrite <- (assoc_L (++)).
  - intros σ σ' cs Hwf Hsetup.
    destruct (wf_setup cs _ _ Hwf Hsetup) as (Hwf' & _ & Hstack). done.
  - intros σ m mw r Hwf Hm.
    destruct (wf_Use σ m mw r Hwf Hm) as (σ' & Hrun & _ & _ & Hown & Hother).
    by exists σ'.
  - intros σ m method path h g r t. apply Mock_register_run.
  - apply wf_emptyStore.
  - intros σ Hwf. by destruct (wf_NewMockRouter σ Hwf) as (σ' & -> & Hwf' & _).
  - apply wf_Fiber_Group.
  - apply wf_Fiber_Use.
  - done.
Qed.

End copy_on_branch.

Lemma pair_eta {A B} (p : A * B) (a : A) : p.1 = a → p = (a, p.2).
Proof. destruct p. simpl. by intros ->. Qed.

Lemma group_middlewares_are_copied_witness :
  let σ0 := (Mock.NewMockRouter (W := ResponseRecorder) Mock.emptyStore).2 in
  let σ :=
    (Mock.setup
       [Mock.CallUse 0 (Some (Script.middlewareOf Example.poweredBy))] σ0).2 in
  let σ1 := (Mock.Group 0 "/protected" σ).2 in
  let cs :=
    [Mock.CallUse 1 (Some (Script.middlewareOf Example.firewall));
     Mock.CallRegister 0 "GET" "/open"
       (Script.handlerOf (Example.say 200 "open"))] in
  let σ2 := (Mock.setup cs σ1).2 in
  length (Mock.middlewaresOf σ2 0) = 1 ∧ length (Mock.middlewaresOf σ2 1) = 2.
Proof.
  intros σ0 σ σ1 cs σ2.
  destruct (group_middlewares_are_copied (W := ResponseRecorder)
              (R := string) (C := Example.SimpleCtx))
    as (Hhead & _ & Hsetup & _ & _ & Hempty & Hnew & _).
  assert (wf σ0) as Hwf0 by apply Hnew, Hempty.
  assert (wf σ) as Hwf.
  { eapply (Hsetup σ0 σ), pair_eta; [exact Hwf0|]. vm_compute. reflexivity. }
  destruct (Mock.routers σ !! 0) as [r|] eqn:Hr;
    [|vm_compute in Hr; discriminate Hr].
  destruct (Hhead σ σ1 σ2 0 "/protected" r 1 cs Hwf Hr)
    as (_ & _ & Hchild & Hparent & _).
  - apply pair_eta. vm_compute. reflexivity.
  - apply pair_eta. vm_compute. reflexivity.
  - rewrite Hchild, (Hparent 0) by (vm_compute; lia).
    vm_compute. split; reflexivity.
Defined.

(** ** Aborting a chain *)

Section abort.
Context {W : Type} `{ResponseWriter W}.
Import Script.

(** Whether a body reaches a call of its continuation does not depend on
    the continuation. *)
Lemma invocations_zero (next next' : Handler W) (c : Code) (w : W) :
  invocations next c w = 0 → invocations next' c w = 0.
Proof.
  revert w. induction c as [| |k v rest IH|k rest IH|b rest IH|code rest IH|r rest IH];
    intros w; simpl; try done; try apply IH.
  by destruct (next r w) as [[[]|?] ?].
Qed.

(** A body that does not call its continuation runs the same with any. *)
Lemma exec_aborting (next next' : Handler W) (c : Code) (w : W) :
  invocations next c w = 0 → exec next c w = exec next' c w.
Proof.
  revert w. induction c as [| |k v rest IH|k rest IH|b rest IH|code rest IH|r rest IH];
    intros w; simpl; try done; try apply IH.
  by destruct (next r w) as [[[]|?] ?].
Qed.

(** Continuations that agree give the same run. *)
Lemma exec_ext (next next' : Handler W) (c : Code) (w : W) :
  (∀ r w, next r w = next' r w) → exec next c w = exec next' c w.
Proof.
  intros Hnext. revert w.
  induction c as [| |k v rest IH|k rest IH|b rest IH|code rest IH|r rest IH];
    intros w; simpl; try done; try apply IH.
  unfold bind. rewrite Hnext. destruct (next' r w) as [[[]|?] w']; [|done].
  apply IH.
Qed.

Lemma onion_scripts_ext (bodies : list (Request → Code)) (k k' g g' : Handler W) :
  (∀ r w, k r w = k' r w) →
  onion ((λ b, Some (middlewareOf b)) <$> bodies) k = Returned g →
  onion ((λ b, Some (middlewareOf b)) <$> bodies) k' = Returned g' →
  ∀ r w, g r w = g' r w.
Proof.
  revert g g'. induction bodies as [|b bodies IH]; intros g g' Hk.
  - by intros [= <-] [= <-].
  - rewrite !fmap_cons. unfold onion. cbn [foldr].
    fold (onion ((λ b, Some (middlewareOf b)) <$> bodies) k).
    fold (onion ((λ b, Some (middlewareOf b)) <$> bodies) k').
    destruct (onion _ k) as [g1|] eqn:H1; [|done].
    destruct (onion _ k') as [g1'|] eqn:H1'; [|done].
    simpl. intros [= <-] [= <-] r w. unfold middlewareOf.
    apply exec_ext. by apply IH.
Qed.

End abort.

Section gin_abort.
Context {C : Type} `{Gin.Context C}.
Import Script.

(** [called] is true after the run exactly when it was true before or the
    body has invoked [finalHandler]. *)
Lemma exec_finalHandler (code : Code) (called : bool) (c : C) :
  exec Gin.finalHandler code (called, c)
  = ((exec ginNext code c).1,
     (called || bool_decide (0 < invocations ginNext code c),
      (exec ginNext code c).2)).
Proof.
  revert called c.
  induction code as [| |k v rest IH|k rest IH|b rest IH|code rest IH|r rest IH];
    intros called c; cbn [exec invocations].
  - unfold ret. simpl. by rewrite orb_false_r.
  - unfold panic. simpl. by rewrite orb_false_r.
  - apply IH.
  - apply IH.
  - apply IH.
  - apply IH.
  - unfold bind, Gin.finalHandler, ginNext. cbn [fst snd].
    destruct (Gin.Next (Gin.SetRequest r c)) as [[[]|v] c'].
    + rewrite IH. cbn [orb]. simpl. by rewrite orb_true_r.
    + simpl. by rewrite orb_true_r.
Qed.

End gin_abort.

Section short_circuit.
Context {W C : Type} `{ResponseWriter W} `{Gin.Context C}.
Import Script.

(** C2: when a middleware of a chain returns without invoking the
    continuation it was given, the chain from that middleware inwards
    answers what the middleware answers by itself, whatever the terminal
    handler and the layers inner to it are: they play no part in the run;
    the whole chain answers what the layers outer to it make of that.  A
    handler registered on the mock router is such a chain.  In the Gin
    adapter, when the middleware returns, Abort is applied to the context
    exactly when the middleware has not invoked its continuation. *)
Theorem abort_skips_inner_layers :
  (∀ (body : Request → Code) (inner inner' : list (Middleware W))
     (h h' g g' : Handler W) (r : Request) (w : W),
     onion (Some (middlewareOf body) :: inner) h = Returned g →
     onion (Some (middlewareOf body) :: inner') h' = Returned g' →
     aborts body r w →
     g r w = ownResponse body r w ∧ g' r w = g r w)
  ∧ (∀ (outer : list (Request → Code)) (body : Request → Code)
       (inner inner' : list (Middleware W)) (h h' g g' : Handler W),
       onion (((λ b, Some (middlewareOf b)) <$> outer) ++
              Some (middlewareOf body) :: inner) h = Returned g →
       onion (((λ b, Some (middlewareOf b)) <$> outer) ++
              Some (middlewareOf body) :: inner') h' = Returned g' →
       (∀ r w, aborts body r w) →
       (∀ r w, g r w = g' r w)
       ∧ ∃ g0, onion ((λ b, Some (middlewareOf b)) <$> outer)
                 (ownResponse body) = Returned g0
               ∧ ∀ r w, g r w = g0 r w)
  ∧ (∀ (σ : Mock.Store W) m method path (h : Handler W) rt t
       (body : Request → Code) (inner : list (MiddlewareFn W))
       (r : Request) (w : W),
       wf σ → Mock.routers σ !! m = Some rt →
       Mock.tables σ !! Mock.Handlers rt = Some t →
       Mock.middlewaresOf σ m = Some (middlewareOf body) :: (Some <$> inner) →
       aborts body r w →
       ∃ σ' g, Mock.register m method path h σ = (Returned (), σ')
               ∧ Mock.handlersOf σ' m
                 !! (method +:+ " " +:+ Mock.prefix rt +:+ path) = Some g
               ∧ g r w = ownResponse body r w)
  ∧ (∀ (body : Request → Code) (c : C),
       let r0 := WithContext (Gin.GetRequest c)
                   (WithValue (Ctx (Gin.GetRequest c)) Gin.ginParamsKey
                      (APointer (Gin.Self c))) in
       Gin.Use (Some (middlewareOf body)) c
       = match exec ginNext (body r0) c with
         | (Returned _, c') =>
             (Returned (),
              if decide (invocations ginNext (body r0) c = 0)
              then Gin.Abort c' else c')
         | (Panicked v, c') => (Panicked v, c')
         end).
Proof.
  assert (∀ (body : Request → Code) (inner : list (Middleware W))
            (h g : Handler W) (r : Request) (w : W),
            onion (Some (middlewareOf body) :: inner) h = Returned g →
            aborts body r w →
            g r w = ownResponse body r w) as Hsub.
  { intros body inner h g r w. unfold onion. cbn [foldr].
    fold (onion inner h). destruct (onion inner h) as [g1|]; [|done].
    simpl. intros [= <-] Hzero. unfold middlewareOf, ownResponse.
    apply exec_aborting. by apply (invocations_zero (λ _, ret ())). }
  split_and!.
  - intros body inner inner' h h' g g' r w Hg Hg' Hzero.
    rewrite (Hsub _ _ _ _ r w Hg Hzero). split; [done|].
    by apply (Hsub _ _ _ _ r w Hg').
  - intros outer body inner inner' h h' g g'.
    rewrite !onion_app. intros Hg Hg' Hzero.
    destruct (onion (Some (middlewareOf body) :: inner) h) as [k|] eqn:Hk;
      [|done].
    destruct (onion (Some (middlewareOf body) :: inner') h') as [k'|] eqn:Hk';
      [|done].
    simpl in Hg, Hg'.
    assert (∀ r w, k r w = ownResponse body r w) as Hkown
      by (intros r w; by apply (Hsub _ _ _ _ r w Hk)).
    assert (∀ r w, k' r w = ownResponse body r w) as Hkown'
      by (intros r w; by apply (Hsub _ _ _ _ r w Hk')).
    assert (∃ g0, onion ((λ b, Some (middlewareOf b)) <$> outer)
                    (ownResponse body) = Returned g0) as [g0 Hg0].
    { clear. induction outer as [|b outer [g1 IH]]; [by eexists|].
      rewrite fmap_cons. unfold onion in *. cbn [foldr]. rewrite IH.
      by eexists. }
    split.
    + intros r w. eapply onion_scripts_ext; [|exact Hg|exact Hg'].
      intros r' w'. by rewrite Hkown, Hkown'.
    + exists g0. split; [done|]. intros r w.
      by eapply onion_scripts_ext; [|exact Hg|exact Hg0].
  - intros σ m method path h rt t body inner r w Hwf Hm Ht Hstack Hzero.
    destruct (onion (Mock.middlewaresOf σ m) h) as [g|] eqn:Hg.
    + destruct (Mock_register_run σ m method path h g rt t Hwf Hm Ht Hg)
        as (σ' & Hrun & Hlook).
      exists σ', g. split_and!; [done|done|].
      rewrite Hstack in Hg. by apply (Hsub _ _ _ _ r w Hg).
    + rewrite Hstack in Hg. exfalso. revert Hg.
      unfold onion. cbn [foldr]. fold (onion (Some <$> inner) h).
      by rewrite onion_Some.
  - intros body c r0. unfold Gin.Use. cbn [callMw].
    unfold middlewareOf at 1. fold r0. rewrite exec_finalHandler.
    destruct (exec ginNext (body r0) c) as [[[]|v] c'] eqn:Hexec;
      cbn [fst snd orb]; [|done].
    destruct (decide (invocations ginNext (body r0) c = 0)) as [Hz|Hnz].
    + rewrite bool_decide_eq_false_2 by lia. done.
    + rewrite bool_decide_eq_true_2 by lia. done.
Qed.

End short_circuit.

Lemma abort_skips_inner_layers_witness :
  Script.middlewareOf Example.firewall
    (Script.handlerOf (Example.say 200 "dashboard_data"))
    (NewRequest "GET" "/protected/dashboard") NewRecorder
  = (Returned (),
     {| Code := 403; HeaderMap := ∅; Body := "bloqueado";
        wroteHeader := true |})
  ∧ Example.sgAborted
      (Gin.Use (Some (Script.middlewareOf Example.firewall))
         {| Example.sgRequest := NewRequest "GET" "/protected/dashboard";
            Example.sgWriter := NewRecorder;
            Example.sgAborted := false;
            Example.sgRest :=
              Script.handlerOf (Example.say 200 "dashboard_data") |}).2
    = true.
Proof.
  destruct (abort_skips_inner_layers (W := ResponseRecorder)
              (C := Example.SimpleGin)) as (Hsub & _ & _ & Hgin).
  split.
  - pose (h := Script.handlerOf (W := ResponseRecorder)
                 (Example.say 200 "dashboard_data")).
    assert (aborts Example.firewall (NewRequest "GET" "/protected/dashboard")
              NewRecorder) as Habort
      by (unfold aborts; vm_compute; reflexivity).
    destruct (Hsub Example.firewall [] [] h h
                (Script.middlewareOf Example.firewall h)
                (Script.middlewareOf Example.firewall h)
                (NewRequest "GET" "/protected/dashboard") NewRecorder
                eq_refl eq_refl Habort) as [Hown _].
    etransitivity; [exact Hown|]. vm_compute. reflexivity.
  - rewrite Hgin. vm_compute. reflexivity.
Defined.

(** ** The scenarios of the test suite, on the mock router *)

(** Middleware_Firewall: without the flag the firewall answers 403 and the
    dashboard handler does not run; with it the handler answers. *)
Example firewall_blocks :
  let handlers := Mock.handlersOf Example.universal 0 in
  let blocked :=
    (Mock.ServeHTTP handlers (map_to_list handlers)
       (NewRequest "GET" "/protected/dashboard") NewRecorder).2 in
  let allowed :=
    (Mock.ServeHTTP handlers (map_to_list handlers)
       (mkRequest "GET" "/protected/dashboard" "admin=true" ∅ Background)
       NewRecorder).2 in
  (Code blocked, Body blocked, HeaderGet "X-Powered-By" blocked)
  = (403, "bloqueado", "Transwarp")
  ∧ (Code allowed, Body allowed) = (200, "dashboard_data").
Proof. vm_compute. split; reflexivity. Qed.

(** Status_And_Collision and Handle_All_Methods. *)
Example static_beats_dynamic :
  let handlers := Mock.handlersOf Example.universal 0 in
  let serve r := (Mock.ServeHTTP handlers (map_to_list handlers) r NewRecorder).2 in
  Body (serve (NewRequest "GET" "/files/config")) = "file_config"
  ∧ Code (serve (NewRequest "GET" "/files/document.pdf")) = 201
  ∧ Body (serve (NewRequest "GET" "/api/admin/settings")) = "static_settings"
  ∧ Body (serve (NewRequest "PATCH" "/universal")) = "universal_PATCH"
  ∧ Code (serve (NewRequest "GET" "/nowhere")) = 404.
Proof. vm_compute. repeat split; reflexivity. Qed.

(** * Further properties of the code *)

(** ** Chain and nil middlewares *)

Section chain_more.
Context {W : Type}.

Lemma onion_Panicked (mws : list (Middleware W)) (h : Handler W) v :
  onion mws h = Panicked v →
  v = "invalid memory address or nil pointer dereference".
Proof.
  revert v. induction mws as [|m mws IH]; intros v; [done|].
  unfold onion. cbn [foldr]. fold (onion mws h).
  destruct (onion mws h) as [g|v'] eqn:Hg; simpl.
  - destruct m; simpl; congruence.
  - intros [= <-]. by apply IH.
Qed.

Lemma onion_nil_panics (mws : list (Middleware W)) (h : Handler W) :
  None ∈ mws →
  onion mws h = Panicked "invalid memory address or nil pointer dereference".
Proof.
  induction mws as [|m mws IH]; intros Hin.
  - by apply elem_of_nil in Hin.
  - unfold onion. cbn [foldr]. fold (onion mws h).
    destruct (onion mws h) as [g|v] eqn:Hg; simpl.
    + apply elem_of_cons in Hin as [<-|Hin]; [done|].
      by specialize (IH Hin).
    + by rewrite (onion_Panicked _ _ _ Hg).
Qed.

Lemma nil_free_fmap (mws : list (Middleware W)) :
  None ∉ mws → ∃ fs : list (MiddlewareFn W), mws = Some <$> fs.
Proof.
  induction mws as [|m mws IH]; intros Hnot.
  - by exists [].
  - destruct IH as [fs ->].
    { intros Hin. apply Hnot. by right. }
    destruct m as [f|]; [|exfalso; apply Hnot; by left].
    by exists (f :: fs).
Qed.



End chain_more.


(** ** The mock router: tables, prefixes and registration *)

Section mock_more.
Context {W : Type} `{ResponseWriter W}.
Import Strings Slices.

Lemma app_inv_tail_string (s t u : string) : s +:+ u = t +:+ u → s = t.
Proof.
  intros Heq. rewrite <- (TrimSuffix_app s u), Heq. apply TrimSuffix_app.
Qed.

Lemma Mock_stack_length (σ : Mock.Store W) m r :
  wf σ → Mock.routers σ !! m = Some r →
  length (view (Mock.middlewares r) (Mock.arrays σ))
  = len (Mock.middlewares r).
Proof.
  intros [Hok _] Hm. apply sliceOk_view_length.
  apply (Hok m). by rewrite list_lookup_fmap, Hm.
Qed.

Lemma Mock_register_state (σ : Mock.Store W) m method path (h g : Handler W) r t :
  wf σ →
  Mock.routers σ !! m = Some r →
  Mock.tables σ !! Mock.Handlers r = Some t →
  onion (Mock.middlewaresOf σ m) h = Returned g →
  Mock.register m method path h σ
  = (Returned (),
     {| Mock.arrays := Mock.arrays σ;
        Mock.tables :=
          alter (λ t, <[method +:+ " " +:+ Mock.prefix r +:+ path := g]> t)
                (Mock.Handlers r) (Mock.tables σ);
        Mock.routers := Mock.routers σ |}).
Proof.
  intros Hwf Hm Ht Hg.
  pose proof (Mock_stack_length σ m r Hwf Hm) as Hlen.
  unfold Mock.middlewaresOf in Hg. rewrite Hm in Hg.
  unfold Mock.register, bind, Mock.load, gets, liftOutcome.
  by rewrite Hm, <- Hlen, wrapDown_onion, Hg, Ht.
Qed.

Lemma Mock_register_nil (σ : Mock.Store W) m method path (h : Handler W) r :
  wf σ →
  Mock.routers σ !! m = Some r →
  None ∈ Mock.middlewaresOf σ m →
  Mock.register m method path h σ
  = (Panicked "invalid memory address or nil pointer dereference", σ).
Proof.
  intros Hwf Hm Hnil.
  pose proof (Mock_stack_length σ m r Hwf Hm) as Hlen.
  unfold Mock.middlewaresOf in Hnil. rewrite Hm in Hnil.
  unfold Mock.register, bind, Mock.load, gets, liftOutcome.
  by rewrite Hm, <- Hlen, wrapDown_onion, (onion_nil_panics _ _ Hnil).
Qed.

Lemma Mock_call_keeps_router (σ σ' : Mock.Store W) c b r :
  Mock.call c σ = (Returned (), σ') →
  Mock.routers σ !! b = Some r →
  ∃ r', Mock.routers σ' !! b = Some r'
        ∧ Mock.Handlers r' = Mock.Handlers r
        ∧ Mock.prefix r' = Mock.prefix r.
Proof.
  intros Hc Hb. destruct c as [m path|m mw|m method path h|m pattern h];
    cbn [Mock.call] in Hc.
  - unfold bind in Hc.
    destruct (Mock.routers σ !! m) as [r0|] eqn:Hm.
    + rewrite (Mock_Group_run σ m path r0 Hm) in Hc. injection Hc as <-.
      exists r. cbn [Mock.routers]. split; [|done].
      by apply lookup_app_l_Some.
    + destruct (Mock_Group_panics σ m path Hm) as [v Hv].
      by rewrite Hv in Hc.
  - destruct (Mock.routers σ !! m) as [r0|] eqn:Hm.
    + rewrite (Mock_Use_run σ m mw r0 Hm) in Hc. injection Hc as <-.
      cbn [Mock.routers]. destruct (decide (b = m)) as [->|Hne].
      * eexists. split.
        { apply list_lookup_insert_eq. by eapply lookup_lt_Some. }
        simpl. by simplify_eq.
      * exists r. split; [|done]. by rewrite list_lookup_insert_ne.
    + destruct (Mock_Use_panics σ m mw Hm) as [v Hv]. by rewrite Hv in Hc.
  - apply Mock_register_frame in Hc as [_ ->]. by exists r.
  - apply Mock_registers_frame in Hc as [_ ->]. by exists r.
Qed.

Lemma Mock_setup_keeps_router (cs : list (Mock.Call (W := W)))
    (σ σ' : Mock.Store W) b r :
  Mock.setup cs σ = (Returned (), σ') →
  Mock.routers σ !! b = Some r →
  ∃ r', Mock.routers σ' !! b = Some r'
        ∧ Mock.Handlers r' = Mock.Handlers r
        ∧ Mock.prefix r' = Mock.prefix r.
Proof.
  revert σ r. induction cs as [|c cs IH]; intros σ r.
  - intros [= <-] Hb. by exists r.
  - unfold Mock.setup. cbn [foldr]. fold (Mock.setup cs). unfold bind at 1.
    destruct (Mock.call c σ) as [[[]|v] σ1] eqn:Hc; [|done].
    intros Hrest Hb.
    destruct (Mock_call_keeps_router _ _ _ _ _ Hc Hb) as (r1 & Hb1 & HH & Hp).
    destruct (IH _ _ Hrest Hb1) as (r' & Hb' & HH' & Hp').
    exists r'. split; [done|]. split; congruence.
Qed.

(** X4: A group and the router it was made from dispatch on one table of
    handlers, and each keeps the prefix it was created with, whatever
    calls of [Group], [Use], the method functions and [HandleFunc] follow
    on any router. *)
Theorem group_shares_table (σ σ1 σ2 : Mock.Store W) g c sub r
    (cs : list (Mock.Call (W := W))) :
  Mock.routers σ !! g = Some r →
  Mock.Group g sub σ = (Returned c, σ1) →
  Mock.setup cs σ1 = (Returned (), σ2) →
  Mock.handlersOf σ2 c = Mock.handlersOf σ2 g
  ∧ Mock.prefixOf σ2 c = Mock.prefix r +:+ sub
  ∧ Mock.prefixOf σ2 g = Mock.prefix r.
Proof.
  intros Hg HG Hcs. rewrite (Mock_Group_run σ g sub r Hg) in HG.
  injection HG as <- <-.
  match type of Hcs with Mock.setup cs ?s = _ => set (σ1 := s) in * end.
  assert (Mock.routers σ1 !! g = Some r) as Hg1.
  { subst σ1. cbn [Mock.routers]. by apply lookup_app_l_Some. }
  assert (∃ rc, Mock.routers σ1 !! length (Mock.routers σ) = Some rc
                ∧ Mock.Handlers rc = Mock.Handlers r
                ∧ Mock.prefix rc = Mock.prefix r +:+ sub) as (rc & Hc1 & HcH & Hcp).
  { subst σ1. cbn [Mock.routers]. eexists. split.
    - rewrite lookup_app_r by lia. by rewrite Nat.sub_diag.
    - done. }
  destruct (Mock_setup_keeps_router _ _ _ _ _ Hcs Hg1) as (rg' & Hg2 & HgH & Hgp).
  destruct (Mock_setup_keeps_router _ _ _ _ _ Hcs Hc1) as (rc' & Hc2 & HcH' & Hcp').
  unfold Mock.handlersOf, Mock.prefixOf. rewrite Hg2, Hc2. simpl.
  split_and!; congruence.
Qed.

(** X6: A call of [register], returning or panicking, leaves every router's
    middlewares and prefix as they were, and changes no entry of any table
    but the one of its own key. *)
Theorem register_touches_one_key (σ σ' : Mock.Store W) m method path h r o :
  Mock.routers σ !! m = Some r →
  Mock.register m method path h σ = (o, σ') →
  (∀ b, Mock.middlewaresOf σ' b = Mock.middlewaresOf σ b
        ∧ Mock.prefixOf σ' b = Mock.prefixOf σ b)
  ∧ (∀ b key, key ≠ method +:+ " " +:+ Mock.prefix r +:+ path →
        Mock.handlersOf σ' b !! key = Mock.handlersOf σ b !! key).
Proof.
  intros Hm Hreg.
  pose proof (Mock_register_frame _ _ _ _ _ _ _ Hreg) as [Harr Hrou].
  split.
  - intros b. unfold Mock.middlewaresOf, Mock.prefixOf. by rewrite Harr, Hrou.
  - intros b key Hkey. unfold Mock.handlersOf. rewrite Hrou.
    destruct (Mock.routers σ !! b) as [rb|]; [simpl|done].
    revert Hreg. unfold Mock.register, bind, Mock.load, gets, liftOutcome.
    rewrite Hm. destruct (wrapDown _ _ h) as [f|v]; [|by intros [= _ <-]].
    destruct (Mock.tables σ !! Mock.Handlers r) as [t|] eqn:Ht;
      [|by intros [= _ <-]].
    intros [= _ <-]. cbn [Mock.tables].
    destruct (decide (Mock.Handlers rb = Mock.Handlers r)) as [->|Hne].
    + rewrite list_lookup_alter_eq, Ht. simpl. by rewrite lookup_insert_ne.
    + by rewrite list_lookup_alter_ne.
Qed.

(** X9: [Use] accepts a nil middleware, and from then on the router is of no
    use: every registration on it, by a method function or by
    [HandleFunc], panics with a nil dereference and stores nothing, and so
    does every registration on a group made from it afterwards. *)
Theorem Use_nil_breaks_registration (σ : Mock.Store W) m r :
  wf σ →
  Mock.routers σ !! m = Some r →
  ∃ σ1, Mock.Use m None σ = (Returned (), σ1)
    ∧ (∀ method path h,
         Mock.register m method path h σ1
         = (Panicked "invalid memory address or nil pointer dereference", σ1))
    ∧ (∀ pattern h,
         Mock.HandleFunc m pattern h σ1
         = (Panicked "invalid memory address or nil pointer dereference", σ1))
    ∧ (∀ sub, ∃ c σ2,
         Mock.Group m sub σ1 = (Returned c, σ2)
         ∧ ∀ method path h,
             Mock.register c method path h σ2
             = (Panicked "invalid memory address or nil pointer dereference",
                σ2)).
Proof.
  intros Hwf Hm.
  destruct (wf_Use σ m None r Hwf Hm) as (σ1 & HU & Hwf1 & Hlen & Hst & _).
  exists σ1. split; [done|].
  assert (None ∈ Mock.middlewaresOf σ1 m) as Hnil.
  { rewrite Hst. apply elem_of_app. right. apply elem_of_cons. by left. }
  assert (∃ r1, Mock.routers σ1 !! m = Some r1) as [r1 Hm1].
  { apply lookup_lt_is_Some. rewrite Hlen. by eapply lookup_lt_Some. }
  assert (∀ method path h,
    Mock.register m method path h σ1
    = (Panicked "invalid memory address or nil pointer dereference", σ1))
    as Hreg.
  { intros. by eapply Mock_register_nil. }
  split_and!.
  - done.
  - intros pattern h. unfold Mock.HandleFunc, Mock.mockMethods.
    cbn [foldr]. unfold bind at 1. by rewrite Hreg.
  - intros sub.
    destruct (wf_Group σ1 m sub r1 Hwf1 Hm1) as (σ2 & HG & Hwf2 & Hlen2 & Hst2 & _).
    eexists _, σ2. split; [done|]. intros method path h.
    assert (∃ rc, Mock.routers σ2 !! length (Mock.routers σ1) = Some rc)
      as [rc Hc].
    { apply lookup_lt_is_Some. lia. }
    eapply Mock_register_nil; [done|done|]. by rewrite Hst2.
Qed.

Lemma Mock_registers_run (methods : list string) (σ : Mock.Store W)
    m pattern (h g : Handler W) r t :
  wf σ →
  Mock.routers σ !! m = Some r →
  Mock.tables σ !! Mock.Handlers r = Some t →
  onion (Mock.middlewaresOf σ m) h = Returned g →
  ∃ σ' t',
    foldr (λ method rest, bind (Mock.register m method pattern h) (λ _, rest))
          (ret ()) methods σ = (Returned (), σ')
    ∧ Mock.routers σ' = Mock.routers σ
    ∧ Mock.tables σ' !! Mock.Handlers r = Some t'
    ∧ (∀ method, method ∈ methods →
         t' !! (method +:+ " " +:+ Mock.prefix r +:+ pattern) = Some g)
    ∧ (∀ key, (∀ method, method ∈ methods →
                 key ≠ method +:+ " " +:+ Mock.prefix r +:+ pattern) →
         t' !! key = t !! key).
Proof.
  revert σ t. induction methods as [|method methods IH]; intros σ t Hwf Hm Ht Hg.
  - exists σ, t. split_and!; try done. intros method Hin.
    by apply elem_of_nil in Hin.
  - cbn [foldr]. unfold bind at 1.
    rewrite (Mock_register_state σ m method pattern h g r t Hwf Hm Ht Hg).
    match goal with |- context [foldr _ _ _ ?s] => set (σ1 := s) end.
    destruct (IH σ1 (<[method +:+ " " +:+ Mock.prefix r +:+ pattern := g]> t))
      as (σ' & t' & Hrun & Hrou & Ht' & Hin & Hout); try done.
    { subst σ1. cbn [Mock.tables]. by rewrite list_lookup_alter_eq, Ht. }
    exists σ', t'. split_and!; try done.
    + intros method' Hin'.
      destruct (decide (method' ∈ methods)) as [?|Hnot]; [by apply Hin|].
      apply elem_of_cons in Hin' as [->|?]; [|done].
      rewrite Hout; [apply lookup_insert_eq|].
      intros method' Hin' Heq. apply app_inv_tail_string in Heq.
      by subst.
    + intros key Hkey. rewrite Hout.
      * apply lookup_insert_ne. intros <-. eapply Hkey; [|done]. by left.
      * intros method' Hin'. apply Hkey. by right.
Qed.

(** X10: [HandleFunc] registers the handler, wrapped in the router's
    middlewares, under each of the seven methods of [mockMethods]: a
    request for the path with any of them is served by the wrapped
    handler.  No other entry of the table changes. *)
Theorem HandleFunc_serves_every_method (σ : Mock.Store W) m pattern
    (h g : Handler W) r t :
  wf σ →
  Mock.routers σ !! m = Some r →
  Mock.tables σ !! Mock.Handlers r = Some t →
  onion (Mock.middlewaresOf σ m) h = Returned g →
  ∃ σ', Mock.HandleFunc m pattern h σ = (Returned (), σ')
    ∧ (∀ order rq w,
         Method rq ∈ Mock.mockMethods →
         Path rq = Mock.prefix r +:+ pattern →
         Mock.ServeHTTP (Mock.handlersOf σ' m) order rq w = g rq w)
    ∧ (∀ key,
         (∀ method, method ∈ Mock.mockMethods →
            key ≠ method +:+ " " +:+ Mock.prefix r +:+ pattern) →
         Mock.handlersOf σ' m !! key = Mock.handlersOf σ m !! key).
Proof.
  intros Hwf Hm Ht Hg.
  destruct (Mock_registers_run Mock.mockMethods σ m pattern h g r t)
    as (σ' & t' & Hrun & Hrou & Ht' & Hin & Hout); try done.
  exists σ'. split; [done|].
  unfold Mock.handlersOf. rewrite Hrou, Hm. simpl. rewrite Ht, Ht'. simpl.
  split.
  - intros order rq w Hmeth Hpath. unfold Mock.ServeHTTP, Mock.resolve.
    by rewrite Hpath, (Hin _ Hmeth).
  - done.
Qed.

(** X5: A route registered on a group is served through the router the group
    was made from: after [g.Group(sub)] and a registration of [p] on the
    group, a request for the parent's prefix followed by [sub] and [p] is
    answered by the handler wrapped in the middlewares the parent had when
    the group was made. *)
Theorem group_route_served (σ : Mock.Store W) g sub method p
    (h composed : Handler W) r t :
  wf σ →
  Mock.routers σ !! g = Some r →
  Mock.tables σ !! Mock.Handlers r = Some t →
  onion (Mock.middlewaresOf σ g) h = Returned composed →
  ∃ c σ1 σ2,
    Mock.Group g sub σ = (Returned c, σ1)
    ∧ Mock.register c method p h σ1 = (Returned (), σ2)
    ∧ ∀ order rq w,
        Method rq = method →
        Path rq = (Mock.prefix r +:+ sub) +:+ p →
        Mock.ServeHTTP (Mock.handlersOf σ2 g) order rq w = composed rq w.
Proof.
  intros Hwf Hg Ht Hcomp.
  destruct (wf_Group σ g sub r Hwf Hg) as (σ1 & HG & Hwf1 & _ & Hst & _).
  pose proof HG as HG'. rewrite (Mock_Group_run σ g sub r Hg) in HG'.
  injection HG' as Hσ1.
  match type of Hσ1 with ?s = _ => set (σ1' := s) in * end.
  assert (Mock.routers σ1 !! g = Some r) as Hg1.
  { rewrite <- Hσ1. cbn [Mock.routers σ1']. by apply lookup_app_l_Some. }
  assert (Mock.tables σ1 = Mock.tables σ) as Htab by by rewrite <- Hσ1.
  assert (∃ rc, Mock.routers σ1 !! length (Mock.routers σ) = Some rc
                ∧ Mock.Handlers rc = Mock.Handlers r
                ∧ Mock.prefix rc = Mock.prefix r +:+ sub)
    as (rc & Hc1 & HcH & Hcp).
  { rewrite <- Hσ1. cbn [Mock.routers σ1']. eexists. split.
    - rewrite lookup_app_r by lia. by rewrite Nat.sub_diag.
    - done. }
  rewrite <- Hst in Hcomp.
  eexists _, σ1, _. split; [exact HG|]. split.
  - apply (Mock_register_state σ1 _ method p h composed rc t); try done.
    by rewrite HcH, Htab.
  - intros order rq w Hmeth Hpath.
    unfold Mock.ServeHTTP, Mock.resolve, Mock.handlersOf.
    cbn [Mock.routers Mock.tables]. rewrite Hg1. simpl.
    rewrite HcH, list_lookup_alter_eq, Htab, Ht. simpl.
    by rewrite Hmeth, Hpath, Hcp, lookup_insert_eq.
Qed.

(** *** Requests no route answers *)

Lemma SplitN2_inv (s : string) (sep : ascii) a b :
  SplitN2 s sep = [a; b] →
  s = a +:+ String sep b ∧ SplitHead s sep = a.
Proof.
  revert a. induction s as [|c s IH]; intros a; [done|].
  cbn [SplitN2 SplitHead]. destruct (Ascii.eqb c sep) eqn:Hc.
  - apply Ascii.eqb_eq in Hc as ->. by intros [= <- <-].
  - destruct (SplitN2 s sep) as [|x [|y [|]]]; try done.
    intros [= <- <-]. destruct (IH x eq_refl) as [-> ->].
    by rewrite app_cons.
Qed.

Lemma Contains_app_r (a b x : string) :
  Contains b x = true → Contains (a +:+ b) x = true.
Proof.
  intros Hb. induction a as [|c a IH]; [by rewrite app_empty_l|].
  rewrite app_cons. cbn [Contains]. rewrite IH. apply orb_true_r.
Qed.

Lemma Contains_cons (c : ascii) (b x : string) :
  Contains b x = true → Contains (String c b) x = true.
Proof. intros Hb. cbn [Contains]. rewrite Hb. apply orb_true_r. Qed.

Lemma candidate_inv (rq : Request) (k : string) :
  Mock.candidate rq k = true →
  Contains k ":" = true ∧ SplitHead k " " = Method rq.
Proof.
  unfold Mock.candidate.
  destruct (SplitN2 k " ") as [|a [|b [|]]] eqn:Hsplit; try done.
  apply SplitN2_inv in Hsplit as [-> ->].
  destruct (decide (a = Method rq)) as [->|]; [|done].
  intros [Hcolon _]%andb_true_iff. split; [|done].
  by apply Contains_app_r, Contains_cons.
Qed.

(** X11: A request whose method and path are not a key of the table is answered
    404 when every registered route is static or belongs to another method:
    a path registered under other methods only is not found, it is not
    refused as a method not allowed. *)
Theorem unmatched_request_is_404 (handlers : gmap string (Handler W))
    (order : list (string * Handler W)) (rq : Request) :
  Mock.rangeOrder handlers order →
  handlers !! (Method rq +:+ " " +:+ Path rq) = None →
  (∀ k h, handlers !! k = Some h →
     Contains k ":" = false ∨ SplitHead k " " ≠ Method rq) →
  ∀ w, Mock.ServeHTTP handlers order rq w = NotFound rq w.
Proof.
  intros Hrange Hmiss Hkeys w. unfold Mock.ServeHTTP, Mock.resolve.
  rewrite Hmiss.
  destruct (Mock.scan rq order) as [k h|k h|] eqn:Hscan; [| |done].
  - by apply scan_not_Exact in Hscan.
  - apply scan_Fallback in Hscan as [Hin Hcand].
    apply (rangeOrder_elem handlers order k h Hrange) in Hin.
    apply candidate_inv in Hcand as [Hcolon Hmeth].
    destruct (Hkeys k h Hin); congruence.
Qed.

(** *** The fallback is a test of prefix *)

Lemma SplitN2_app (a b : string) (sep : ascii) :
  every (λ c, negb (Ascii.eqb c sep)) a = true →
  SplitN2 (a +:+ String sep b) sep = [a; b].
Proof.
  induction a as [|c a IH]; intros Ha.
  - rewrite app_empty_l. cbn [SplitN2]. by rewrite Ascii.eqb_refl.
  - cbn [every] in Ha. apply andb_true_iff in Ha as [Hc Ha].
    rewrite app_cons. cbn [SplitN2].
    apply negb_true_iff in Hc. by rewrite Hc, IH.
Qed.

Lemma SplitHead_app (a b : string) (sep : ascii) :
  every (λ c, negb (Ascii.eqb c sep)) a = true →
  SplitHead (a +:+ String sep b) sep = a.
Proof.
  induction a as [|c a IH]; intros Ha.
  - rewrite app_empty_l. cbn [SplitHead]. by rewrite Ascii.eqb_refl.
  - cbn [every] in Ha. apply andb_true_iff in Ha as [Hc Ha].
    rewrite app_cons. cbn [SplitHead].
    apply negb_true_iff in Hc. by rewrite Hc, IH.
Qed.

Lemma prefix_app (a b : string) : String.prefix a (a +:+ b) = true.
Proof.
  induction a as [|c a IH]; [by destruct b|].
  rewrite app_cons. cbn [String.prefix].
  by destruct (ascii_dec c c).
Qed.

Lemma candidate_prefix (rq : Request) (base rest tail : string) :
  every (λ c, negb (Ascii.eqb c " ")) (Method rq) = true →
  every (λ c, negb (Ascii.eqb c ":")) base = true →
  Path rq = base +:+ tail →
  Mock.candidate rq
    (Method rq +:+ " " +:+ base +:+ ":" +:+ rest) = true.
Proof.
  intros Hmeth Hbase Hpath. unfold Mock.candidate.
  change (Method rq +:+ " " +:+ base +:+ ":" +:+ rest)
    with (Method rq +:+ String " " (base +:+ String ":" rest)).
  rewrite SplitN2_app by done.
  destruct (decide (Method rq = Method rq)); [|done].
  rewrite SplitHead_app by done.
  apply andb_true_iff. split.
  - apply Contains_app_r. cbn [Contains String.prefix].
    destruct (ascii_dec ":" ":") as [_|?]; [|done]. by destruct rest.
  - unfold HasPrefix. rewrite Hpath. apply prefix_app.
Qed.

(** X12: The fallback of [ServeHTTP] tests a prefix, not a shape: a route
    [METHOD base:rest], where [base] has no colon, is a candidate for every
    request of that method whose path begins with [base], whatever follows
    and however many segments it has.  A request with no exact key is then
    served by a candidate, and by this route when it is the only one. *)
Theorem dynamic_route_matches_by_prefix (handlers : gmap string (Handler W))
    (order : list (string * Handler W)) (rq : Request)
    (base rest tail : string) (h : Handler W) :
  Mock.rangeOrder handlers order →
  every (λ c, negb (Ascii.eqb c " ")) (Method rq) = true →
  every (λ c, negb (Ascii.eqb c ":")) base = true →
  handlers !! (Method rq +:+ " " +:+ base +:+ ":" +:+ rest) = Some h →
  Path rq = base +:+ tail →
  handlers !! (Method rq +:+ " " +:+ Path rq) = None →
  (∃ k h', Mock.resolve handlers order rq = Mock.Fallback k h'
           ∧ handlers !! k = Some h'
           ∧ Mock.candidate rq k = true)
  ∧ ((∀ k h', handlers !! k = Some h' → Mock.candidate rq k = true →
        k = Method rq +:+ " " +:+ base +:+ ":" +:+ rest) →
     ∀ w, Mock.ServeHTTP handlers order rq w = h rq w).
Proof.
  intros Hrange Hmeth Hbase Hroute Hpath Hmiss.
  pose proof (candidate_prefix rq base rest tail Hmeth Hbase Hpath) as Hcand.
  assert (∃ k h', Mock.resolve handlers order rq = Mock.Fallback k h'
                  ∧ handlers !! k = Some h'
                  ∧ Mock.candidate rq k = true) as (k & h' & Hres & Hk & Hck).
  { unfold Mock.resolve. rewrite Hmiss.
    destruct (Mock.scan rq order) as [k h'|k h'|] eqn:Hscan.
    - by apply scan_not_Exact in Hscan.
    - apply scan_Fallback in Hscan as [Hin Hc]. exists k, h'.
      split; [done|]. split; [|done].
      by apply (rangeOrder_elem handlers order k h' Hrange).
    - pose proof (scan_Missing rq order Hscan
                    (Method rq +:+ " " +:+ base +:+ ":" +:+ rest) h) as Hno.
      rewrite Hno in Hcand; [done|].
      by apply (rangeOrder_elem handlers order _ h Hrange). }
  split; [by exists k, h'|].
  intros Honly w. unfold Mock.ServeHTTP. rewrite Hres.
  specialize (Honly k h' Hk Hck). subst k. congruence.
Qed.

End mock_more.

(** ** Path templates and the syntax of the engines *)

Section templates.
Import Strings Regexp.

Lemma colonPattern_cons_static text rest :
  colonPattern (StaticSeg text :: rest)
  = String "/" (text +:+ colonPattern rest).
Proof. cbn [colonPattern]. by rewrite app_cons, app_empty_l. Qed.

Lemma colonPattern_cons_param name rest :
  colonPattern (ParamSeg name :: rest)
  = String "/" (String ":" (name +:+ colonPattern rest)).
Proof. cbn [colonPattern]. by rewrite !app_cons, app_empty_l. Qed.

Lemma bracePattern_cons_static text rest :
  bracePattern (StaticSeg text :: rest)
  = String "/" (text +:+ bracePattern rest).
Proof. cbn [bracePattern]. by rewrite app_cons, app_empty_l. Qed.

Lemma bracePattern_cons_param name rest :
  bracePattern (ParamSeg name :: rest)
  = String "/" (("{" +:+ name +:+ "}") +:+ bracePattern rest).
Proof.
  cbn [bracePattern]. by rewrite !app_assoc', !app_cons, !app_empty_l.
Qed.

Lemma colonPattern_stops segs : stopsRun notSlash (colonPattern segs).
Proof.
  destruct segs as [|[text|name] rest]; [done| |].
  - by rewrite colonPattern_cons_static.
  - by rewrite colonPattern_cons_param.
Qed.

Lemma bracePattern_stops segs : stopsRun notSlash (bracePattern segs).
Proof.
  destruct segs as [|[text|name] rest]; [done| |].
  - by rewrite bracePattern_cons_static.
  - by rewrite bracePattern_cons_param.
Qed.

Lemma plainChar_inv c :
  plainChar c = true →
  notSlash c = true ∧ Ascii.eqb c ":" = false ∧ Ascii.eqb c "}" = false.
Proof.
  unfold plainChar. intros [[? ?%negb_true_iff]%andb_true_iff
                              ?%negb_true_iff]%andb_true_iff.
  done.
Qed.

Lemma convert_plain (text : string) :
  every (λ c, negb (Ascii.eqb c ":")) text = true → convert text = text.
Proof.
  induction text as [|c text IH]; [done|]. cbn [every].
  intros [Hc%negb_true_iff Ht]%andb_true_iff.
  by rewrite convert_cons_other, IH.
Qed.

Lemma clean_plain (text : string) :
  every (λ c, negb (Ascii.eqb c "}")) text = true → clean text = text.
Proof.
  induction text as [|c text IH]; [done|]. cbn [every].
  intros [Hc%negb_true_iff Ht]%andb_true_iff.
  by rewrite clean_cons_other, IH.
Qed.

Lemma every_plain_no_colon text :
  every plainChar text = true →
  every (λ c, negb (Ascii.eqb c ":")) text = true.
Proof.
  apply every_impl. intros c (_ & -> & _)%plainChar_inv. done.
Qed.

Lemma every_plain_no_brace text :
  every plainChar text = true →
  every (λ c, negb (Ascii.eqb c "}")) text = true.
Proof.
  apply every_impl. intros c (_ & _ & ->)%plainChar_inv. done.
Qed.

Lemma every_word_no_colon name :
  every isWordChar name = true →
  every (λ c, negb (Ascii.eqb c ":")) name = true.
Proof.
  apply every_impl. intros c (_ & _ & ->)%isWordChar_not_special. done.
Qed.

Lemma convert_colonPattern segs :
  Forall wellFormedSeg segs → convert (colonPattern segs) = bracePattern segs.
Proof.
  induction 1 as [|[text|name] rest Hseg _ IH]; [done| |].
  - rewrite colonPattern_cons_static, bracePattern_cons_static.
    rewrite convert_cons_other by done. f_equal.
    rewrite convert_app by apply stopsRun_slash, colonPattern_stops.
    by rewrite IH, convert_plain by by apply every_plain_no_colon.
  - destruct Hseg as [Hne Hword].
    rewrite colonPattern_cons_param, bracePattern_cons_param.
    rewrite convert_cons_other by done. f_equal.
    rewrite convert_param; try done.
    + by rewrite IH, !app_assoc'.
    + apply stopsRun_slash, colonPattern_stops.
Qed.

Lemma convert_bracePattern segs :
  Forall wellFormedSeg segs → convert (bracePattern segs) = bracePattern segs.
Proof.
  induction 1 as [|[text|name] rest Hseg _ IH]; [done| |].
  - rewrite bracePattern_cons_static.
    rewrite convert_cons_other by done. f_equal.
    rewrite convert_app by apply stopsRun_slash, bracePattern_stops.
    by rewrite IH, convert_plain by by apply every_plain_no_colon.
  - destruct Hseg as [Hne Hword].
    rewrite bracePattern_cons_param.
    rewrite convert_cons_other by done. f_equal.
    rewrite convert_app by apply stopsRun_slash, bracePattern_stops.
    rewrite IH. f_equal. apply convert_plain.
    rewrite !every_app. cbn [every].
    by rewrite every_word_no_colon.
Qed.

Lemma clean_bracePattern segs :
  Forall wellFormedSeg segs → clean (bracePattern segs) = bracePattern segs.
Proof.
  induction 1 as [|[text|name] rest Hseg _ IH]; [done| |].
  - rewrite bracePattern_cons_static.
    rewrite clean_cons_other by done. f_equal.
    rewrite clean_app by apply bracePattern_stops.
    by rewrite IH, clean_plain by by apply every_plain_no_brace.
  - destruct Hseg as [Hne Hword].
    rewrite bracePattern_cons_param.
    rewrite clean_cons_other by done. f_equal.
    rewrite clean_app by apply bracePattern_stops.
    rewrite IH. f_equal.
    pose proof (clean_param name "" Hword eq_refl) as Hc.
    by rewrite !app_empty_r in Hc.
Qed.

(** X13: A universal template, whose segments are literal text without colons
    and braces or [:name] with a name of word characters, comes out of the
    native adapter and of the Chi adapter in the brace syntax, segment by
    segment; a template already in the brace syntax passes through the
    native adapter unchanged; and the pattern the native adapter registers
    for a method is the method, a space, and the group's prefix joined to
    the template in the brace syntax. *)
Theorem templates_translate_to_braces (segs : list PathSegment) :
  Forall wellFormedSeg segs →
  Native.transformPattern (colonPattern segs) = bracePattern segs
  ∧ Chi.adaptPath (colonPattern segs) = bracePattern segs
  ∧ Native.transformPattern (bracePattern segs) = bracePattern segs
  ∧ (∀ a method,
       Native.registeredPattern a method (colonPattern segs)
       = method +:+ " " +:+
         Native.joinPath (Native.prefix a) (bracePattern segs)).
Proof.
  intros Hsegs.
  assert (Native.transformPattern (colonPattern segs) = bracePattern segs)
    as Hcolon.
  { rewrite transformPattern_clean_convert, convert_colonPattern by done.
    by apply clean_bracePattern. }
  split_and!.
  - done.
  - change (Chi.adaptPath (colonPattern segs))
      with (convert (colonPattern segs)).
    by apply convert_colonPattern.
  - rewrite transformPattern_clean_convert, convert_bracePattern by done.
    by apply clean_bracePattern.
  - intros a method. unfold Native.registeredPattern. by rewrite Hcolon.
Qed.

End templates.

Lemma templates_translate_to_braces_witness :
  Native.transformPattern "/users/:id/books/:book_id" = "/users/{id}/books/{book_id}"
  ∧ Chi.adaptPath "/users/:id/books/:book_id" = "/users/{id}/books/{book_id}"
  ∧ Native.transformPattern "/users/{id}/books/{book_id}"
    = "/users/{id}/books/{book_id}".
Proof.
  destruct (templates_translate_to_braces
              [StaticSeg "users"; ParamSeg "id"; StaticSeg "books";
               ParamSeg "book_id"]) as (H1 & H2 & H3 & _).
  - repeat constructor; done.
  - split; [exact H1|]. split; [exact H2|exact H3].
Defined.

(** ** The Fiber adapter never composes a nil middleware *)

Section fiber_more.
Context {W R C : Type} `{Fiber.Engine W R C}.
Import Slices.

Lemma Fiber_Group_adapters (σ σ' : Fiber.Store W R C) a prefix c x :
  Fiber.adapters σ !! a = Some x →
  Fiber.Group a prefix σ = (Returned c, σ') →
  length (Fiber.adapters σ') = S (length (Fiber.adapters σ)).
Proof.
  intros Ha. unfold Fiber.Group, bind, Fiber.load, Fiber.withArrays, Fiber.new.
  rewrite Ha. simpl. intros [= _ <-]. cbn [Fiber.adapters].
  rewrite length_app. simpl. lia.
Qed.

Lemma Fiber_stack_length (σ : Fiber.Store W R C) a x :
  wfFiber σ → Fiber.adapters σ !! a = Some x →
  length (Fiber.middlewaresOf σ a) = len (Fiber.Middlewares x).
Proof.
  intros [Hok _] Ha. unfold Fiber.middlewaresOf. rewrite Ha.
  apply sliceOk_view_length. apply (Hok a). by rewrite list_lookup_fmap, Ha.
Qed.

(** X15: The stacks of the Fiber adapters never hold a nil middleware: [Use]
    drops a nil argument and [Group] copies a stack without one, so the
    property is kept by every call; and with it [handle] never panics
    while composing: it returns and adds exactly one route, whose handler
    carries the right fold of the adapter's middlewares. *)
Theorem Fiber_stacks_stay_nil_free (σ : Fiber.Store W R C) :
  wfFiber σ → nilFree σ →
  (∀ a mw x, Fiber.adapters σ !! a = Some x →
     ∃ σ', Fiber.Use a mw σ = (Returned (), σ')
           ∧ wfFiber σ' ∧ nilFree σ'
           ∧ Fiber.middlewaresOf σ' a
             = Fiber.middlewaresOf σ a
               ++ match mw with Some f => [Some f] | None => [] end)
  ∧ (∀ a prefix x, Fiber.adapters σ !! a = Some x →
       ∃ c σ', Fiber.Group a prefix σ = (Returned c, σ')
               ∧ wfFiber σ' ∧ nilFree σ'
               ∧ Fiber.middlewaresOf σ' c = Fiber.middlewaresOf σ a)
  ∧ (∀ order a method path h x, Fiber.adapters σ !! a = Some x →
       ∃ fs, Fiber.middlewaresOf σ a = Some <$> fs
             ∧ Fiber.handle order a method path h σ
               = (Returned (),
                  {| Fiber.arrays := Fiber.arrays σ;
                     Fiber.adapters := Fiber.adapters σ;
                     Fiber.added := Fiber.added σ ++
                       [(Fiber.Router x, method, path,
                         Fiber.fiberHandler order
                           (foldr (λ f acc, f acc) h fs))] |})).
Proof.
  intros Hwf Hnil. split_and!.
  - intros a [f|] x Ha.
    + destruct (wf_Fiber_Use σ a f x Hwf Ha) as (σ' & HU & Hwf' & Hst & Hoth).
      exists σ'. split_and!; try done.
      intros b. destruct (decide (b = a)) as [->|Hne].
      * rewrite Hst. intros [Hin|Hin]%elem_of_app; [by apply (Hnil a)|].
        apply elem_of_cons in Hin as [?|Hin]; [done|].
        by apply elem_of_nil in Hin.
      * rewrite Hoth by done. apply Hnil.
    + exists σ. split_and!; try done. by rewrite app_nil_r.
  - intros a prefix x Ha.
    destruct (wf_Fiber_Group σ a prefix x Hwf Ha)
      as (σ' & HG & Hwf' & Hnew & Hold).
    exists (length (Fiber.adapters σ)), σ'. split_and!; try done.
    pose proof (Fiber_Group_adapters _ _ _ _ _ _ Ha HG) as Hlen.
    intros b.
    destruct (decide (b < length (Fiber.adapters σ))) as [Hlt|Hge].
    { rewrite Hold by done. apply Hnil. }
    destruct (decide (b = length (Fiber.adapters σ))) as [->|Hne].
    { rewrite Hnew. apply Hnil. }
    unfold Fiber.middlewaresOf.
    rewrite (lookup_ge_None_2 (Fiber.adapters σ') b) by lia.
    apply not_elem_of_nil.
  - intros order a method path h x Ha.
    destruct (nil_free_fmap _ (Hnil a)) as [fs Hfs]. exists fs.
    split; [done|].
    apply Fiber_handle_run; [done| |by apply Fiber_stack_length].
    rewrite Hfs. apply onion_Some.
Qed.

End fiber_more.

(** ** The registry after the [init] functions *)

Section registry_more.
Context {T : Type}.
Import Transwarp.

Lemma registerAll_absent (inits : list (Driver * (unit → outcome T)))
    registry (d : Driver) :
  d ∉ inits.*1 → registerAll inits registry !! d = registry !! d.
Proof.
  revert registry. induction inits as [|[d' c'] inits IH]; intros registry Hd.
  - done.
  - change (registerAll inits (Register d' c' registry) !! d = registry !! d).
    rewrite fmap_cons, not_elem_of_cons in Hd. destruct Hd as [Hne Hd].
    rewrite IH by done. unfold Register. by rewrite lookup_insert_ne.
Qed.

Lemma registerAll_last (pre post : list (Driver * (unit → outcome T)))
    registry (d : Driver) c :
  d ∉ post.*1 →
  registerAll (pre ++ (d, c) :: post) registry !! d = Some c.
Proof.
  intros Hd.
  assert (registerAll (pre ++ (d, c) :: post) registry
          = registerAll post (Register d c (registerAll pre registry))) as ->.
  { unfold registerAll. by rewrite foldl_app. }
  rewrite registerAll_absent by done. unfold Register.
  apply lookup_insert_eq.
Qed.

Lemma registerAll_once (inits : list (Driver * (unit → outcome T)))
    registry (d : Driver) c :
  NoDup inits.*1 → (d, c) ∈ inits →
  registerAll inits registry !! d = Some c.
Proof.
  intros Hnd [pre [post ->]]%list_elem_of_split.
  apply registerAll_last.
  rewrite fmap_app, fmap_cons in Hnd.
  apply list.NoDup_app in Hnd as (_ & _ & Hnd). by apply list.NoDup_cons in Hnd as [? _].
Qed.

(** X16: After the [init] functions have run, [New] calls the constructor that
    was registered last for the driver, and panics with the message that
    names the driver when none was; when each driver is registered once,
    the order in which the [init] functions ran makes no difference to the
    registry. *)
Theorem registry_last_registration_wins
    (inits : list (Driver * (unit → outcome T))) (d : Driver) :
  (d ∉ inits.*1 →
     New {| cfgDriver := d |} (registerAll inits emptyRegistry)
     = Panicked (driverNotAvailable d))
  ∧ (∀ pre c post registry,
       inits = pre ++ (d, c) :: post → d ∉ post.*1 →
       New {| cfgDriver := d |} (registerAll inits registry) = c ())
  ∧ (∀ inits' registry,
       NoDup inits.*1 → inits ≡ₚ inits' →
       registerAll inits registry = registerAll inits' registry).
Proof.
  split_and!.
  - intros Hd. unfold New. cbn [cfgDriver].
    by rewrite registerAll_absent.
  - intros pre c post registry -> Hd. unfold New. cbn [cfgDriver].
    by rewrite registerAll_last.
  - intros inits' registry Hnd Hperm. apply map_eq. intros k.
    assert (NoDup inits'.*1) as Hnd' by by rewrite <- Hperm.
    destruct (decide (k ∈ inits.*1)) as [Hin|Hout].
    + apply list_elem_of_fmap in Hin as ([k' c] & -> & Hin). simpl.
      rewrite (registerAll_once inits registry k' c Hnd Hin).
      symmetry. apply registerAll_once; [done|]. by rewrite <- Hperm.
    + rewrite registerAll_absent by done.
      symmetry. apply registerAll_absent. by rewrite <- Hperm.
Qed.

End registry_more.

(** ** Nested groups of the native adapter *)

Section join_more.
Import Strings.

Lemma HasSuffix_slash_cons (c : ascii) (s : string) :
  HasSuffix (String c s) "/"
  = match s with
    | EmptyString => Ascii.eqb c "/"
    | String _ _ => HasSuffix s "/"
    end.
Proof.
  unfold HasSuffix. destruct s as [|d s].
  - simpl. by destruct (Ascii.eqb c "/").
  - cbn [String.length]. rewrite !bool_decide_eq_true_2 by lia.
    replace (S (S (String.length s)) - 1) with (S (String.length s - 0)) by lia.
    replace (S (String.length s) - 1) with (String.length s - 0) by lia.
    done.
Qed.

Lemma TrimSuffix_slash_cons (c : ascii) (s : string) :
  TrimSuffix (String c s) "/"
  = match s with
    | EmptyString => if Ascii.eqb c "/" then "" else String c ""
    | String _ _ => String c (TrimSuffix s "/")
    end.
Proof.
  unfold TrimSuffix. rewrite HasSuffix_slash_cons. destruct s as [|d s].
  - by destruct (Ascii.eqb c "/").
  - destruct (HasSuffix (String d s) "/"); [|done].
    cbn [String.length].
    replace (S (S (String.length s)) - 1) with (S (S (String.length s) - 1))
      by lia.
    done.
Qed.

Lemma TrimSuffix_slash_app (x t : string) :
  t ≠ "" → TrimSuffix (x +:+ t) "/" = x +:+ TrimSuffix t "/".
Proof.
  intros Ht. induction x as [|c x IH]; [by rewrite !app_empty_l|].
  rewrite !app_cons, TrimSuffix_slash_cons, IH.
  destruct (x +:+ t) eqn:Hxt; [|done].
  destruct x; [|by rewrite app_cons in Hxt].
  by rewrite app_empty_l in Hxt.
Qed.

Lemma HasPrefix_slash_true (s : string) :
  HasPrefix s "/" = true → ∃ q, s = String "/" q.
Proof.
  destruct s as [|c q]; [done|]. unfold HasPrefix. cbn [String.prefix].
  destruct (ascii_dec "/" c) as [<-|]; [|done]. by exists q.
Qed.

Lemma HasPrefix_slash_false (c : ascii) (q : string) :
  c ≠ "/"%char → HasPrefix (String c q) "/" = false.
Proof.
  intros Hc. unfold HasPrefix. cbn [String.prefix].
  by destruct (ascii_dec "/" c) as [<-|].
Qed.

Lemma HasPrefix_slash_head (s : string) :
  HasPrefix s "/" = false →
  s = "" ∨ ∃ c q, s = String c q ∧ c ≠ "/"%char.
Proof.
  destruct s as [|c q]; [by left|]. intros Hpre. right. exists c, q.
  split; [done|]. intros ->. unfold HasPrefix in Hpre.
  cbn [String.prefix] in Hpre.
  destruct (ascii_dec "/" "/") as [_|?]; [by destruct q|done].
Qed.

Lemma HasPrefix_slash_String (q : string) : HasPrefix (String "/" q) "/" = true.
Proof.
  unfold HasPrefix. cbn [String.prefix].
  destruct (ascii_dec "/" "/"); [by destruct q|done].
Qed.

Lemma joinPath_other (a p : string) :
  a ≠ "" → p ≠ "" → p ≠ "/" →
  Native.joinPath a p
  = TrimSuffix a "/" +:+ (if HasPrefix p "/" then p else "/" +:+ p).
Proof.
  intros Ha Hp Hp'. unfold Native.joinPath.
  destruct (decide (a = "")); [done|].
  destruct (decide (p = "" ∨ p = "/")) as [[?|?]|_]; done.
Qed.

Lemma joinPath_empty_l (p : string) : Native.joinPath "" p = p.
Proof. done. Qed.

Lemma joinPath_root (a p : string) :
  a ≠ "" → p = "" ∨ p = "/" → Native.joinPath a p = a.
Proof.
  intros Ha Hp. unfold Native.joinPath.
  destruct (decide (a = "")); [done|].
  by destruct (decide (p = "" ∨ p = "/")).
Qed.

Lemma string_length_2 (s : string) :
  2 ≤ String.length s → s ≠ "" ∧ s ≠ "/".
Proof. intros Hlen. split; intros ->; simpl in Hlen; lia. Qed.

Lemma cleanPath_length (p : string) :
  p ≠ "" → p ≠ "/" →
  2 ≤ String.length (if HasPrefix p "/" then p else "/" +:+ p).
Proof.
  intros Hp Hp'. destruct (HasPrefix p "/") eqn:Hpre.
  - apply HasPrefix_slash_true in Hpre as [q ->].
    destruct q; [done|]. simpl. lia.
  - rewrite app_cons. destruct p; [done|]. simpl. lia.
Qed.

Lemma joinPath_length (a p : string) :
  a ≠ "" → p ≠ "" → p ≠ "/" → 2 ≤ String.length (Native.joinPath a p).
Proof.
  intros Ha Hp Hp'. rewrite joinPath_other, length_app' by done.
  pose proof (cleanPath_length p Hp Hp'). lia.
Qed.

Lemma joinPath_step (b c : string) :
  b ≠ "" → b ≠ "/" → c ≠ "" → c ≠ "/" →
  TrimSuffix (if HasPrefix b "/" then b else "/" +:+ b) "/"
  +:+ (if HasPrefix c "/" then c else "/" +:+ c)
  = (if HasPrefix (Native.joinPath b c) "/" then Native.joinPath b c
     else "/" +:+ Native.joinPath b c).
Proof.
  intros Hb Hb' Hc Hc'. rewrite (joinPath_other b c) by done.
  generalize (if HasPrefix c "/" then c else "/" +:+ c). intros cc.
  destruct (HasPrefix b "/") eqn:Hpre.
  - apply HasPrefix_slash_true in Hpre as [q ->].
    destruct q as [|d q]; [done|].
    rewrite TrimSuffix_slash_cons, app_cons.
    by rewrite HasPrefix_slash_String.
  - apply HasPrefix_slash_head in Hpre as [->|(x & q & -> & Hx)]; [done|].
    rewrite (app_cons "/" "" (String x q)), app_empty_l.
    rewrite (TrimSuffix_slash_cons "/" (String x q)).
    rewrite TrimSuffix_slash_cons. destruct q as [|d q].
    + destruct (Ascii.eqb_spec x "/") as [->|_]; [done|].
      rewrite (app_cons x "" cc), HasPrefix_slash_false by done.
      by rewrite !app_cons, !app_empty_l.
    + rewrite (app_cons x _ cc), HasPrefix_slash_false by done.
      by rewrite !app_cons, !app_empty_l.
Qed.

Lemma joinPath_assoc (a b c : string) :
  Native.joinPath (Native.joinPath a b) c
  = Native.joinPath a (Native.joinPath b c).
Proof.
  destruct (decide (a = "")) as [->|Ha]; [by rewrite !joinPath_empty_l|].
  destruct (decide (b = "")) as [->|Hb].
  { by rewrite joinPath_empty_l, (joinPath_root a "") by auto. }
  assert (c = "" ∨ c = "/" ∨ (c ≠ "" ∧ c ≠ "/")) as [->|[->|[Hc Hc']]].
  { destruct (decide (c = "")); [auto|]. destruct (decide (c = "/")); auto. }
  { rewrite (joinPath_root b "") by auto.
    destruct (decide (Native.joinPath a b = "")) as [->|?]; [done|].
    by rewrite joinPath_root by auto. }
  { rewrite (joinPath_root b "/") by auto.
    assert (Native.joinPath a b ≠ "") as Hab.
    { destruct (decide (b = "/")) as [->|Hb'].
      - by rewrite joinPath_root by auto.
      - by pose proof (joinPath_length a b Ha Hb Hb') as [? ?]%string_length_2. }
    by rewrite joinPath_root by auto. }
  destruct (decide (b = "/")) as [->|Hb'].
  { rewrite (joinPath_root a "/") by auto.
    rewrite (joinPath_other "/" c) by done.
    change (TrimSuffix "/" "/") with "". rewrite app_empty_l.
    pose proof (cleanPath_length c Hc Hc') as [? ?]%string_length_2.
    rewrite !(joinPath_other a) by done. f_equal.
    destruct (HasPrefix c "/") eqn:Hpre; [by rewrite Hpre|].
    by rewrite app_cons, HasPrefix_slash_String. }
  pose proof (joinPath_length a b Ha Hb Hb') as [? ?]%string_length_2.
  pose proof (joinPath_length b c Hb Hc Hc') as [? ?]%string_length_2.
  rewrite (joinPath_other (Native.joinPath a b) c) by done.
  rewrite (joinPath_other a (Native.joinPath b c)) by done.
  rewrite <- joinPath_step by done.
  rewrite (joinPath_other a b) by done.
  pose proof (cleanPath_length b Hb Hb') as [? ?]%string_length_2.
  by rewrite TrimSuffix_slash_app, app_assoc' by done.
Qed.

(** X14: Groups of the native adapter nest coherently: a group made with [q]
    from the group made with [p] has the prefix of the group made in one
    step with the two joined, and a route registered on it gets the pattern
    it would get there; the joining of prefixes is associative, and the
    empty prefix does nothing on either side. *)
Theorem native_groups_nest {W : Type} (a : Native.NativeAdapter)
    (p q : string) (H1 H2 H3 : Slices.Arrays (Middleware W)) :
  Native.prefix (Native.Group (Native.Group a p H1).1 q H2).1
  = Native.prefix (Native.Group a (Native.joinPath p q) H3).1
  ∧ (∀ method pattern,
       Native.registeredPattern
         (Native.Group (Native.Group a p H1).1 q H2).1 method pattern
       = Native.registeredPattern
           (Native.Group a (Native.joinPath p q) H3).1 method pattern)
  ∧ (∀ x y z, Native.joinPath (Native.joinPath x y) z
              = Native.joinPath x (Native.joinPath y z))
  ∧ (∀ x, Native.joinPath "" x = x ∧ Native.joinPath x "" = x).
Proof.
  assert (∀ (b : Native.NativeAdapter) s (H : Slices.Arrays (Middleware W)),
            Native.prefix (Native.Group b s H).1
            = Native.joinPath (Native.prefix b) s) as HG by done.
  split_and!.
  - by rewrite !HG, joinPath_assoc.
  - intros method pattern. unfold Native.registeredPattern.
    by rewrite !HG, (joinPath_assoc (Native.prefix a) p q).
  - apply joinPath_assoc.
  - intros x. split; [done|]. unfold Native.joinPath.
    destruct (decide (x = "")) as [->|]; [done|].
    destruct (decide ("" = "" ∨ "" = "/")) as [|[]]; [done|]. by left.
Qed.

End join_more.

(** ** The Echo adapter: errors of the chain *)

Section echo_more.
Context {E : Type} `{Echo.Context E}.
Import Script.

Lemma exec_echo_finalHandler (next : Echo.HandlerFunc E) (code : Code)
    (err : option string) (c : E) :
  exec (Echo.finalHandler next) code (err, c)
  = ((exec (echoNext next) code c).1,
     (lastError next code err c, (exec (echoNext next) code c).2)).
Proof.
  revert err c. induction code as [|v|k v rest IH|k rest IH|b rest IH
                                   |st rest IH|r rest IH]; intros err c.
  - done.
  - done.
  - apply IH.
  - apply IH.
  - apply IH.
  - apply IH.
  - cbn [exec lastError]. unfold bind, Echo.finalHandler, echoNext. simpl.
    destruct (next (Echo.SetRequest r c)) as [[e|v] c']; [apply IH|done].
Qed.

Lemma lastError_no_call (next : Echo.HandlerFunc E) (code : Code)
    (err : option string) (c : E) :
  invocations (echoNext next) code c = 0 → lastError next code err c = err.
Proof.
  revert c. induction code as [|v|k v rest IH|k rest IH|b rest IH
                               |st rest IH|r rest IH]; intros c; try done.
  - apply IH.
  - apply IH.
  - apply IH.
  - apply IH.
  - cbn [invocations]. unfold echoNext.
    by destruct (next (Echo.SetRequest r c)) as [[e|v] c'].
Qed.

Lemma lastError_neverErrs (next : Echo.HandlerFunc E) (code : Code) (c : E) :
  neverErrs next → lastError next code None c = None.
Proof.
  intros Hnext. revert c.
  induction code as [|v|k v rest IH|k rest IH|b rest IH
                     |st rest IH|r rest IH]; intros c; try done.
  - apply IH.
  - apply IH.
  - apply IH.
  - apply IH.
  - cbn [lastError].
    destruct (next (Echo.SetRequest r c)) as [[e|v] c'] eqn:Hn; [|done].
    rewrite (Hnext _ _ _ Hn). apply IH.
Qed.

Lemma Echo_mwFunc_run (body : Request → Code)
    (next : Echo.HandlerFunc E) (c : E) :
  let r0 := WithContext (Echo.GetRequest c)
              (WithValue (Ctx (Echo.GetRequest c)) Echo.paramsKey
                 (APointer (Echo.Self c))) in
  Echo.mwFunc (Some (middlewareOf body)) next c
  = match exec (echoNext next) (body r0) c with
    | (Returned _, c') => (Returned (lastError next (body r0) None c), c')
    | (Panicked v, c') => (Panicked v, c')
    end.
Proof.
  intros r0. unfold Echo.mwFunc, callMw, ServeHTTP, middlewareOf. fold r0.
  rewrite exec_echo_finalHandler.
  by destruct (exec (echoNext next) (body r0) c) as [[[]|v] c'].
Qed.

(** X17: The Echo middleware that [Use] builds from a standard middleware runs
    it against the Echo context, with the context injected in the request,
    and returns the error of the last call the middleware made of its
    continuation.  When the middleware does not call its continuation, the
    next Echo handler is not run: the answer is the middleware's own and
    the error is nil. *)
Theorem Echo_Use_returns_last_error (body : Request → Code)
    (next : Echo.HandlerFunc E) (c : E) :
  let r0 := WithContext (Echo.GetRequest c)
              (WithValue (Ctx (Echo.GetRequest c)) Echo.paramsKey
                 (APointer (Echo.Self c))) in
  Echo.mwFunc (Some (middlewareOf body)) next c
  = match exec (echoNext next) (body r0) c with
    | (Returned _, c') => (Returned (lastError next (body r0) None c), c')
    | (Panicked v, c') => (Panicked v, c')
    end
  ∧ (aborts body r0 c →
     Echo.mwFunc (Some (middlewareOf body)) next c
     = match ownResponse body r0 c with
       | (Returned _, c') => (Returned None, c')
       | (Panicked v, c') => (Panicked v, c')
       end).
Proof.
  intros r0. pose proof (Echo_mwFunc_run body next c) as Hrun.
  fold r0 in Hrun. split; [done|]. intros Habort. rewrite Hrun. unfold ownResponse.
  unfold aborts in Habort.
  rewrite (exec_aborting (λ _, ret ()) (echoNext next)) by done.
  rewrite lastError_no_call; [done|].
  by apply (invocations_zero (λ _, ret ())).
Qed.

(** X18: Through the adapter no Echo handler returns an error: the handler that
    [handle] registers returns nil when the standard handler returns, and a
    middleware built by [Use] around a handler that returns no error
    returns none either.  What fails, panics. *)
Theorem Echo_chain_never_errors :
  (∀ h : Handler E, neverErrs (Echo.handler h))
  ∧ (∀ (body : Request → Code) (next : Echo.HandlerFunc E),
       neverErrs next →
       neverErrs (Echo.mwFunc (Some (middlewareOf body)) next)).
Proof.
  split.
  - intros h c e c'. unfold Echo.handler.
    destruct (h _ c) as [[[]|v] c1]; congruence.
  - intros body next Hnext c e c'.
    rewrite (Echo_mwFunc_run body next c).
    destruct (exec _ _ c) as [[[]|v] c1]; [|done].
    intros [= <- _]. by apply lastError_neverErrs.
Qed.

End echo_more.

(** ** Middlewares of a router and [Chain] *)

Section portable.
Context {W R C : Type} `{ResponseWriter W} `{Fiber.Engine W R C}.
Import Slices.



(** X7: Registering a method and path that are registered already replaces the
    handler: after two registrations the table is the one the second alone
    would give, and nothing panics. *)
Theorem reregistration_replaces (σ : Mock.Store W) m method path
    (h1 h2 g1 g2 : Handler W) r t :
  wf σ →
  Mock.routers σ !! m = Some r →
  Mock.tables σ !! Mock.Handlers r = Some t →
  onion (Mock.middlewaresOf σ m) h1 = Returned g1 →
  onion (Mock.middlewaresOf σ m) h2 = Returned g2 →
  ∃ σ1 σ2 σ2',
    Mock.register m method path h1 σ = (Returned (), σ1)
    ∧ Mock.register m method path h2 σ1 = (Returned (), σ2)
    ∧ Mock.register m method path h2 σ = (Returned (), σ2')
    ∧ σ2 = σ2'
    ∧ Mock.handlersOf σ2 m !! (method +:+ " " +:+ Mock.prefix r +:+ path)
      = Some g2.
Proof.
  intros Hwf Hm Ht Hg1 Hg2.
  pose proof (Mock_register_state σ m method path h1 g1 r t Hwf Hm Ht Hg1)
    as Hr1.
  pose proof (Mock_register_state σ m method path h2 g2 r t Hwf Hm Ht Hg2)
    as Hr2.
  match type of Hr1 with _ = (_, ?s) => set (σ1 := s) in * end.
  assert (Mock.tables σ1 !! Mock.Handlers r
          = Some (<[method +:+ " " +:+ Mock.prefix r +:+ path := g1]> t))
    as Ht1.
  { subst σ1. cbn [Mock.tables]. by rewrite list_lookup_alter_eq, Ht. }
  pose proof (Mock_register_state σ1 m method path h2 g2 r _ Hwf Hm Ht1 Hg2)
    as Hr12.
  eexists _, _, _. split_and!; [exact Hr1|exact Hr12|exact Hr2| |].
  - subst σ1. cbn [Mock.arrays Mock.tables Mock.routers]. f_equal.
    apply list_eq. intros i.
    destruct (decide (i = Mock.Handlers r)) as [->|Hne].
    + rewrite !list_lookup_alter_eq, Ht. simpl. by rewrite insert_insert_eq.
    + by rewrite !list_lookup_alter_ne.
  - subst σ1. unfold Mock.handlersOf. cbn [Mock.routers Mock.tables].
    rewrite Hm. simpl. rewrite !list_lookup_alter_eq, Ht. simpl.
    apply lookup_insert_eq.
Qed.

(** X8: The middlewares of a route are fixed when it is registered: a [Use]
    that comes after the registration, on the same router or on another,
    adds to the stack but leaves the registered handler as it was, so the
    route is served without the new middleware. *)
Theorem Use_after_register_is_not_applied (σ : Mock.Store W) m b method path
    (h g : Handler W) (mw : Middleware W) r rb t :
  wf σ →
  Mock.routers σ !! m = Some r →
  Mock.routers σ !! b = Some rb →
  Mock.tables σ !! Mock.Handlers r = Some t →
  onion (Mock.middlewaresOf σ m) h = Returned g →
  ∃ σ1 σ2,
    Mock.register m method path h σ = (Returned (), σ1)
    ∧ Mock.Use b mw σ1 = (Returned (), σ2)
    ∧ Mock.middlewaresOf σ2 b = Mock.middlewaresOf σ b ++ [mw]
    ∧ Mock.handlersOf σ2 m !! (method +:+ " " +:+ Mock.prefix r +:+ path)
      = Some g
    ∧ ∀ order rq w,
        Method rq = method →
        Path rq = Mock.prefix r +:+ path →
        Mock.ServeHTTP (Mock.handlersOf σ2 m) order rq w = g rq w.
Proof.
  intros Hwf Hm Hb Ht Hg.
  pose proof (Mock_register_state σ m method path h g r t Hwf Hm Ht Hg)
    as Hreg.
  match type of Hreg with _ = (_, ?s) => set (σ1 := s) in * end.
  assert (wf σ1) as Hwf1 by exact Hwf.
  assert (Mock.routers σ1 !! b = Some rb) as Hb1 by exact Hb.
  destruct (wf_Use σ1 b mw rb Hwf1 Hb1) as (σ2 & HU & _ & _ & Hst & _).
  assert (Mock.tables σ2 = Mock.tables σ1) as Htab.
  { rewrite (Mock_Use_run σ1 b mw rb Hb1) in HU. by injection HU as <-. }
  assert (Mock.call (Mock.CallUse b mw) σ1 = (Returned (), σ2)) as Hcall
    by exact HU.
  destruct (Mock_call_keeps_router σ1 σ2 _ m r Hcall Hm)
    as (r' & Hm2 & HH & _).
  assert (Mock.handlersOf σ2 m !! (method +:+ " " +:+ Mock.prefix r +:+ path)
          = Some g) as Hlook.
  { unfold Mock.handlersOf. rewrite Hm2. simpl. rewrite HH, Htab.
    subst σ1. cbn [Mock.tables]. rewrite list_lookup_alter_eq, Ht. simpl.
    apply lookup_insert_eq. }
  exists σ1, σ2. split_and!; try done.
  intros order rq w Hmeth Hpath. unfold Mock.ServeHTTP, Mock.resolve.
  by rewrite Hmeth, Hpath, Hlook.
Qed.

End portable.

(** ** The further properties at work *)

Lemma mockRoot_wf : wf Fixtures.mockRoot.
Proof.
  destruct (wf_NewMockRouter (W := ResponseRecorder) Mock.emptyStore
              wf_emptyStore) as (σ' & Heq & Hwf & _).
  unfold Fixtures.mockRoot. by rewrite Heq.
Qed.

Lemma mockRoot_router :
  Mock.routers Fixtures.mockRoot !! 0
  = Some {| Mock.Handlers := 0; Mock.prefix := "";
            Mock.middlewares := {| Slices.arr := 0; Slices.len := 0;
                                   Slices.cap := 0 |} |}.
Proof. reflexivity. Qed.

Lemma mockRoot_table : Mock.tables Fixtures.mockRoot !! 0 = Some ∅.
Proof. reflexivity. Qed.

Lemma fiberRoot_wf : wfFiber Fixtures.fiberRoot.
Proof.
  split.
  - intros [|i] s; [|done]. intros [= <-]. exists []. simpl.
    split; [done|lia].
  - intros [|i] [|j] si sj; done.
Qed.

Lemma fiberRoot_nilFree : nilFree Fixtures.fiberRoot.
Proof. intros [|a]; apply not_elem_of_nil. Qed.

Lemma group_shares_table_witness :
  let σ1 := (Mock.Group 0 "/api" Fixtures.mockRoot).2 in
  let cs :=
    [Mock.CallRegister 1 "GET" "/ping"
       (Script.handlerOf (Example.say 200 "pong"));
     Mock.CallUse 0 (Some (Script.middlewareOf Example.poweredBy))] in
  let σ2 := (Mock.setup cs σ1).2 in
  Mock.handlersOf σ2 1 = Mock.handlersOf σ2 0
  ∧ Mock.prefixOf σ2 1 = "" +:+ "/api"
  ∧ Mock.prefixOf σ2 0 = "".
Proof.
  intros σ1 cs σ2.
  apply (group_shares_table Fixtures.mockRoot σ1 σ2 0 1 "/api" _ cs
           mockRoot_router).
  - apply pair_eta. vm_compute. reflexivity.
  - apply pair_eta. vm_compute. reflexivity.
Defined.

Lemma register_touches_one_key_witness :
  let run :=
    Mock.register 0 "GET" "/ping"
      (Script.handlerOf (Example.say 200 "pong")) Fixtures.mockRoot in
  Mock.handlersOf run.2 0 !! "GET /pong"
  = Mock.handlersOf Fixtures.mockRoot 0 !! "GET /pong".
Proof.
  intros run.
  destruct (register_touches_one_key Fixtures.mockRoot run.2 0 "GET" "/ping"
              (Script.handlerOf (Example.say 200 "pong")) _ run.1
              mockRoot_router) as [_ Hkeys].
  - exact (surjective_pairing run).
  - apply Hkeys. discriminate.
Defined.

Lemma Use_nil_breaks_registration_witness :
  ∃ σ1, Mock.Use 0 None Fixtures.mockRoot = (Returned (), σ1)
        ∧ Mock.register 0 "GET" "/ping"
            (Script.handlerOf (Example.say 200 "pong")) σ1
          = (Panicked "invalid memory address or nil pointer dereference", σ1).
Proof.
  destruct (Use_nil_breaks_registration Fixtures.mockRoot 0 _
              mockRoot_wf mockRoot_router) as (σ1 & HU & Hreg & _).
  exists σ1. split; [exact HU|apply Hreg].
Defined.

Lemma HandleFunc_serves_every_method_witness :
  ∃ σ', Mock.HandleFunc 0 "/universal"
          (Script.handlerOf (Example.say 200 "any")) Fixtures.mockRoot
        = (Returned (), σ')
        ∧ ∀ order w,
            Mock.ServeHTTP (Mock.handlersOf σ' 0) order
              (NewRequest "PATCH" "/universal") w
            = Script.handlerOf (Example.say 200 "any")
                (NewRequest "PATCH" "/universal") w.
Proof.
  destruct (HandleFunc_serves_every_method Fixtures.mockRoot 0 "/universal"
              (Script.handlerOf (Example.say 200 "any"))
              (Script.handlerOf (Example.say 200 "any")) _ ∅
              mockRoot_wf mockRoot_router mockRoot_table eq_refl)
    as (σ' & Hrun & Hserve & _).
  exists σ'. split; [exact Hrun|]. intros order w. apply Hserve.
  - unfold Mock.mockMethods. simpl. rewrite !elem_of_cons. tauto.
  - reflexivity.
Defined.

Lemma group_route_served_witness :
  ∃ c σ1 σ2,
    Mock.Group 0 "/api" Fixtures.mockRoot = (Returned c, σ1)
    ∧ Mock.register c "GET" "/ping"
        (Script.handlerOf (Example.say 200 "pong")) σ1 = (Returned (), σ2)
    ∧ ∀ order w,
        Mock.ServeHTTP (Mock.handlersOf σ2 0) order
          (NewRequest "GET" "/api/ping") w
        = Script.handlerOf (Example.say 200 "pong")
            (NewRequest "GET" "/api/ping") w.
Proof.
  destruct (group_route_served Fixtures.mockRoot 0 "/api" "GET" "/ping"
              (Script.handlerOf (Example.say 200 "pong"))
              (Script.handlerOf (Example.say 200 "pong")) _ ∅
              mockRoot_wf mockRoot_router mockRoot_table eq_refl)
    as (c & σ1 & σ2 & HG & Hreg & Hserve).
  exists c, σ1, σ2. split; [exact HG|]. split; [exact Hreg|].
  intros order w. by apply Hserve.
Defined.

Lemma unmatched_request_is_404_witness :
  Mock.ServeHTTP (W := ResponseRecorder)
    {[ "GET /ping" := Script.handlerOf (Example.say 200 "pong") ]}
    [("GET /ping", Script.handlerOf (Example.say 200 "pong"))]
    (NewRequest "POST" "/ping") NewRecorder
  = NotFound (NewRequest "POST" "/ping") NewRecorder.
Proof.
  apply unmatched_request_is_404.
  - unfold Mock.rangeOrder. by rewrite map_to_list_singleton.
  - by apply lookup_singleton_ne.
  - intros k h [<- _]%lookup_singleton_Some. by left.
Defined.

Lemma dynamic_route_matches_by_prefix_witness :
  Mock.ServeHTTP (W := ResponseRecorder)
    {[ "GET /users/:id" := Script.handlerOf (Example.say 200 "user") ]}
    [("GET /users/:id", Script.handlerOf (Example.say 200 "user"))]
    (NewRequest "GET" "/users/7/books/9") NewRecorder
  = Script.handlerOf (Example.say 200 "user")
      (NewRequest "GET" "/users/7/books/9") NewRecorder.
Proof.
  destruct (dynamic_route_matches_by_prefix (W := ResponseRecorder)
              {[ "GET /users/:id" := Script.handlerOf (Example.say 200 "user") ]}
              [("GET /users/:id", Script.handlerOf (Example.say 200 "user"))]
              (NewRequest "GET" "/users/7/books/9")
              "/users/" "id" "7/books/9"
              (Script.handlerOf (Example.say 200 "user")))
    as [_ Honly].
  - unfold Mock.rangeOrder. by rewrite map_to_list_singleton.
  - reflexivity.
  - reflexivity.
  - apply lookup_singleton_eq.
  - reflexivity.
  - by apply lookup_singleton_ne.
  - apply Honly. by intros k h [<- _]%lookup_singleton_Some.
Defined.

Lemma Fiber_stacks_stay_nil_free_witness :
  ∃ σ', Fiber.Use 0 None Fixtures.fiberRoot = (Returned (), σ')
        ∧ wfFiber σ' ∧ nilFree σ'.
Proof.
  destruct (Fiber_stacks_stay_nil_free Fixtures.fiberRoot
              fiberRoot_wf fiberRoot_nilFree) as (HUse & _ & _).
  destruct (HUse 0 None _ eq_refl) as (σ' & HU & Hwf & Hnil & _).
  exists σ'. split; [exact HU|]. split; [exact Hwf|exact Hnil].
Defined.

Lemma registry_last_registration_wins_witness :
  Transwarp.New (T := nat) {| Transwarp.cfgDriver := Transwarp.DriverGin |}
    (registerAll [(Transwarp.DriverGin, λ _, Returned 1);
                  (Transwarp.DriverFiber, λ _, Returned 2);
                  (Transwarp.DriverGin, λ _, Returned 3)]
       Transwarp.emptyRegistry)
  = Returned 3.
Proof.
  destruct (registry_last_registration_wins (T := nat)
              [(Transwarp.DriverGin, λ _, Returned 1);
               (Transwarp.DriverFiber, λ _, Returned 2);
               (Transwarp.DriverGin, λ _, Returned 3)]
              Transwarp.DriverGin) as (_ & Hlast & _).
  apply (Hlast [(Transwarp.DriverGin, λ _, Returned 1);
                (Transwarp.DriverFiber, λ _, Returned 2)]
               (λ _, Returned 3) []).
  - reflexivity.
  - apply not_elem_of_nil.
Defined.

Lemma Echo_Use_returns_last_error_witness :
  Echo.mwFunc (Some (Script.middlewareOf Example.firewall))
    (Echo.handler (Script.handlerOf (Example.say 200 "dashboard_data")))
    {| Fixtures.seRequest := NewRequest "GET" "/protected/dashboard";
       Fixtures.seWriter := NewRecorder |}
  = (Returned None,
     {| Fixtures.seRequest := NewRequest "GET" "/protected/dashboard";
        Fixtures.seWriter :=
          {| Code := 403; HeaderMap := ∅; Body := "bloqueado";
             wroteHeader := true |} |}).
Proof.
  destruct (Echo_Use_returns_last_error Example.firewall
              (Echo.handler
                 (Script.handlerOf (Example.say 200 "dashboard_data")))
              {| Fixtures.seRequest := NewRequest "GET" "/protected/dashboard";
                 Fixtures.seWriter := NewRecorder |}) as [_ Habort].
  rewrite Habort.
  - vm_compute. reflexivity.
  - unfold aborts. vm_compute. reflexivity.
Defined.

Lemma Echo_chain_never_errors_witness :
  neverErrs
    (Echo.mwFunc (Some (Script.middlewareOf Example.poweredBy))
       (Echo.handler (E := Fixtures.SimpleEcho)
          (Script.handlerOf (Example.say 200 "ok")))).
Proof.
  destruct (Echo_chain_never_errors (E := Fixtures.SimpleEcho))
    as [Hhandler Huse].
  apply Huse, Hhandler.
Defined.


Lemma reregistration_replaces_witness :
  ∃ σ1 σ2,
    Mock.register 0 "GET" "/ping"
      (Script.handlerOf (Example.say 200 "old")) Fixtures.mockRoot
    = (Returned (), σ1)
    ∧ Mock.register 0 "GET" "/ping"
        (Script.handlerOf (Example.say 200 "new")) σ1
      = (Returned (), σ2)
    ∧ Mock.handlersOf σ2 0 !! ("GET" +:+ " " +:+ "" +:+ "/ping")
      = Some (Script.handlerOf (Example.say 200 "new")).
Proof.
  destruct (reregistration_replaces Fixtures.mockRoot 0 "GET" "/ping"
              (Script.handlerOf (Example.say 200 "old"))
              (Script.handlerOf (Example.say 200 "new"))
              (Script.handlerOf (Example.say 200 "old"))
              (Script.handlerOf (Example.say 200 "new")) _ ∅
              mockRoot_wf mockRoot_router mockRoot_table eq_refl eq_refl)
    as (σ1 & σ2 & σ2' & H1 & H2 & _ & _ & Hlook).
  exists σ1, σ2. split; [exact H1|]. split; [exact H2|exact Hlook].
Defined.

Lemma Use_after_register_is_not_applied_witness :
  ∃ σ1 σ2,
    Mock.register 0 "GET" "/ping"
      (Script.handlerOf (Example.say 200 "pong")) Fixtures.mockRoot
    = (Returned (), σ1)
    ∧ Mock.Use 0 (Some (Script.middlewareOf Example.firewall)) σ1
      = (Returned (), σ2)
    ∧ ∀ order w,
        Mock.ServeHTTP (Mock.handlersOf σ2 0) order
          (NewRequest "GET" "/ping") w
        = Script.handlerOf (Example.say 200 "pong")
            (NewRequest "GET" "/ping") w.
Proof.
  destruct (Use_after_register_is_not_applied Fixtures.mockRoot 0 0
              "GET" "/ping"
              (Script.handlerOf (Example.say 200 "pong"))
              (Script.handlerOf (Example.say 200 "pong"))
              (Some (Script.middlewareOf Example.firewall)) _ _ ∅
              mockRoot_wf mockRoot_router mockRoot_router mockRoot_table
              eq_refl)
    as (σ1 & σ2 & Hreg & HU & _ & _ & Hserve).
  exists σ1, σ2. split; [exact Hreg|]. split; [exact HU|].
  intros order w. by apply Hserve.
Defined.
